(** * rslash: the ranking pipeline and the embedding / preference store

    A shallow embedding of [ml/embeddings.py] and [ml/ranking.py].

    Conventions of the embedding.
    - Python [float] and NumPy [float64] values are idealised as real
      numbers [R]; rounding, overflow and underflow are outside the model.
    - A NumPy one-dimensional array is a [list R].  Where the source adds
      or subtracts two arrays, or averages a list of them, the shapes are
      checked as NumPy checks them ([np_add], [np_sub], [np_iadd],
      [np_isub], [vmean]): a mismatch raises [ValueError], recorded as
      [None].  [vadd], [vsub] and [dot] are the operations on lists of one
      common length; the scorer's [np.dot] is modelled on that domain.
    - A SQLAlchemy session is a record of three tables held as lists in
      table order.  [ORDER BY] is modelled as a stable sort of that order,
      except where SQLite reads the rows from an index.
    - Sources of nondeterminism ([func.random()], [random.sample]) are an
      explicit oracle argument. *)

From Stdlib Require Import Reals Lra Lia ZArith List String Permutation Sorted.
From stdpp Require Import gmap strings list.

(** ** NumPy arrays *)

Definition vec := list R.

(** [np.zeros(n)] *)
Definition zeros (n : nat) : vec := repeat 0%R n.

(** Elementwise [u + v], [u - v], [c * v] on arrays of one shape. *)
Fixpoint vadd (u v : vec) : vec :=
  match u, v with
  | x :: u', y :: v' => (x + y)%R :: vadd u' v'
  | _, _ => []
  end.

Fixpoint vsub (u v : vec) : vec :=
  match u, v with
  | x :: u', y :: v' => (x - y)%R :: vsub u' v'
  | _, _ => []
  end.

Definition vscale (c : R) (v : vec) : vec := map (fun x => (c * x)%R) v.

(** [np.dot(u, v)] *)
Fixpoint dot (u v : vec) : R :=
  match u, v with
  | x :: u', y :: v' => (x * y + dot u' v')%R
  | _, _ => 0%R
  end.

(** [np.linalg.norm(v)] *)
Definition norm (v : vec) : R := sqrt (dot v v).

(** [v / d].  A zero divisor is an arithmetic fault (NumPy answers it
    with a warning and an array of nan/inf); it is recorded as [None]. *)
Definition vdiv (v : vec) (d : R) : option vec :=
  if Req_dec_T d 0 then None else Some (map (fun x => (x / d)%R) v).

(** [u + v] and [u - v] as NumPy evaluates them on two one-dimensional
    arrays: elementwise on equal shapes, an array of length 1 is broadcast
    over the other operand, any other pair of shapes raises [ValueError]
    ([None]). *)
Definition np_add (u v : vec) : option vec :=
  if Nat.eqb (length u) (length v) then Some (vadd u v)
  else match u, v with
       | [x], _ => Some (map (fun y => (x + y)%R) v)
       | _, [y] => Some (map (fun x => (x + y)%R) u)
       | _, _ => None
       end.

Definition np_sub (u v : vec) : option vec :=
  if Nat.eqb (length u) (length v) then Some (vsub u v)
  else match u, v with
       | [x], _ => Some (map (fun y => (x - y)%R) v)
       | _, [y] => Some (map (fun x => (x - y)%R) u)
       | _, _ => None
       end.

(** [u += v] and [u -= v]: the result is written into [u], so [v] must
    have the shape of [u] or length 1. *)
Definition np_iadd (u v : vec) : option vec :=
  if Nat.eqb (length u) (length v) then Some (vadd u v)
  else match v with
       | [y] => Some (map (fun x => (x + y)%R) u)
       | _ => None
       end.

Definition np_isub (u v : vec) : option vec :=
  if Nat.eqb (length u) (length v) then Some (vsub u v)
  else match v with
       | [y] => Some (map (fun x => (x - y)%R) u)
       | _ => None
       end.

(** [np.mean(vs, axis=0)] for a non-empty list of arrays: the list is
    first made a two-dimensional array, which raises [ValueError] unless
    all its rows have one length. *)
Definition vsum (vs : list vec) : vec :=
  match vs with
  | [] => []
  | v :: rest => fold_left vadd rest v
  end.

Definition same_shape (vs : list vec) : bool :=
  match vs with
  | [] => true
  | v :: rest => forallb (fun w => Nat.eqb (length w) (length v)) rest
  end.

Definition vmean (vs : list vec) : option vec :=
  if same_shape vs then vdiv (vsum vs) (INR (length vs)) else None.

(** The normalisation step shared by both preference-update paths:
<<
    norm = np.linalg.norm(user_embedding)
    if norm > 0:
        user_embedding = user_embedding / norm
>> *)
Definition normalize (v : vec) : option vec :=
  let n := norm v in
  if Rgt_dec n 0 then vdiv v n else Some v.

Definition is_zero (v : vec) : Prop := Forall (fun x => x = 0%R) v.
Definition unit_norm (v : vec) : Prop := norm v = 1%R.

(** ** Python and SQL primitives *)

(** Python's [int(x)] on a float: truncation towards zero. *)
Definition py_int (x : R) : Z :=
  if Rle_dec 0 x then Int_part x else (- Int_part (- x))%Z.

Definition Rltb (a b : R) : bool := if Rlt_dec a b then true else false.

(** Stable descending sort: [sorted(..., reverse=True)], [list.sort(...,
    reverse=True)] and [ORDER BY ... DESC]; [lt x y] says that the key of
    [x] is strictly below the key of [y]. *)
Fixpoint insert_desc {A} (lt : A -> A -> bool) (x : A) (l : list A) : list A :=
  match l with
  | [] => [x]
  | y :: l' => if lt x y then y :: insert_desc lt x l' else x :: y :: l'
  end.

Fixpoint sort_desc {A} (lt : A -> A -> bool) (l : list A) : list A :=
  match l with
  | [] => []
  | x :: l' => insert_desc lt x (sort_desc lt l')
  end.

(** ** Tables ([backend/app/models.py]) *)

Record Post := {
  post_id : string;
  title : string;
  content : option string;
  subreddit : string;
  score : Z;
  upvote_ratio : R;
  num_comments : Z;
  is_video : bool;
  is_self : bool;
  nsfw : bool;
  created_utc : option R;
  post_age_hours : option R;
  embedding : option vec
}.

Record User := {
  user_id : string;
  user_embedding : option vec;
  preferred_subreddits : option (list (string * R));
  exploration_rate : R
}.

Record Interaction := {
  i_user_id : string;
  i_post_id : string;
  interaction_type : string;
  time_spent : R
}.

Record DB := {
  posts : list Post;
  users : list User;
  interactions : list Interaction
}.

(** Truthiness of a JSON array column: [None] and [[]] are falsy. *)
Definition truthy (o : option vec) : option vec :=
  match o with
  | Some (x :: l) => Some (x :: l)
  | _ => None
  end.

(** [db.query(User).filter_by(user_id=uid).first()] *)
Definition get_user (d : DB) (uid : string) : option User :=
  find (fun u => String.eqb (user_id u) uid) (users d).

(** [db.query(Post).filter_by(post_id=pid).first()] *)
Definition get_post (d : DB) (pid : string) : option Post :=
  find (fun p => String.eqb (post_id p) pid) (posts d).

Definition with_embedding (u : User) (v : vec) : User :=
  {| user_id := user_id u;
     user_embedding := Some v;
     preferred_subreddits := preferred_subreddits u;
     exploration_rate := exploration_rate u |}.

(** [user.user_embedding = v.tolist(); db.commit()] on the row that
    [.first()] returned. *)
Fixpoint store_embedding (us : list User) (uid : string) (v : vec) : list User :=
  match us with
  | [] => []
  | u :: us' =>
      if String.eqb (user_id u) uid then with_embedding u v :: us'
      else u :: store_embedding us' uid v
  end.

Definition put_embedding (d : DB) (uid : string) (v : vec) : DB :=
  {| posts := posts d;
     users := store_embedding (users d) uid v;
     interactions := interactions d |}.

(** ** [EmbeddingManager] ([ml/embeddings.py]) *)

(** Embeddings of the posts the given interactions point at, each passed
    through [f]; rows whose post is gone or has no embedding are skipped. *)
Fixpoint interaction_embeddings (d : DB) (f : Interaction -> vec -> vec)
    (l : list Interaction) : list vec :=
  match l with
  | [] => []
  | i :: l' =>
      match get_post d (i_post_id i) with
      | Some p =>
          match truthy (embedding p) with
          | Some e => f i e :: interaction_embeddings d f l'
          | None => interaction_embeddings d f l'
          end
      | None => interaction_embeddings d f l'
      end
  end.

Definition interactions_of (d : DB) (uid ty : string) : list Interaction :=
  List.filter (fun i => String.eqb (i_user_id i) uid && String.eqb (interaction_type i) ty)
         (interactions d).

(** [weight = min(interaction.time_spent / 30.0, 2.0)] *)
Definition like_weight (i : Interaction) : R := Rmin (time_spent i / 30) 2.

(** The accumulation of the batch path before it normalises. *)
Definition raw_user_embedding (dim : nat)
    (liked disliked : list vec) : option vec :=
  u1 ← (match liked with
        | [] => Some (zeros dim)
        | _ => m ← vmean liked; np_iadd (zeros dim) m
        end);
  match disliked with
  | [] => Some u1
  | _ => m ← vmean disliked; np_isub u1 (vscale 0.3 m)
  end.

(** [generate_user_embedding]: the returned array and the database after
    the call; [None] is a call that raises ([ValueError] on a shape
    mismatch) or divides by zero. *)
Definition generate_user_embedding (dim : nat) (d : DB) (uid : string)
    : option (vec * DB) :=
  match interactions_of d uid "like" with
  | [] =>
      let all_posts := firstn 100 (posts d) in
      let embeddings := omap (fun p => truthy (embedding p)) all_posts in
      match embeddings with
      | [] => Some (zeros dim, d)
      | _ => m ← vmean embeddings; Some (m, d)
      end
  | liked_interactions =>
      let liked_embeddings :=
        interaction_embeddings d (fun i e => vscale (like_weight i) e)
                               liked_interactions in
      let disliked_embeddings :=
        interaction_embeddings d (fun _ e => e)
                               (interactions_of d uid "dislike") in
      raw ← raw_user_embedding dim liked_embeddings disliked_embeddings;
      user_embedding ← normalize raw;
      match get_user d uid with
      | Some _ => Some (user_embedding, put_embedding d uid user_embedding)
      | None => Some (user_embedding, d)
      end
  end.

(** The arithmetic of [update_user_embedding_online] on the current
    array and the post's array. *)
Definition online_step (interaction_type : string) (learning_rate : R)
    (user_embedding post_embedding : vec) : option vec :=
  if String.eqb interaction_type "like" then
    np_add (vscale (1 - learning_rate) user_embedding)
           (vscale learning_rate post_embedding)
  else if String.eqb interaction_type "dislike" then
    np_sub user_embedding (vscale (learning_rate * 0.5) post_embedding)
  else Some user_embedding.

(** [update_user_embedding_online]: the database after the call (the
    method returns nothing); [None] is a call that raises ([ValueError] on
    a shape mismatch) or divides by zero, and commits nothing. *)
Definition update_user_embedding_online (dim : nat) (d : DB)
    (uid pid interaction_type : string) (learning_rate : R) : option DB :=
  match get_user d uid, get_post d pid with
  | Some user, Some post =>
      match truthy (embedding post) with
      | None => Some d
      | Some post_embedding =>
          let user_embedding :=
            match truthy (user_embedding user) with
            | Some v => v
            | None => zeros dim
            end in
          moved ← online_step interaction_type learning_rate
                              user_embedding post_embedding;
          v ← normalize moved;
          Some (put_embedding d uid v)
      end
  | _, _ => Some d
  end.

(** *** The vector store *)

(** A [faiss.IndexFlatIP]: the dimension it was created with and the
    rows added to it. *)
Record FlatIndex := {
  index_dim : nat;
  index_rows : list vec
}.

(** The fields of the manager and the two files it keeps under [data/]. *)
Record VectorStore := {
  embedding_dim : nat;
  post_index : option FlatIndex;
  post_id_map : gmap Z string;
  index_file : option FlatIndex;
  map_file : option (gmap Z string)
}.

(** What a call leaves in the log and does to the outside. *)
Inductive Event :=
| LogWarning       (* "Index not built. Loading or building..." *)
| LoadedIndex      (* faiss.read_index *)
| EncodedPosts     (* self.model.encode over the whole catalog *)
| BuiltIndex       (* _build_faiss_index *)
| SavedIndex       (* faiss.write_index and pickle.dump *)
| LogError.        (* "Error generating embeddings" *)

(** A call either returns or raises. *)
Inductive Outcome (A : Type) :=
| Returned (a : A)
| Raised (exn : string).
Arguments Returned {A} a.
Arguments Raised {A} exn.

(** [load_index] *)
Definition load_index (vs : VectorStore) : VectorStore * bool :=
  match index_file vs with
  | Some ix =>
      ({| embedding_dim := embedding_dim vs;
          post_index := Some ix;
          post_id_map := match map_file vs with
                         | Some m => m
                         | None => post_id_map vs
                         end;
          index_file := index_file vs;
          map_file := map_file vs |}, true)
  | None => (vs, false)
  end.

(** [f"{post.title}. {post.content[:500] if post.content else ''}"] *)
Definition post_text (post : Post) : string :=
  (title post ++ ". " ++
   match content post with
   | Some c => substring 0 500 c
   | None => EmptyString
   end)%string.

(** [faiss.normalize_L2] on each row; a zero row is left as it is. *)
Definition normalize_L2 (rows : list vec) : list vec :=
  map (fun v => match normalize v with Some w => w | None => v end) rows.

(** [{i: post_id for i, post_id in enumerate(post_ids)}] *)
Fixpoint enumerate_from {B : Type} (i : Z) (l : list B) : list (Z * B) :=
  match l with
  | [] => []
  | x :: l' => (i, x) :: enumerate_from (i + 1) l'
  end.

Definition id_map (post_ids : list string) : gmap Z string :=
  list_to_map (enumerate_from 0 post_ids).

(** [_build_faiss_index] followed by [save_index]: the store after the
    call and whether the call returned.  [IndexFlatIP.add] asserts that the
    rows have the dimension of the index; when they have not, the empty
    index assigned on the first line stays in place and nothing else
    happens. *)
Definition build_faiss_index (vs : VectorStore) (embeddings : list vec)
    (post_ids : list string) : VectorStore * bool :=
  if forallb (fun row => Nat.eqb (length row) (embedding_dim vs)) embeddings then
    let ix := {| index_dim := embedding_dim vs;
                 index_rows := normalize_L2 embeddings |} in
    let m := id_map post_ids in
    ({| embedding_dim := embedding_dim vs;
        post_index := Some ix; post_id_map := m;
        index_file := Some ix; map_file := Some m |}, true)
  else
    ({| embedding_dim := embedding_dim vs;
        post_index := Some {| index_dim := embedding_dim vs; index_rows := [] |};
        post_id_map := post_id_map vs;
        index_file := index_file vs; map_file := map_file vs |}, false).

(** [post.embedding = embedding.tolist()] over [zip(posts, embeddings)] *)
Fixpoint assign_embeddings (ps : list Post) (es : list vec) : list Post :=
  match ps, es with
  | post :: ps', e :: es' =>
      {| post_id := post_id post; title := title post; content := content post;
         subreddit := subreddit post; score := score post;
         upvote_ratio := upvote_ratio post; num_comments := num_comments post;
         is_video := is_video post; is_self := is_self post; nsfw := nsfw post;
         created_utc := created_utc post; post_age_hours := post_age_hours post;
         embedding := Some e |} :: assign_embeddings ps' es'
  | _, _ => ps
  end.

(** [generate_post_embeddings].  [encode] is the sentence-transformer
    model, answering a two-dimensional array with one row per text;
    [None] is an exception inside the [try], which the method logs and
    swallows.  The embeddings are committed to the posts before
    the index is built, so they stay when the build raises. *)
Definition generate_post_embeddings (encode : list string -> option (list vec))
    (vs : VectorStore) (d : DB) : VectorStore * DB * list Event :=
  match encode (map post_text (posts d)) with
  | None => (vs, d, [LogError])
  | Some embeddings =>
      let d1 := {| posts := assign_embeddings (posts d) embeddings;
                   users := users d; interactions := interactions d |} in
      let '(vs1, built) :=
        build_faiss_index vs embeddings (map post_id (posts d)) in
      if built then (vs1, d1, [EncodedPosts; BuiltIndex; SavedIndex])
      else (vs1, d1, [EncodedPosts; LogError])
  end.

(** [IndexFlatIP.search] for one query: the [k] rows of largest inner
    product, best first, padded with label -1 when the index is short. *)
Definition lowest_score : R := (- 340282346638528859811704183484516925440)%R.

Definition flat_ip_search (ix : list vec) (query : vec) (k : nat) : list (Z * R) :=
  let hits :=
    firstn k (sort_desc (fun x y => Rltb (snd x) (snd y))
                        (enumerate_from 0 (map (fun row => dot row query) ix))) in
  hits ++ repeat ((-1)%Z, lowest_score) (k - length hits).

(** "Map indices to post IDs" *)
Fixpoint map_results (m : gmap Z string) (hits : list (Z * R)) : list (string * R) :=
  match hits with
  | [] => []
  | (idx, sc) :: rest =>
      match m !! idx with
      | Some pid => (pid, sc) :: map_results m rest
      | None => map_results m rest
      end
  end.

(** The part of [find_similar_posts] below its first [if].  Without an
    index the [.search] attribute is missing; [IndexFlatIP.search] itself
    asserts that the query has the dimension of the index and that [k] is
    positive. *)
Definition search_index (vs : VectorStore) (query_embedding : vec) (k : nat)
    : Outcome (list (string * R)) :=
  match normalize query_embedding with
  | None => Raised "FloatingPointError"
  | Some query =>
      match post_index vs with
      | None => Raised "AttributeError"
      | Some ix =>
          if Nat.eqb (length query) (index_dim ix) && negb (Nat.eqb k 0) then
            Returned (map_results (post_id_map vs)
                                  (flat_ip_search (index_rows ix) query k))
          else Raised "AssertionError"
      end
  end.

(** [find_similar_posts]: what it answers, the store and the database
    after the call, and the trace of the call. *)
Definition find_similar_posts (encode : list string -> option (list vec))
    (vs : VectorStore) (d : DB) (query_embedding : vec) (k : nat)
    : Outcome (list (string * R)) * VectorStore * DB * list Event :=
  match post_index vs with
  | Some _ => (search_index vs query_embedding k, vs, d, [])
  | None =>
      let '(vs1, loaded) := load_index vs in
      if loaded then
        (search_index vs1 query_embedding k, vs1, d, [LogWarning; LoadedIndex])
      else
        let '(vs2, d2, trace) := generate_post_embeddings encode vs1 d in
        (search_index vs2 query_embedding k, vs2, d2, LogWarning :: trace)
  end.

(** A manager on which no index was ever built or saved. *)
Definition never_built (vs : VectorStore) : Prop :=
  post_index vs = None /\ index_file vs = None.

(** ** [RankingPipeline] ([ml/ranking.py]) *)

(** What the pipeline reads from outside itself during one call: the
    clock, the answer of [EmbeddingManager.find_similar_posts], the order
    [ORDER BY func.random()] produces and the draw of [random.sample]. *)
Record Env := {
  now : R;
  similar_posts : vec -> Z -> list (string * R);
  random_order : list Post -> list Post;
  random_sample : list nat -> nat -> list nat
}.

(** A well-behaved source of randomness: a random order is a permutation
    and a sample of size [k] is the first [k] of some permutation. *)
Definition env_ok (e : Env) : Prop :=
  (forall l, Permutation (random_order e l) l) /\
  (forall l k, exists l', Permutation l' l /\ random_sample e l k = firstn k l').

(** [ORDER BY Post.score DESC] *)
Definition order_by_score_desc (l : list Post) : list Post :=
  sort_desc (fun p q => (score p <? score q)%Z) l.

(** [Post.score / (Post.post_age_hours + 1)]; SQL's NULL is [None], and
    NULL sorts below every number. *)
Definition score_velocity (p : Post) : option R :=
  match post_age_hours p with
  | Some h => if Req_dec_T (h + 1) 0 then None else Some (IZR (score p) / (h + 1))%R
  | None => None
  end.

Definition option_Rltb (a b : option R) : bool :=
  match a, b with
  | Some x, Some y => Rltb x y
  | None, Some _ => true
  | _, None => false
  end.

Definition seen_post_ids (d : DB) (uid : string) : gset string :=
  list_to_set (map i_post_id
    (List.filter (fun i => String.eqb (i_user_id i) uid) (interactions d))).

Definition unseen (seen : gset string) (p : Post) : bool :=
  negb (bool_decide (post_id p ∈ seen)).

(** Strategy 1: posts the vector store answers, minus the seen ones and
    the ones without a row. *)
Fixpoint similarity_candidates (d : DB) (seen : gset string)
    (similar : list (string * R)) : list Post :=
  match similar with
  | [] => []
  | (pid, _) :: rest =>
      if bool_decide (pid ∈ seen) then similarity_candidates d seen rest
      else match get_post d pid with
           | Some post => post :: similarity_candidates d seen rest
           | None => similarity_candidates d seen rest
           end
  end.

(** Strategy 2: unseen posts created in the last 48 hours by score
    velocity. *)
Definition trending_candidates (e : Env) (d : DB) (seen : gset string)
    (limit : Z) : list Post :=
  let trending_cutoff := (now e - 48 * 3600)%R in
  firstn (Z.to_nat limit)
    (sort_desc (fun p q => option_Rltb (score_velocity p) (score_velocity q))
       (List.filter (fun p => match created_utc p with
                         | Some t => Rltb trending_cutoff t
                         | None => false
                         end && unseen seen p)
               (posts d))).

(** Strategy 3: the ten best unseen posts of each of the user's three
    heaviest subreddits.  SQLite answers this query from the index on
    (subreddit, score), read backwards: posts of equal score come in
    reverse table order. *)
Definition subreddit_candidates (d : DB) (seen : gset string)
    (prefs : option (list (string * R))) : list Post :=
  match prefs with
  | None | Some [] => []
  | Some items =>
      let top_subreddits :=
        firstn 3 (sort_desc (fun x y => Rltb (snd x) (snd y)) items) in
      flat_map (fun sw =>
          firstn 10 (order_by_score_desc
            (rev (List.filter
                    (fun p => String.eqb (subreddit p) (fst sw) && unseen seen p)
                    (posts d)))))
        top_subreddits
  end.

(** Strategy 4: unseen posts in random order. *)
Definition exploration_candidates (e : Env) (d : DB) (seen : gset string)
    (limit : Z) : list Post :=
  firstn (Z.to_nat limit) (random_order e (List.filter (unseen seen) (posts d))).

(** "Remove duplicates while preserving order" *)
Fixpoint unique_candidates (seen : gset string) (l : list Post) : list Post :=
  match l with
  | [] => []
  | post :: l' =>
      if bool_decide (post_id post ∈ seen) then unique_candidates seen l'
      else post :: unique_candidates ({[post_id post]} ∪ seen) l'
  end.

(** Stage 1.  [num_candidates] is 100 at the only call site. *)
Definition get_candidates (e : Env) (d : DB) (uid : string)
    (num_candidates : nat) : list Post :=
  match get_user d uid with
  | None => firstn num_candidates (order_by_score_desc (posts d))
  | Some user =>
      let seen := seen_post_ids d uid in
      let s1 :=
        match truthy (user_embedding user) with
        | Some ue =>
            similarity_candidates d seen
              (similar_posts e ue (py_int (INR num_candidates * 0.4)))
        | None => []
        end in
      let s2 := trending_candidates e d seen (py_int (INR num_candidates * 0.3)) in
      let s3 := subreddit_candidates d seen (preferred_subreddits user) in
      let s4 := exploration_candidates e d seen (py_int (INR num_candidates * 0.1)) in
      firstn num_candidates (unique_candidates ∅ (s1 ++ s2 ++ s3 ++ s4))
  end.

(** Stage 2. *)
Definition engagement_score (post : Post) : R :=
  (IZR (score post) / 1000 * 0.3
   + IZR (num_comments post) / 100 * 0.2
   + upvote_ratio post * 0.1)%R.

(** [post.post_age_hours if post.post_age_hours else 24]: both [None]
    and [0.0] are falsy. *)
Definition hours_old (post : Post) : R :=
  match post_age_hours post with
  | Some h => if Req_dec_T h 0 then 24%R else h
  | None => 24%R
  end.

Definition freshness_score (post : Post) : R :=
  Rmax 0 (1 - hours_old post / 168).

Definition similarity_term (user : option User) (post : Post) : R :=
  match user with
  | Some u =>
      match truthy (user_embedding u), truthy (embedding post) with
      | Some ue, Some pe => (dot ue pe * 0.4)%R
      | _, _ => 0%R
      end
  | None => 0%R
  end.

(** [dict.get(key, 0)] on a JSON object held in key order. *)
Fixpoint dict_get (m : list (string * R)) (k : string) : R :=
  match m with
  | [] => 0%R
  | (k', w) :: m' => if String.eqb k' k then w else dict_get m' k
  end.

Definition subreddit_term (user : option User) (post : Post) : R :=
  match user with
  | Some u =>
      match preferred_subreddits u with
      | None | Some [] => 0%R
      | Some prefs => (dict_get prefs (subreddit post) * 0.1)%R
      end
  | None => 0%R
  end.

Definition post_score (user : option User) (post : Post) : R :=
  (0.0 + similarity_term user post
   + Rmin (engagement_score post) 1.0 * 0.3
   + freshness_score post * 0.2
   + subreddit_term user post)%R.

Definition score_candidates (d : DB) (uid : string) (candidates : list Post)
    : list (Post * R) :=
  let user := get_user d uid in
  sort_desc (fun x y => Rltb (snd x) (snd y))
            (map (fun post => (post, post_score user post)) candidates).

(** Stage 3. *)
Definition content_type (post : Post) : string :=
  if is_video post then "video"
  else if is_self post then "text"
  else "link".

(** The three mutable locals of the greedy loop. *)
Record Selection := {
  final_posts : list Post;
  subreddit_count : gmap string Z;
  content_types : gmap string Z
}.

Definition selection_start : Selection :=
  {| final_posts := [];
     subreddit_count := ∅;
     content_types := <["text" := 0%Z]> (<["link" := 0%Z]> {["video" := 0%Z]}) |}.

Inductive Verdict := SkipSubreddit | SkipContentType | SkipNsfw | Accept.

(** The three tests of the loop body, in source order. *)
Definition judge (num_items : Z) (st : Selection) (post : Post) : Verdict :=
  if bool_decide (2 ≤ default 0 (subreddit_count st !! subreddit post))%Z
  then SkipSubreddit
  else if bool_decide (num_items `div` 2 ≤ default 0 (content_types st !! content_type post))%Z
  then SkipContentType
  else if nsfw post then SkipNsfw
  else Accept.

Definition accept (st : Selection) (post : Post) : Selection :=
  {| final_posts := final_posts st ++ [post];
     subreddit_count :=
       <[subreddit post := (default 0 (subreddit_count st !! subreddit post) + 1)%Z]>
         (subreddit_count st);
     content_types :=
       <[content_type post := (default 0 (content_types st !! content_type post) + 1)%Z]>
         (content_types st) |}.

(** The loop over [scored_posts], with its [continue]s and its [break]. *)
Fixpoint greedy_loop (num_items : Z) (scored_posts : list (Post * R))
    (st : Selection) : Selection :=
  match scored_posts with
  | [] => st
  | (post, _) :: rest =>
      match judge num_items st post with
      | Accept =>
          let st' := accept st post in
          if bool_decide (num_items ≤ Z.of_nat (length (final_posts st')))%Z
          then st'
          else greedy_loop num_items rest st'
      | _ => greedy_loop num_items rest st
      end
  end.

Definition greedy_pass (num_items : Z) (scored_posts : list (Post * R)) : list Post :=
  final_posts (greedy_loop num_items scored_posts selection_start).

(** [for idx, exp_post in zip(...): if idx < len(final_posts): final_posts[idx] = exp_post] *)
Fixpoint substitute (final : list Post) (pairs : list (nat * Post)) : list Post :=
  match pairs with
  | [] => final
  | (idx, exp_post) :: rest =>
      if bool_decide (idx < length final)%nat
      then substitute (<[idx := exp_post]> final) rest
      else substitute final rest
  end.

Definition num_exploration_of (d : DB) (uid : string) (num_items : Z) : Z :=
  let exploration_rate :=
    match get_user d uid with
    | Some user => exploration_rate user
    | None => 0.5%R
    end in
  py_int (IZR num_items * exploration_rate).

Definition apply_business_rules (e : Env) (d : DB)
    (scored_posts : list (Post * R)) (uid : string) (num_items : Z) : list Post :=
  let final := greedy_pass num_items scored_posts in
  let num_exploration := num_exploration_of d uid num_items in
  if bool_decide (0 < num_exploration)%Z
     && bool_decide (num_exploration < Z.of_nat (length final))%Z
  then
    let n := Z.to_nat num_exploration in
    let exploration_indices :=
      random_sample e (seq (length final - n) n) n in
    let exploration_posts := firstn n (random_order e (posts d)) in
    substitute final (combine exploration_indices exploration_posts)
  else final.

(** The posts behind the dictionaries [get_recommendations] returns. *)
Definition get_recommendations (e : Env) (d : DB) (uid : string)
    (num_items : Z) : list Post :=
  match get_candidates e d uid 100 with
  | [] => []
  | candidates =>
      apply_business_rules e d (score_candidates d uid candidates) uid num_items
  end.

(** ** The API ([backend/app/main.py]) *)

(** The statistics columns of a [users] row.  The pipeline never reads
    them; they are kept beside the [User] record, keyed by user id, a
    missing entry standing for the column defaults. *)
Record UserStats := {
  total_interactions : Z;
  total_likes : Z;
  total_dislikes : Z;
  avg_read_time : R
}.

Definition default_stats : UserStats :=
  {| total_interactions := 0; total_likes := 0; total_dislikes := 0;
     avg_read_time := 0.0 |}.

(** The [username] column is kept the same way: the list holds, in
    insertion order, the user id and the name of every row whose username
    is not NULL.  The column is UNIQUE. *)
Record App := {
  db : DB;
  user_stats : gmap string UserStats;
  usernames : list (string * string)
}.

Definition stats_of (app : App) (uid : string) : UserStats :=
  match user_stats app !! uid with
  | Some s => s
  | None => default_stats
  end.

(** [FeedbackRequest] *)
Record FeedbackRequest := {
  f_user_id : string;
  f_post_id : string;
  f_interaction_type : string;
  f_time_spent : R
}.

(** The counters after one more interaction of the given type and
    duration; [None] is the integer division by zero of the running
    average. *)
Definition bump_stats (s : UserStats) (ty : string) (seconds : R) : option UserStats :=
  let n := (total_interactions s + 1)%Z in
  let likes := if String.eqb ty "like" then (total_likes s + 1)%Z else total_likes s in
  let dislikes :=
    if String.eqb ty "like" then total_dislikes s
    else if String.eqb ty "dislike" then (total_dislikes s + 1)%Z
    else total_dislikes s in
  if Rgt_dec seconds 0 then
    if (n =? 0)%Z then None
    else Some {| total_interactions := n; total_likes := likes;
                 total_dislikes := dislikes;
                 avg_read_time :=
                   ((avg_read_time s * IZR (n - 1) + seconds) / IZR n)%R |}
  else Some {| total_interactions := n; total_likes := likes;
               total_dislikes := dislikes; avg_read_time := avg_read_time s |}.

(** SQLite keeps an [Integer] column in 64 bits; a Python int outside
    that range raises [OverflowError] when the row is flushed. *)
Definition fits_int64 (z : Z) : bool :=
  ((- 2 ^ 63 <=? z) && (z <=? 2 ^ 63 - 1))%Z.

(** The counters [submit_feedback] has assigned can be written back. *)
Definition counters_fit (s : UserStats) (ty : string) : bool :=
  fits_int64 (total_interactions s)
  && (if String.eqb ty "like" then fits_int64 (total_likes s)
      else if String.eqb ty "dislike" then fits_int64 (total_dislikes s)
      else true).

(** [submit_feedback]: whether the handler returned, and the application
    state after the call; [dim] is the embedding dimension of the manager
    the module holds.  The interaction and the counters are committed
    before the embedding is updated, so they stay when that update
    raises. *)
Definition submit_feedback (dim : nat) (app : App) (feedback : FeedbackRequest)
    : Outcome unit * App :=
  match get_user (db app) (f_user_id feedback),
        get_post (db app) (f_post_id feedback) with
  | Some _, Some _ =>
      let interaction :=
        {| i_user_id := f_user_id feedback; i_post_id := f_post_id feedback;
           interaction_type := f_interaction_type feedback;
           time_spent := f_time_spent feedback |} in
      match bump_stats (stats_of app (f_user_id feedback))
                       (f_interaction_type feedback) (f_time_spent feedback) with
      | None => (Raised "ZeroDivisionError", app)
      | Some s =>
          if counters_fit s (f_interaction_type feedback) then
            let d1 := {| posts := posts (db app); users := users (db app);
                         interactions := interactions (db app) ++ [interaction] |} in
            let stats := <[f_user_id feedback := s]> (user_stats app) in
            match update_user_embedding_online dim d1 (f_user_id feedback)
                    (f_post_id feedback) (f_interaction_type feedback) 0.1 with
            | Some d2 =>
                (Returned tt,
                 {| db := d2; user_stats := stats; usernames := usernames app |})
            | None =>
                (Raised "ValueError",
                 {| db := d1; user_stats := stats; usernames := usernames app |})
            end
          else (Raised "OverflowError", app)
      end
  | _, _ => (Raised "404 User or post not found", app)
  end.

(** [LIMIT n] as SQLite, the configured default, answers it: a negative
    [n] is no limit. *)
Definition sql_limit {B : Type} (n : Z) (l : list B) : list B :=
  if (n <? 0)%Z then l else firstn (Z.to_nat n) l.

(** [f"user_{user_id[:8]}"] *)
Definition default_username (uid : string) : string :=
  ("user_" ++ substring 0 8 uid)%string.

(** The part of [get_feed] below the registration of the user. *)
Definition feed_posts (e : Env) (d : DB) (uid : string) (num_items : Z)
    : list Post :=
  match get_recommendations e d uid num_items with
  | [] => sql_limit num_items (order_by_score_desc (posts d))
  | recommendations => recommendations
  end.

(** [get_feed]: the posts behind the recommendations it returns and the
    application state after the call.  Registering a user whose default
    name is already taken violates the UNIQUE constraint at the commit. *)
Definition get_feed (e : Env) (app : App) (uid : string) (num_items : Z)
    : Outcome (list Post) * App :=
  match get_user (db app) uid with
  | Some _ => (Returned (feed_posts e (db app) uid num_items), app)
  | None =>
      if existsb (fun row => String.eqb (snd row) (default_username uid))
                 (usernames app)
      then (Raised "IntegrityError", app)
      else
        let d1 :=
          {| posts := posts (db app);
             users := users (db app)
                      ++ [{| user_id := uid; user_embedding := None;
                             preferred_subreddits := None;
                             exploration_rate := 0.5 |}];
             interactions := interactions (db app) |} in
        (Returned (feed_posts e d1 uid num_items),
         {| db := d1; user_stats := user_stats app;
            usernames := usernames app ++ [(uid, default_username uid)] |})
  end.

(** A Python [dict] with string keys, in insertion order: assigning to
    a key that is present replaces its value in place, assigning to a new
    key appends it. *)
Fixpoint dict_set {V : Type} (m : list (string * V)) (k : string) (v : V)
    : list (string * V) :=
  match m with
  | [] => [(k, v)]
  | (k', v') :: m' =>
      if String.eqb k' k then (k', v) :: m' else (k', v') :: dict_set m' k v
  end.

Fixpoint dict_lookup {V : Type} (m : list (string * V)) (k : string) : option V :=
  match m with
  | [] => None
  | (k', v) :: m' => if String.eqb k' k then Some v else dict_lookup m' k
  end.

(** [m[k] = m.get(k, 0) + 1] *)
Definition dict_incr (m : list (string * Z)) (k : string) : list (string * Z) :=
  dict_set m k (match dict_lookup m k with Some c => c | None => 0 end + 1)%Z.

(** [get_user_stats]: the interaction breakdown and the favourite
    subreddits of the answer. *)
Record StatsReport := {
  r_stats : UserStats;
  r_exploration_rate : R;
  interaction_breakdown : list (string * Z);
  favorite_subreddits : list (string * Z)
}.

Definition get_user_stats (app : App) (uid : string) : Outcome StatsReport :=
  match get_user (db app) uid with
  | None => Raised "404 User not found"
  | Some user =>
      let interactions :=
        List.filter (fun i => String.eqb (i_user_id i) uid) (interactions (db app)) in
      let breakdown :=
        fold_left (fun m i => dict_incr m (interaction_type i)) interactions [] in
      let favorite :=
        fold_left (fun m i =>
                     if String.eqb (interaction_type i) "like" then
                       match get_post (db app) (i_post_id i) with
                       | Some post => dict_incr m (subreddit post)
                       | None => m
                       end
                     else m)
                  interactions [] in
      Returned {| r_stats := stats_of app uid;
                  r_exploration_rate := exploration_rate user;
                  interaction_breakdown := breakdown;
                  favorite_subreddits :=
                    firstn 5 (sort_desc (fun x y => (snd x <? snd y)%Z) favorite) |}
  end.

(** ** The scraper ([data/reddit_scraper.py]) *)

(** The keys of a scraped post that the functions below read. *)
Record ScrapedPost := {
  sp_post_id : string;
  sp_subreddit : string;
  sp_score : Z;
  sp_upvote_ratio : R;
  sp_estimated_read_time : R;
  sp_post_age_hours : R
}.

Definition default_subreddits : list string :=
  ["programming"; "python"; "javascript"; "machinelearning"; "datascience";
   "webdev"; "technology"; "gadgets"; "android"; "apple";
   "funny"; "memes"; "videos"; "gifs"; "movies"; "television";
   "netflix"; "music"; "hiphopheads"; "gaming";
   "askreddit"; "todayilearned"; "explainlikeimfive"; "showerthoughts";
   "unpopularopinion"; "changemyview"; "nostupidquestions";
   "books"; "cooking"; "fitness"; "personalfinance"; "cryptocurrency";
   "wallstreetbets"; "sports"; "nba"; "soccer"; "formula1";
   "lifeprotips"; "getmotivated"; "food"; "travel"; "photography";
   "art"; "diy"; "fashion"; "malefashionadvice"; "sneakers"]%string.

(** The attributes of a praw submission the scraper reads. *)
Record Submission := {
  sub_id : string;
  sub_title : string;
  sub_selftext : string;
  sub_subreddit : string;
  sub_author : option string;
  sub_score : Z;
  sub_upvote_ratio : R;
  sub_num_comments : Z;
  sub_created_utc : R;
  sub_url : string;
  sub_permalink : string;
  sub_is_video : bool;
  sub_is_self : bool;
  sub_over_18 : bool;
  sub_all_awardings : nat;
  sub_stickied : bool
}.

(** The dictionary [_extract_post_data] returns, key by key. *)
Record PostData := {
  pd_post_id : string;
  pd_title : string;
  pd_content : string;
  pd_subreddit : string;
  pd_author : string;
  pd_score : Z;
  pd_upvote_ratio : R;
  pd_num_comments : Z;
  pd_created_utc : R;
  pd_url : string;
  pd_permalink : string;
  pd_is_video : bool;
  pd_is_self : bool;
  pd_nsfw : bool;
  pd_awards : nat;
  pd_fetch_method : string;
  pd_total_engagement : Z;
  pd_engagement_rate : R;
  pd_estimated_read_time : R;
  pd_post_age_hours : R;
  pd_text_length : nat;
  pd_title_length : nat;
  pd_has_content : bool;
  pd_embedding_text : string
}.

(** [_extract_post_data]; [now] is [time.time()].  The division of the
    two integers in [num_comments / (score + 1)] raises when the score
    is -1. *)
Definition extract_post_data (now : R) (submission : Submission)
    (fetch_method : string) : Outcome PostData :=
  let total_engagement := (sub_score submission + sub_num_comments submission)%Z in
  if (sub_score submission + 1 =? 0)%Z then Raised "ZeroDivisionError"
  else
    let engagement_rate :=
      (IZR (sub_num_comments submission) / IZR (sub_score submission + 1))%R in
    let text_length := String.length (sub_selftext submission) in
    let title_length := String.length (sub_title submission) in
    let estimated_read_time := (INR (text_length + title_length) / 200)%R in
    Returned
      {| pd_post_id := sub_id submission;
         pd_title := sub_title submission;
         pd_content := substring 0 1000 (sub_selftext submission);
         pd_subreddit := sub_subreddit submission;
         pd_author := match sub_author submission with
                      | Some a => a
                      | None => "[deleted]"
                      end;
         pd_score := sub_score submission;
         pd_upvote_ratio := sub_upvote_ratio submission;
         pd_num_comments := sub_num_comments submission;
         pd_created_utc := sub_created_utc submission;
         pd_url := sub_url submission;
         pd_permalink := ("https://reddit.com" ++ sub_permalink submission)%string;
         pd_is_video := sub_is_video submission;
         pd_is_self := sub_is_self submission;
         pd_nsfw := sub_over_18 submission;
         pd_awards := sub_all_awardings submission;
         pd_fetch_method := fetch_method;
         pd_total_engagement := total_engagement;
         pd_engagement_rate := engagement_rate;
         pd_estimated_read_time := estimated_read_time;
         pd_post_age_hours := ((now - sub_created_utc submission) / 3600)%R;
         pd_text_length := text_length;
         pd_title_length := title_length;
         pd_has_content := match sub_selftext submission with
                           | EmptyString => false
                           | _ => true
                           end;
         pd_embedding_text :=
           (sub_title submission ++ ". "
            ++ substring 0 500 (sub_selftext submission))%string |}.

(** "Remove duplicates": [{post['post_id']: post for post in all_posts}]
    and the list of its values. *)
Definition unique_posts (all_posts : list ScrapedPost) : list (string * ScrapedPost) :=
  fold_left (fun m post => dict_set m (sp_post_id post) post) all_posts [].

(** [subreddits or self.default_subreddits] *)
Definition subreddits_or_default (subreddits : option (list string)) : list string :=
  match subreddits with
  | Some (s :: l) => s :: l
  | _ => default_subreddits
  end.

(** The loop of [fetch_diverse_posts]; [fetch_posts] is the network side
    of the scraper. *)
Definition fetch_all (fetch_posts : string -> Z -> list ScrapedPost)
    (num_posts_per_subreddit : Z) (subreddits : list string) : list ScrapedPost :=
  flat_map (fun name => fetch_posts name num_posts_per_subreddit) subreddits.

Definition fetch_diverse_posts (fetch_posts : string -> Z -> list ScrapedPost)
    (num_posts_per_subreddit : Z) (subreddits : option (list string))
    : list ScrapedPost :=
  let all_posts :=
    fetch_all fetch_posts num_posts_per_subreddit
              (subreddits_or_default subreddits) in
  map snd (unique_posts all_posts).

Record SyntheticInteraction := {
  si_user_id : string;
  si_post_id : string;
  si_interaction_type : string;
  si_time_spent : R;
  si_timestamp : R
}.

Definition user_profiles : list (string * list string) :=
  [("tech_enthusiast", ["programming"; "technology"; "machinelearning"; "gadgets"]);
   ("entertainment_lover", ["funny"; "memes"; "videos"; "movies"; "gaming"]);
   ("knowledge_seeker", ["todayilearned"; "explainlikeimfive"; "askreddit"; "books"]);
   ("sports_fan", ["sports"; "nba"; "soccer"; "formula1"; "fitness"]);
   ("lifestyle_guru", ["cooking"; "food"; "travel"; "photography"; "fashion"]);
   ("finance_focused", ["personalfinance"; "wallstreetbets"; "cryptocurrency"]);
   ("creative_soul", ["art"; "diy"; "photography"; "music"]);
   ("casual_browser", [])]%string.

(** The interactions one post gives rise to; [clock] is [time.time()] as
    read while the interaction of a user with a post is built. *)
Definition synthetic_for_post (clock : string -> string -> R) (post : ScrapedPost)
    : list SyntheticInteraction :=
  (if (100 <? sp_score post)%Z then
     flat_map (fun user =>
       if existsb (String.eqb (sp_subreddit post)) (snd user)
          || (match snd user with [] => true | _ => false end
              && (1000 <? sp_score post)%Z)
       then [{| si_user_id := fst user;
                si_post_id := sp_post_id post;
                si_interaction_type := "like";
                si_time_spent := Rmin (sp_estimated_read_time post * 60 + 20) 300;
                si_timestamp :=
                  (clock (sp_post_id post) (fst user)
                   - sp_post_age_hours post * 3600 * 0.5)%R |}]
       else []) user_profiles
   else [])
  ++ (if Rltb (sp_upvote_ratio post) 0.7 && (sp_score post <? 50)%Z then
        [{| si_user_id := "casual_browser";
            si_post_id := sp_post_id post;
            si_interaction_type := "dislike";
            si_time_spent := 2;
            si_timestamp :=
              (clock (sp_post_id post) "casual_browser"
               - sp_post_age_hours post * 3600 * 0.3)%R |}]
      else []).

Definition create_synthetic_interactions (clock : string -> string -> R)
    (posts : list ScrapedPost) : list SyntheticInteraction :=
  flat_map (synthetic_for_post clock) posts.

(** ** Database setup ([scripts/setup_db.py]) *)

(** One entry of [synthetic_interactions.json]. *)
Record InteractionData := {
  id_user_id : string;
  id_post_id : string;
  id_interaction_type : string;
  id_time_spent : option R
}.

(** [load_synthetic_interactions]: the database after the call and the
    count it logs; [None] is a missing file. *)
Definition load_synthetic_interactions (file : option (list InteractionData))
    (d : DB) : DB * nat :=
  match file with
  | None => (d, 0)
  | Some interactions_data =>
      let loaded :=
        flat_map (fun int_data =>
                    match get_user d (id_user_id int_data),
                          get_post d (id_post_id int_data) with
                    | Some _, Some _ =>
                        [{| i_user_id := id_user_id int_data;
                            i_post_id := id_post_id int_data;
                            interaction_type := id_interaction_type int_data;
                            time_spent := match id_time_spent int_data with
                                          | Some t => t
                                          | None => 0%R
                                          end |}]
                    | _, _ => []
                    end)
                 (firstn 500 interactions_data) in
      ({| posts := posts d; users := users d;
          interactions := interactions d ++ loaded |}, length loaded)
  end.

(** ** Measures the statements are written in *)

(** Number of posts of a list in a given subreddit / content-type bucket. *)
Definition count_subreddit (s : string) (l : list Post) : nat :=
  length (List.filter (fun p => String.eqb (subreddit p) s) l).

Definition count_content_type (c : string) (l : list Post) : nat :=
  length (List.filter (fun p => String.eqb (content_type p) c) l).

(** [m.get(k, 0)] on a dictionary of counters. *)
Definition dict_count (m : list (string * Z)) (k : string) : Z :=
  match dict_lookup m k with
  | Some c => c
  | None => 0%Z
  end.

(** One step of a counting loop: count [i] under its key, if it has one. *)
Definition count_step (key : Interaction -> option string)
    (m : list (string * Z)) (i : Interaction) : list (string * Z) :=
  match key i with
  | Some k => dict_incr m k
  | None => m
  end.

(** The subreddit a like of an existing post counts for. *)
Definition liked_subreddit (d : DB) (i : Interaction) : option string :=
  if String.eqb (interaction_type i) "like" then
    match get_post d (i_post_id i) with
    | Some post => Some (subreddit post)
    | None => None
    end
  else None.

(** Every entry of the dictionary sits under its own post id. *)
Definition keyed_by_id (m : list (string * ScrapedPost)) : Prop :=
  forall k p, In (k, p) m -> k = sp_post_id p.

(** A JSON array column that, when it holds a non-empty array, holds one
    of the given dimension. *)
Definition has_dim (dim : nat) (o : option vec) : Prop :=
  forall v, truthy o = Some v -> length v = dim.

(** Every embedding of the catalog has the dimension of the manager. *)
Definition catalog_has_dim (dim : nat) (d : DB) : Prop :=
  Forall (fun p => has_dim dim (embedding p)) (posts d).

(** Counters a further interaction can still be added to: no counter is
    at the end of the 64-bit range, and the total is not negative. *)
Definition counters_in_range (s : UserStats) : Prop :=
  (0 <= total_interactions s < 2 ^ 63 - 1)%Z /\
  (- 2 ^ 63 <= total_likes s < 2 ^ 63 - 1)%Z /\
  (- 2 ^ 63 <= total_dislikes s < 2 ^ 63 - 1)%Z.

(** Counters that count: likes and dislikes are part of the total. *)
Definition stats_ok (s : UserStats) : Prop :=
  (0 <= total_likes s)%Z /\ (0 <= total_dislikes s)%Z /\
  (total_likes s + total_dislikes s <= total_interactions s)%Z.

(** Equality test on scores, to select the candidates of one score. *)
Definition Reqb (a b : R) : bool := if Req_dec_T a b then true else false.

(** Descending order of raw popularity. *)
Definition score_ge (p q : Post) : Prop := (score q <= score p)%Z.

(** The two counter dictionaries say what the accepted list contains. *)
Definition counts_agree (st : Selection) : Prop :=
  (forall s, default 0%Z (subreddit_count st !! s)
             = Z.of_nat (count_subreddit s (final_posts st))) /\
  (forall c, default 0%Z (content_types st !! c)
             = Z.of_nat (count_content_type c (final_posts st))).

(** What the greedy pass keeps true of the accepted list. *)
Definition within_caps (num_items : Z) (l : list Post) : Prop :=
  (forall s, (count_subreddit s l <= 2)%nat) /\
  (forall c, (Z.of_nat (count_content_type c l) <= Z.max 0 (num_items `div` 2))%Z) /\
  Forall (fun p => nsfw p = false) l.

(** ** Sample rows for the worked examples *)

Definition post_row (pid sub : string) (sc : Z) (video self unsafe : bool)
    (age : option R) (emb : option vec) : Post :=
  {| post_id := pid; title := EmptyString; content := None; subreddit := sub;
     score := sc; upvote_ratio := 0.5; num_comments := 0;
     is_video := video; is_self := self; nsfw := unsafe;
     created_utc := None; post_age_hours := age; embedding := emb |}.

Definition user_row (uid : string) (emb : option vec)
    (prefs : option (list (string * R))) (rate : R) : User :=
  {| user_id := uid; user_embedding := emb;
     preferred_subreddits := prefs; exploration_rate := rate |}.

(** One post with embedding (1, 0) and a user who has no vector yet. *)
Definition db_fresh_user : DB :=
  {| posts := [post_row "p" "r" 0 false true false None (Some [1; 0]%R)];
     users := [user_row "u" None None 0.5];
     interactions := [] |}.

(** The same post and a user whose vector is the post's. *)
Definition db_same_vector : DB :=
  {| posts := [post_row "p" "r" 0 false true false None (Some [1; 0]%R)];
     users := [user_row "u" (Some [1; 0]%R) None 0.5];
     interactions := [] |}.

(** Two posts with orthogonal unit embeddings and an empty interaction log. *)
Definition db_two_posts : DB :=
  {| posts := [post_row "p" "r" 0 false true false None (Some [1; 0]%R);
               post_row "q" "r" 0 false true false None (Some [0; 1]%R)];
     users := [];
     interactions := [] |}.

(** A deterministic environment: the vector store answers nothing, a
    random order is the table order, a sample is a prefix. *)
Definition plain_env : Env :=
  {| now := 0%R;
     similar_posts := fun _ _ => [];
     random_order := fun l => l;
     random_sample := fun l k => firstn k l |}.

(** A catalog of three posts, the first of them flagged NSFW. *)
Definition db_unsafe_catalog : DB :=
  {| posts := [post_row "x" "r" 0 false true true None None;
               post_row "a" "r1" 0 false true false None None;
               post_row "b" "r2" 0 false false false None None];
     users := [];
     interactions := [] |}.

(** A user with a row and one interaction on record. *)
Definition db_known_user : DB :=
  {| posts := [post_row "a" "r1" 5 false true false None None;
               post_row "b" "r2" 3 false true false None None];
     users := [user_row "u" None None 0.5];
     interactions := [{| i_user_id := "u"; i_post_id := "a";
                         interaction_type := "like"; time_spent := 45 |}] |}.

(** Ten safe text posts of one subreddit, raw scores 10 down to 1, and no
    user at all. *)
Definition db_one_subreddit : DB :=
  {| posts := [post_row "p0" "r" 10 false true false None None;
               post_row "p1" "r" 9 false true false None None;
               post_row "p2" "r" 8 false true false None None;
               post_row "p3" "r" 7 false true false None None;
               post_row "p4" "r" 6 false true false None None;
               post_row "p5" "r" 5 false true false None None;
               post_row "p6" "r" 4 false true false None None;
               post_row "p7" "r" 3 false true false None None;
               post_row "p8" "r" 2 false true false None None;
               post_row "p9" "r" 1 false true false None None];
     users := [];
     interactions := [] |}.

(** A manager fresh from [__init__], with nothing saved under [data/]. *)
Definition store_unbuilt : VectorStore :=
  {| embedding_dim := 2; post_index := None; post_id_map := ∅;
     index_file := None; map_file := None |}.

(** A manager fresh from [__init__] over the files an earlier build of a
    one-post catalog left under [data/]. *)
Definition store_saved : VectorStore :=
  {| embedding_dim := 2; post_index := None; post_id_map := ∅;
     index_file := Some {| index_dim := 2; index_rows := [[1; 0]%R] |};
     map_file := Some (id_map ["p"%string]) |}.

(** An encoder that maps every text to (1, 0). *)
Definition unit_encoder (texts : list string) : option (list vec) :=
  Some (map (fun _ => [1; 0]%R) texts).

(** A user whose vector (0, 1) is orthogonal to the post's (1, 0). *)
Definition db_orthogonal : DB :=
  {| posts := [post_row "p" "r" 0 false true false None (Some [1; 0]%R)];
     users := [user_row "u" (Some [0; 1]%R) None 0.5];
     interactions := [] |}.

Definition like_of (uid pid : string) (seconds : R) : Interaction :=
  {| i_user_id := uid; i_post_id := pid;
     interaction_type := "like"; time_spent := seconds |}.

(** One like, 45 seconds long, on a post with embedding (1, 0). *)
Definition db_one_like : DB :=
  {| posts := [post_row "p" "r" 0 false true false None (Some [1; 0]%R)];
     users := [user_row "u" None None 0.5];
     interactions := [like_of "u" "p" 45] |}.

(** The same like with no reading time recorded. *)
Definition db_untimed_like : DB :=
  {| posts := [post_row "p" "r" 0 false true false None (Some [1; 0]%R)];
     users := [user_row "u" None None 0.5];
     interactions := [like_of "u" "p" 0] |}.

(** The application over [db_known_user], all counters at their defaults. *)
Definition app_known_user : App :=
  {| db := db_known_user; user_stats := ∅; usernames := [("u", "user_u")] |}.


(** * Properties *)

(** ** Vector arithmetic *)

Section VectorFacts.
Local Open Scope R_scope.

Lemma dot_self_nonneg (v : vec) : 0 <= dot v v.
Proof. induction v as [|x v IH]; simpl; [lra | nra]. Qed.

Lemma dot_self_zero (v : vec) : dot v v = 0 <-> is_zero v.
Proof.
  unfold is_zero. induction v as [|x v IH]; simpl.
  - split; [constructor | reflexivity].
  - pose proof (dot_self_nonneg v) as Hv. split.
    + intros H. assert (x = 0) by nra. assert (dot v v = 0) by nra.
      constructor; [assumption | now apply IH].
    + intros H. inversion H as [|? ? Hx Hr]; subst.
      apply IH in Hr. rewrite Hr. lra.
Qed.

Lemma norm_nonneg (v : vec) : 0 <= norm v.
Proof. apply sqrt_pos. Qed.

Lemma norm_zero (v : vec) : is_zero v -> norm v = 0.
Proof. intros H. unfold norm. apply dot_self_zero in H. rewrite H. apply sqrt_0. Qed.

Lemma norm_pos (v : vec) : ~ is_zero v -> 0 < norm v.
Proof.
  intros H. unfold norm. apply sqrt_lt_R0.
  pose proof (dot_self_nonneg v) as Hv.
  destruct (Req_dec (dot v v) 0) as [E|E]; [|lra].
  exfalso. apply H. now apply dot_self_zero.
Qed.

Lemma norm_sqr (v : vec) : norm v * norm v = dot v v.
Proof. unfold norm. apply sqrt_sqrt, dot_self_nonneg. Qed.

Lemma dot_map_l (c : R) (u v : vec) :
  dot (map (fun x => c * x) u) v = c * dot u v.
Proof.
  revert v. induction u as [|x u IH]; intros [|y v]; simpl; try lra.
  rewrite IH. lra.
Qed.

Lemma dot_comm (u v : vec) : dot u v = dot v u.
Proof.
  revert v. induction u as [|x u IH]; intros [|y v]; simpl; try lra.
  rewrite (IH v). lra.
Qed.

Lemma dot_vscale (c : R) (v : vec) :
  dot (vscale c v) (vscale c v) = c * c * dot v v.
Proof.
  unfold vscale. rewrite dot_map_l, dot_comm, dot_map_l. lra.
Qed.

Lemma norm_vscale (c : R) (v : vec) : norm (vscale c v) = Rabs c * norm v.
Proof.
  unfold norm. rewrite dot_vscale.
  rewrite sqrt_mult_alt by nra.
  f_equal. replace (c * c) with (Rsqr c) by reflexivity. apply sqrt_Rsqr_abs.
Qed.

Lemma vdiv_vscale (v : vec) (d : R) :
  d <> 0 -> vdiv v d = Some (vscale (/ d) v).
Proof.
  intros Hd. unfold vdiv. destruct (Req_dec_T d 0) as [E|_]; [contradiction|].
  f_equal. unfold vscale. apply map_ext. intros x. unfold Rdiv. lra.
Qed.

Lemma vscale_vscale (a b : R) (v : vec) : vscale a (vscale b v) = vscale (a * b) v.
Proof.
  unfold vscale. rewrite map_map. apply map_ext. intros x. lra.
Qed.

Lemma vscale_1 (v : vec) : vscale 1 v = v.
Proof.
  unfold vscale. rewrite <- (map_id v) at 2. apply map_ext. intros x. lra.
Qed.

Lemma is_zero_vscale (c : R) (v : vec) : is_zero v -> is_zero (vscale c v).
Proof.
  unfold is_zero, vscale. induction 1 as [|x l Hx _ IH]; simpl; constructor.
  - subst x. lra.
  - exact IH.
Qed.

(** The guard [norm > 0] selects exactly the non-zero arrays. *)
Lemma normalize_nonzero (v : vec) :
  ~ is_zero v -> normalize v = Some (vscale (/ norm v) v).
Proof.
  intros H. pose proof (norm_pos v H) as Hn. unfold normalize.
  destruct (Rgt_dec (norm v) 0) as [_|Hc]; [|exfalso; apply Hc; lra].
  apply vdiv_vscale. lra.
Qed.

Lemma normalize_is_zero (v : vec) : is_zero v -> normalize v = Some v.
Proof.
  intros H. unfold normalize. rewrite (norm_zero v H).
  destruct (Rgt_dec 0 0) as [Hc|_]; [lra | reflexivity].
Qed.

Lemma is_zero_dec (v : vec) : is_zero v \/ ~ is_zero v.
Proof.
  destruct (Req_dec (dot v v) 0) as [E|E].
  - left. now apply dot_self_zero.
  - right. intros H. apply E. now apply dot_self_zero.
Qed.

Lemma normalize_unit (v : vec) :
  ~ is_zero v -> unit_norm (vscale (/ norm v) v).
Proof.
  intros H. pose proof (norm_pos v H) as Hn.
  unfold unit_norm. rewrite norm_vscale.
  rewrite Rabs_pos_eq by (left; now apply Rinv_0_lt_compat).
  field. lra.
Qed.

(** Whatever array reaches the normalisation step, what leaves it is a
    unit vector or the zero vector, and no division by zero occurs. *)
Lemma normalize_total (v : vec) :
  exists w, normalize v = Some w /\ (unit_norm w \/ is_zero w).
Proof.
  destruct (is_zero_dec v) as [Hz|Hnz].
  - exists v. split; [now apply normalize_is_zero | now right].
  - exists (vscale (/ norm v) v). split; [now apply normalize_nonzero|].
    left. now apply normalize_unit.
Qed.
End VectorFacts.

(** ** The preference tracker *)

Section PreferenceFacts.
Local Open Scope R_scope.

Lemma unit_norm_not_zero (v : vec) : unit_norm v -> ~ is_zero v.
Proof.
  unfold unit_norm. intros H Hz. rewrite (norm_zero v Hz) in H. lra.
Qed.

Lemma unit_norm_truthy (v : vec) : unit_norm v -> truthy (Some v) = Some v.
Proof.
  destruct v as [|x v]; [|reflexivity].
  unfold unit_norm, norm. simpl. rewrite sqrt_0. lra.
Qed.

Lemma normalize_vscale_unit (a : R) (e : vec) :
  unit_norm e -> a <> 0 ->
  normalize (vscale a e) = Some (vscale (a / Rabs a) e).
Proof.
  intros He Ha.
  assert (Hn : norm (vscale a e) = Rabs a).
  { rewrite norm_vscale, He. lra. }
  assert (Hpos : 0 < Rabs a) by now apply Rabs_pos_lt.
  rewrite normalize_nonzero.
  - rewrite Hn, vscale_vscale. do 2 f_equal. field. lra.
  - intros Hz. apply norm_zero in Hz. lra.
Qed.

Lemma vsub_zero_l (c e : vec) (k : R) :
  is_zero c -> length c = length e ->
  vsub c (vscale k e) = vscale (- k) e.
Proof.
  unfold is_zero. intros Hz. revert e.
  induction Hz as [|x c Hx _ IH]; intros [|y e] Hlen; simpl in *; try discriminate.
  - reflexivity.
  - subst x. f_equal; [lra | apply IH; lia].
Qed.

Lemma vsub_self_scaled (e : vec) (k : R) :
  vsub e (vscale k e) = vscale (1 - k) e.
Proof.
  induction e as [|x e IH]; simpl; [reflexivity|].
  f_equal; [lra | exact IH].
Qed.

Lemma vscale_neg1 (e : vec) : vscale (-1) e = map Ropp e.
Proof. unfold vscale. apply map_ext. intros x. lra. Qed.

Lemma is_zero_zeros (n : nat) : is_zero (zeros n).
Proof. unfold is_zero, zeros. induction n; simpl; constructor; auto. Qed.

Lemma length_zeros (n : nat) : length (zeros n) = n.
Proof. apply repeat_length. Qed.

Lemma get_user_put (d : DB) (uid : string) (u : User) (v : vec) :
  get_user d uid = Some u ->
  get_user (put_embedding d uid v) uid = Some (with_embedding u v).
Proof.
  unfold get_user, put_embedding. simpl.
  induction (users d) as [|u0 us IH]; simpl; [discriminate|].
  destruct (String.eqb (user_id u0) uid) eqn:E; simpl.
  - intros [= ->]. now rewrite E.
  - rewrite E. exact IH.
Qed.

Lemma get_post_put (d : DB) (uid pid : string) (v : vec) :
  get_post (put_embedding d uid v) pid = get_post d pid.
Proof. reflexivity. Qed.

Lemma vdiv_Some (v : vec) (c : R) : c <> 0 -> exists w, vdiv v c = Some w.
Proof. intros H. rewrite vdiv_vscale by exact H. eauto. Qed.

Lemma length_vscale (c : R) (v : vec) : length (vscale c v) = length v.
Proof. unfold vscale. now rewrite length_map. Qed.

Lemma length_vadd (u v : vec) : length u = length v -> length (vadd u v) = length u.
Proof.
  revert v. induction u as [|x u IH]; intros [|y v] H; simpl in *; try discriminate.
  - reflexivity.
  - f_equal. apply IH. lia.
Qed.

Lemma length_vsub (u v : vec) : length u = length v -> length (vsub u v) = length u.
Proof.
  revert v. induction u as [|x u IH]; intros [|y v] H; simpl in *; try discriminate.
  - reflexivity.
  - f_equal. apply IH. lia.
Qed.

Lemma np_add_same (u v : vec) : length u = length v -> np_add u v = Some (vadd u v).
Proof. intros H. unfold np_add. apply Nat.eqb_eq in H. now rewrite H. Qed.

Lemma np_sub_same (u v : vec) : length u = length v -> np_sub u v = Some (vsub u v).
Proof. intros H. unfold np_sub. apply Nat.eqb_eq in H. now rewrite H. Qed.

Lemma np_iadd_same (u v : vec) : length u = length v -> np_iadd u v = Some (vadd u v).
Proof. intros H. unfold np_iadd. apply Nat.eqb_eq in H. now rewrite H. Qed.

Lemma np_isub_same (u v : vec) : length u = length v -> np_isub u v = Some (vsub u v).
Proof. intros H. unfold np_isub. apply Nat.eqb_eq in H. now rewrite H. Qed.

Lemma normalize_length (v w : vec) : normalize v = Some w -> length w = length v.
Proof.
  unfold normalize, vdiv. destruct (Rgt_dec (norm v) 0).
  - destruct (Req_dec_T (norm v) 0); [discriminate|].
    intros [= <-]. now rewrite length_map.
  - now intros [= <-].
Qed.

Lemma same_shape_cons (v : vec) (vs : list vec) :
  same_shape (v :: vs) = true <-> Forall (fun w => length w = length v) vs.
Proof.
  simpl. rewrite forallb_forall, List.Forall_forall.
  split; intros H w Hw; specialize (H w Hw); now apply Nat.eqb_eq.
Qed.

Lemma length_fold_vadd (vs : list vec) (v : vec) :
  Forall (fun w => length w = length v) vs ->
  length (fold_left vadd vs v) = length v.
Proof.
  revert v. induction vs as [|w vs IH]; intros v H; simpl; [reflexivity|].
  inversion H as [|? ? Hw Hvs]; subst.
  assert (Hl : length (vadd v w) = length v) by (apply length_vadd; congruence).
  rewrite IH; [exact Hl|].
  rewrite Hl. exact Hvs.
Qed.

(** The mean of rows of one shape exists and has that shape. *)
Lemma vmean_cons (v : vec) (vs : list vec) :
  same_shape (v :: vs) = true ->
  exists m, vmean (v :: vs) = Some m /\ length m = length v.
Proof.
  intros Hs. unfold vmean. rewrite Hs.
  assert (Hn : INR (length (v :: vs)) <> 0) by (apply not_0_INR; simpl; lia).
  rewrite vdiv_vscale by exact Hn.
  eexists; split; [reflexivity|].
  rewrite length_vscale. simpl. apply length_fold_vadd.
  now apply same_shape_cons.
Qed.

Lemma vmean_Some (vs : list vec) (m : vec) :
  vmean vs = Some m -> same_shape vs = true.
Proof. unfold vmean. now destruct (same_shape vs). Qed.

Lemma same_shape_of_dim (dim : nat) (vs : list vec) :
  Forall (fun w => length w = dim) vs -> same_shape vs = true.
Proof.
  destruct vs as [|v vs]; [reflexivity|]. intros H.
  inversion H as [|? ? Hv Hvs]; subst.
  apply same_shape_cons. revert Hvs. apply List.Forall_impl. congruence.
Qed.

Lemma get_post_In (d : DB) (pid : string) (p : Post) :
  get_post d pid = Some p -> In p (posts d).
Proof. unfold get_post. intros H. now apply find_some in H as [H _]. Qed.

Lemma has_dim_In (dim : nat) (d : DB) (p : Post) (e : vec) :
  catalog_has_dim dim d -> In p (posts d) -> truthy (embedding p) = Some e ->
  length e = dim.
Proof.
  unfold catalog_has_dim. rewrite List.Forall_forall. intros H Hin He.
  exact (H p Hin e He).
Qed.

Lemma interaction_embeddings_dim (dim : nat) (d : DB)
    (f : Interaction -> vec -> vec) (l : list Interaction) :
  catalog_has_dim dim d ->
  (forall i e, length (f i e) = length e) ->
  Forall (fun w => length w = dim) (interaction_embeddings d f l).
Proof.
  intros Hd Hf. induction l as [|i l IH]; simpl; [constructor|].
  destruct (get_post d (i_post_id i)) as [p|] eqn:Hp; [|exact IH].
  destruct (truthy (embedding p)) as [e|] eqn:He; [|exact IH].
  constructor; [|exact IH].
  rewrite Hf. eapply has_dim_In; eauto using get_post_In.
Qed.

Lemma raw_user_embedding_total (dim : nat) (liked disliked : list vec) :
  Forall (fun w => length w = dim) liked ->
  Forall (fun w => length w = dim) disliked ->
  exists raw, raw_user_embedding dim liked disliked = Some raw.
Proof.
  intros Hl Hd. unfold raw_user_embedding.
  assert (H1 : exists u1, match liked with
                          | [] => Some (zeros dim)
                          | _ => m ← vmean liked; np_iadd (zeros dim) m
                          end = Some u1 /\ length u1 = dim).
  { destruct liked as [|x liked].
    - exists (zeros dim). split; [reflexivity | apply repeat_length].
    - destruct (vmean_cons x liked (same_shape_of_dim dim _ Hl)) as (m & -> & Hm).
      inversion Hl as [|? ? Hx _]; subst. simpl.
      assert (Hz : length (zeros (length x)) = length m)
        by (unfold zeros; rewrite repeat_length; congruence).
      rewrite np_iadd_same by exact Hz.
      eexists; split; [reflexivity|].
      rewrite length_vadd by exact Hz. apply repeat_length. }
  destruct H1 as (u1 & -> & Hu1). simpl.
  destruct disliked as [|x disliked]; [eauto|].
  destruct (vmean_cons x disliked (same_shape_of_dim dim _ Hd)) as (m & -> & Hm).
  inversion Hd as [|? ? Hx _]; subst. simpl.
  rewrite np_isub_same by (rewrite length_vscale; congruence).
  eauto.
Qed.

(** Whenever the online path returns, either the user, the post or the
    post's embedding was missing and nothing was written, or it has
    written a unit vector or the zero vector. *)
Lemma online_update_normalised (dim : nat) (d d' : DB)
    (uid pid ty : string) (lr : R) :
  update_user_embedding_online dim d uid pid ty lr = Some d' ->
  ((get_user d uid = None \/ get_post d pid = None \/
    exists post, get_post d pid = Some post /\ truthy (embedding post) = None) /\
   d' = d) \/
  exists u post e v,
    get_user d uid = Some u /\
    get_post d pid = Some post /\ truthy (embedding post) = Some e /\
    d' = put_embedding d uid v /\
    get_user d' uid = Some (with_embedding u v) /\
    (unit_norm v \/ is_zero v).
Proof.
  unfold update_user_embedding_online.
  destruct (get_user d uid) as [u|] eqn:Hu; [|intros [= <-]; left; auto].
  destruct (get_post d pid) as [p|] eqn:Hp; [|intros [= <-]; left; auto].
  destruct (truthy (embedding p)) as [e|] eqn:He;
    [|intros [= <-]; left; split; [right; right; eauto | reflexivity]].
  destruct (online_step _ _ _ _) as [moved|]; [|discriminate]. simpl.
  destruct (normalize_total moved) as (w & -> & Hw). simpl.
  intros [= <-]. right.
  exists u, p, e, w. repeat split; auto using get_user_put.
Qed.

(** The online path returns when the two vectors it combines have the
    dimension of the manager. *)
Lemma online_update_total (dim : nat) (d : DB) (uid pid ty : string) (lr : R) :
  (forall user, get_user d uid = Some user -> has_dim dim (user_embedding user)) ->
  (forall post, get_post d pid = Some post -> has_dim dim (embedding post)) ->
  exists d', update_user_embedding_online dim d uid pid ty lr = Some d'.
Proof.
  intros Hu Hp. unfold update_user_embedding_online.
  destruct (get_user d uid) as [u|] eqn:Eu; [|eauto].
  destruct (get_post d pid) as [p|] eqn:Ep; [|eauto].
  destruct (truthy (embedding p)) as [e|] eqn:Ee; [|eauto].
  assert (He : length e = dim) by exact (Hp p eq_refl e Ee).
  set (cur := match truthy (user_embedding u) with
              | Some v => v
              | None => zeros dim
              end).
  assert (Hc : length cur = length e).
  { subst cur. destruct (truthy (user_embedding u)) as [v|] eqn:Ev.
    - rewrite (Hu u eq_refl v Ev). congruence.
    - unfold zeros. rewrite repeat_length. congruence. }
  assert (Hs : exists moved, online_step ty lr cur e = Some moved).
  { unfold online_step.
    destruct (String.eqb ty "like").
    - rewrite np_add_same by (now rewrite !length_vscale). eauto.
    - destruct (String.eqb ty "dislike"); [|eauto].
      rewrite np_sub_same by (now rewrite length_vscale). eauto. }
  destruct Hs as (moved & ->). simpl.
  destruct (normalize_total moved) as (w & -> & _). simpl. eauto.
Qed.

(** Whenever the batch path over at least one like returns, it returns a
    unit vector or the zero vector, which it also stores when the user
    has a row. *)
Lemma batch_recompute_normalised (dim : nat) (d d' : DB) (uid : string) (v : vec) :
  interactions_of d uid "like" <> [] ->
  generate_user_embedding dim d uid = Some (v, d') ->
  (unit_norm v \/ is_zero v) /\
  (forall u, get_user d uid = Some u ->
             get_user d' uid = Some (with_embedding u v)) /\
  (get_user d uid = None -> d' = d).
Proof.
  intros Hl. unfold generate_user_embedding.
  destruct (interactions_of d uid "like") as [|i l] eqn:E; [congruence|].
  destruct (raw_user_embedding _ _ _) as [raw|]; [|discriminate]. simpl.
  destruct (normalize_total raw) as (w & -> & Hw). simpl.
  destruct (get_user d uid) as [u|] eqn:Hu; intros [= <- <-].
  - repeat split; auto.
    + intros u0 [= <-]. now apply get_user_put.
    + discriminate.
  - repeat split; auto. discriminate.
Qed.

(** The batch path returns when the catalog's embeddings have the
    dimension of the manager. *)
Lemma batch_recompute_total (dim : nat) (d : DB) (uid : string) :
  catalog_has_dim dim d ->
  interactions_of d uid "like" <> [] ->
  exists v d', generate_user_embedding dim d uid = Some (v, d').
Proof.
  intros Hd Hl. unfold generate_user_embedding.
  destruct (interactions_of d uid "like") as [|i l] eqn:E; [congruence|].
  match goal with |- context [raw_user_embedding ?a ?b ?c] =>
    destruct (raw_user_embedding_total a b c) as (raw & ->) end.
  - apply interaction_embeddings_dim; [exact Hd|].
    intros. apply length_vscale.
  - now apply interaction_embeddings_dim.
  - simpl. destruct (normalize_total raw) as (w & -> & _). simpl.
    destruct (get_user d uid); eauto.
Qed.

(** Whenever the no-likes fallback returns, it has stored nothing and has
    answered the zero vector, if none of the sampled posts carries an
    embedding, and the mean of the sampled embeddings otherwise. *)
Lemma batch_fallback (dim : nat) (d d' : DB) (uid : string) (v : vec) :
  interactions_of d uid "like" = [] ->
  generate_user_embedding dim d uid = Some (v, d') ->
  d' = d /\
  (omap (fun p => truthy (embedding p)) (firstn 100 (posts d)) = [] ->
   v = zeros dim) /\
  (omap (fun p => truthy (embedding p)) (firstn 100 (posts d)) <> [] ->
   vmean (omap (fun p => truthy (embedding p)) (firstn 100 (posts d))) = Some v).
Proof.
  intros Hl. unfold generate_user_embedding. rewrite Hl.
  destruct (omap _ _) as [|e es] eqn:E.
  - intros [= <- <-]. split; [reflexivity|]. split; [reflexivity | congruence].
  - destruct (vmean (e :: es)) as [m|]; [|discriminate]. simpl.
    intros [= <- <-]. split; [reflexivity|]. split; [discriminate | reflexivity].
Qed.

(** The fallback returns when the sampled embeddings have one shape. *)
Lemma batch_fallback_total (dim : nat) (d : DB) (uid : string) :
  interactions_of d uid "like" = [] ->
  same_shape (omap (fun p => truthy (embedding p)) (firstn 100 (posts d))) = true ->
  exists v, generate_user_embedding dim d uid = Some (v, d).
Proof.
  intros Hl Hs. unfold generate_user_embedding. rewrite Hl.
  destruct (omap _ _) as [|e es] eqn:E; [eauto|].
  destruct (vmean_cons e es Hs) as (m & -> & _). simpl. eauto.
Qed.
End PreferenceFacts.

(** ** Sorting *)

Section SortFacts.
Context {A : Type} (lt : A -> A -> bool).

Lemma insert_desc_perm (x : A) (l : list A) :
  Permutation (insert_desc lt x l) (x :: l).
Proof.
  induction l as [|y l IH]; simpl; [reflexivity|].
  destruct (lt x y); [|reflexivity].
  rewrite IH. apply perm_swap.
Qed.

Lemma sort_desc_perm (l : list A) : Permutation (sort_desc lt l) l.
Proof.
  induction l as [|x l IH]; simpl; [reflexivity|].
  rewrite insert_desc_perm. now apply perm_skip.
Qed.

Lemma sort_desc_In (x : A) (l : list A) : In x (sort_desc lt l) <-> In x l.
Proof.
  split; apply Permutation_in; [|symmetry]; apply sort_desc_perm.
Qed.

Lemma sort_desc_length (l : list A) : length (sort_desc lt l) = length l.
Proof. apply Permutation_length, sort_desc_perm. Qed.
End SortFacts.

Lemma In_firstn {B : Type} (n : nat) (l : list B) (x : B) :
  In x (firstn n l) -> In x l.
Proof.
  revert l. induction n as [|n IH]; intros [|y l]; simpl; try contradiction.
  intros [H|H]; [now left | right; now apply IH].
Qed.

Lemma insert_by_score_sorted (x : Post) (l : list Post) :
  StronglySorted score_ge l ->
  StronglySorted score_ge (insert_desc (fun p q => (score p <? score q)%Z) x l).
Proof.
  induction 1 as [|y l Hs IH Hall]; simpl.
  - repeat constructor.
  - destruct (Z.ltb_spec (score x) (score y)) as [Hlt|Hge].
    + constructor; [exact IH|].
      rewrite List.Forall_forall in *. intros z Hz.
      apply (Permutation_in _ (insert_desc_perm _ x l)) in Hz.
      destruct Hz as [<-|Hz]; [unfold score_ge; lia | now apply Hall].
    + constructor; [now constructor|].
      constructor; [exact Hge|].
      rewrite List.Forall_forall in *. intros z Hz.
      specialize (Hall z Hz). unfold score_ge in *. lia.
Qed.

Lemma order_by_score_desc_sorted (l : list Post) :
  StronglySorted score_ge (order_by_score_desc l).
Proof.
  unfold order_by_score_desc. induction l as [|x l IH]; simpl.
  - constructor.
  - now apply insert_by_score_sorted.
Qed.

Lemma StronglySorted_app_le {B : Type} (R : B -> B -> Prop) (a b : list B) :
  StronglySorted R (a ++ b) -> forall x y, In x a -> In y b -> R x y.
Proof.
  induction a as [|z a IH]; simpl; intros Hs x y Hx Hy; [contradiction|].
  inversion Hs as [|? ? Hs' Hall]; subst.
  destruct Hx as [<-|Hx].
  - rewrite List.Forall_forall in Hall. apply Hall, in_or_app. now right.
  - now apply IH.
Qed.

Lemma StronglySorted_app_l {B : Type} (R : B -> B -> Prop) (a b : list B) :
  StronglySorted R (a ++ b) -> StronglySorted R a.
Proof.
  induction a as [|z a IH]; simpl; intros Hs; [constructor|].
  inversion Hs as [|? ? Hs' Hall]; subst.
  constructor; [now apply IH|].
  rewrite List.Forall_forall in *. intros x Hx. apply Hall, in_or_app. now left.
Qed.

(** ** The greedy pass *)

Section GreedyFacts.
Local Open Scope Z_scope.

Lemma count_filter_snoc (f : Post -> bool) (l : list Post) (p : Post) :
  length (List.filter f (l ++ [p]))
  = (length (List.filter f l) + (if f p then 1 else 0))%nat.
Proof.
  rewrite List.filter_app, length_app. simpl. now destruct (f p).
Qed.

Lemma counts_agree_start : counts_agree selection_start.
Proof.
  split; intros k; simpl; [now rewrite lookup_empty|].
  unfold count_content_type. simpl.
  destruct (decide ("text"%string = k)) as [<-|H1]; [now rewrite lookup_insert_eq|].
  rewrite lookup_insert_ne by exact H1.
  destruct (decide ("link"%string = k)) as [<-|H2]; [now rewrite lookup_insert_eq|].
  rewrite lookup_insert_ne by exact H2.
  destruct (decide ("video"%string = k)) as [<-|H3]; [now rewrite lookup_singleton_eq|].
  now rewrite lookup_singleton_ne.
Qed.

Lemma counts_agree_accept (st : Selection) (post : Post) :
  counts_agree st -> counts_agree (accept st post).
Proof.
  intros [Hs Hc]. split; intros k; simpl.
  - unfold count_subreddit. rewrite count_filter_snoc.
    destruct (String.eqb_spec (subreddit post) k) as [<-|Hne].
    + rewrite lookup_insert_eq. simpl. rewrite Hs. unfold count_subreddit. lia.
    + rewrite lookup_insert_ne by exact Hne. rewrite Hs. unfold count_subreddit. lia.
  - unfold count_content_type. rewrite count_filter_snoc.
    destruct (String.eqb_spec (content_type post) k) as [<-|Hne].
    + rewrite lookup_insert_eq. simpl. rewrite Hc. unfold count_content_type. lia.
    + rewrite lookup_insert_ne by exact Hne. rewrite Hc. unfold count_content_type. lia.
Qed.

(** Under [counts_agree], each verdict reads off the accepted list. *)
Lemma judge_spec (num_items : Z) (st : Selection) (post : Post) :
  counts_agree st ->
  match judge num_items st post with
  | SkipSubreddit =>
      2 <= Z.of_nat (count_subreddit (subreddit post) (final_posts st))
  | SkipContentType =>
      Z.of_nat (count_subreddit (subreddit post) (final_posts st)) < 2 /\
      num_items `div` 2
        <= Z.of_nat (count_content_type (content_type post) (final_posts st))
  | SkipNsfw =>
      Z.of_nat (count_subreddit (subreddit post) (final_posts st)) < 2 /\
      Z.of_nat (count_content_type (content_type post) (final_posts st))
        < num_items `div` 2 /\
      nsfw post = true
  | Accept =>
      Z.of_nat (count_subreddit (subreddit post) (final_posts st)) < 2 /\
      Z.of_nat (count_content_type (content_type post) (final_posts st))
        < num_items `div` 2 /\
      nsfw post = false
  end.
Proof.
  intros [Hs Hc]. unfold judge. rewrite Hs, Hc.
  repeat case_bool_decide; try lia.
  destruct (nsfw post); repeat split; (lia || reflexivity).
Qed.

Lemma within_caps_accept (num_items : Z) (st : Selection) (post : Post) :
  counts_agree st ->
  within_caps num_items (final_posts st) ->
  judge num_items st post = Accept ->
  within_caps num_items (final_posts (accept st post)).
Proof.
  intros Hagree (Hs & Hc & Hn) Hj.
  pose proof (judge_spec num_items st post Hagree) as Hspec.
  rewrite Hj in Hspec. destruct Hspec as (H1 & H2 & H3).
  simpl. repeat split.
  - intros s. unfold count_subreddit. rewrite count_filter_snoc.
    specialize (Hs s). unfold count_subreddit in *.
    destruct (String.eqb_spec (subreddit post) s) as [<-|_]; lia.
  - intros c. unfold count_content_type. rewrite count_filter_snoc.
    specialize (Hc c). unfold count_content_type in *.
    destruct (String.eqb_spec (content_type post) c) as [<-|_]; lia.
  - apply Forall_app; split; [exact Hn | now repeat constructor].
Qed.

Lemma greedy_loop_invariant (num_items : Z) (scored : list (Post * R)) (st : Selection) :
  counts_agree st ->
  within_caps num_items (final_posts st) ->
  counts_agree (greedy_loop num_items scored st) /\
  within_caps num_items (final_posts (greedy_loop num_items scored st)).
Proof.
  revert st. induction scored as [|[post sc] rest IH]; intros st Ha Hw; simpl.
  - now split.
  - destruct (judge num_items st post) eqn:Hj; try now apply IH.
    assert (Ha' := counts_agree_accept st post Ha).
    assert (Hw' := within_caps_accept num_items st post Ha Hw Hj).
    case_bool_decide; [now split | now apply IH].
Qed.

Lemma within_caps_nil (num_items : Z) : within_caps num_items [].
Proof.
  unfold within_caps, count_subreddit, count_content_type. simpl.
  split; [intros; lia|]. split; [intros; lia | constructor].
Qed.

Lemma greedy_pass_within_caps (num_items : Z) (scored : list (Post * R)) :
  within_caps num_items (greedy_pass num_items scored).
Proof.
  unfold greedy_pass.
  apply greedy_loop_invariant; [apply counts_agree_start | apply within_caps_nil].
Qed.

Lemma greedy_loop_counts_agree (num_items : Z) (scored : list (Post * R)) :
  counts_agree (greedy_loop num_items scored selection_start).
Proof.
  apply greedy_loop_invariant; [apply counts_agree_start | apply within_caps_nil].
Qed.

Lemma greedy_loop_In (num_items : Z) (scored : list (Post * R)) (st : Selection)
    (p : Post) :
  In p (final_posts (greedy_loop num_items scored st)) ->
  In p (final_posts st) \/ In p (map fst scored).
Proof.
  revert st. induction scored as [|[post sc] rest IH]; intros st; simpl; [auto|].
  assert (Hskip : In p (final_posts (greedy_loop num_items rest st)) ->
                  In p (final_posts st) \/ (post = p \/ In p (map fst rest))).
  { intros H. destruct (IH _ H); auto. }
  destruct (judge num_items st post); try exact Hskip.
  assert (Hacc : In p (final_posts (accept st post)) ->
                 In p (final_posts st) \/ (post = p \/ In p (map fst rest))).
  { simpl. intros H. apply in_app_or in H as [H|[H|[]]]; auto. }
  case_bool_decide as Hfull; [exact Hacc|].
  intros Hin. destruct (IH _ Hin) as [H'|H']; auto.
Qed.

Lemma greedy_pass_In (num_items : Z) (scored : list (Post * R)) (p : Post) :
  In p (greedy_pass num_items scored) -> In p (map fst scored).
Proof.
  unfold greedy_pass. intros H. apply greedy_loop_In in H as [[]|H]. exact H.
Qed.

Lemma greedy_loop_length (num_items : Z) (scored : list (Post * R)) (st : Selection) :
  counts_agree st ->
  Z.of_nat (length (final_posts st)) < num_items \/ final_posts st = [] ->
  Z.of_nat (length (final_posts (greedy_loop num_items scored st)))
    <= Z.max 0 num_items.
Proof.
  revert st. induction scored as [|[post sc] rest IH]; intros st Ha Hlen; simpl.
  - destruct Hlen as [H | ->]; simpl; lia.
  - pose proof (judge_spec num_items st post Ha) as Hspec.
    destruct (judge num_items st post); try now apply IH.
    destruct Hspec as (_ & Hc & _).
    assert (Hn : 2 <= num_items) by (Z.div_mod_to_equations; lia).
    assert (Hle : Z.of_nat (length (final_posts st)) < num_items).
    { destruct Hlen as [H | ->]; simpl; lia. }
    assert (Hl' : length (final_posts st ++ [post])
                  = S (length (final_posts st))).
    { rewrite length_app. simpl. lia. }
    rewrite Hl'. case_bool_decide as Hb.
    + simpl. rewrite Hl'. lia.
    + apply IH; [now apply counts_agree_accept | left; simpl; rewrite Hl'; lia].
Qed.

Lemma greedy_pass_length (num_items : Z) (scored : list (Post * R)) :
  Z.of_nat (length (greedy_pass num_items scored)) <= Z.max 0 num_items.
Proof.
  unfold greedy_pass. apply greedy_loop_length; [apply counts_agree_start | now right].
Qed.

Lemma count_subreddit_all (s : string) (l : list Post) :
  Forall (fun p => subreddit p = s) l -> count_subreddit s l = length l.
Proof.
  unfold count_subreddit. induction 1 as [|p l Hp _ IH]; simpl; [reflexivity|].
  rewrite Hp, String.eqb_refl. simpl. now rewrite IH.
Qed.
End GreedyFacts.

(** ** Exploration substitution *)

Section SubstituteFacts.

Lemma substitute_length (pairs : list (nat * Post)) (final : list Post) :
  length (substitute final pairs) = length final.
Proof.
  revert final. induction pairs as [|[idx x] rest IH]; intros final; simpl; [reflexivity|].
  case_bool_decide; rewrite IH; [apply length_insert | reflexivity].
Qed.

Lemma substitute_lookup (pairs : list (nat * Post)) (final : list Post)
    (i : nat) (p : Post) :
  substitute final pairs !! i = Some p ->
  final !! i = Some p \/ In p (map snd pairs).
Proof.
  revert final. induction pairs as [|[idx x] rest IH]; intros final; simpl; [auto|].
  case_bool_decide as Hlt; intros H; apply IH in H; destruct H as [H|H]; auto.
  destruct (decide (idx = i)) as [->|Hne].
  - rewrite list_lookup_insert_eq in H by exact Hlt. injection H as <-. auto.
  - rewrite list_lookup_insert_ne in H by exact Hne. auto.
Qed.

Lemma substitute_untouched (pairs : list (nat * Post)) (final : list Post)
    (m i : nat) :
  Forall (fun idx => m <= idx) (map fst pairs) ->
  i < m ->
  substitute final pairs !! i = final !! i.
Proof.
  revert final. induction pairs as [|[idx x] rest IH]; intros final Hall Hi; simpl; [reflexivity|].
  simpl in Hall. inversion Hall as [|? ? Hidx Hrest]; subst.
  case_bool_decide; rewrite IH by assumption; [|reflexivity].
  apply list_lookup_insert_ne. lia.
Qed.

(** The exploration step keeps the length, writes only catalog posts and
    writes only into the tail segment. *)
Lemma exploration_shape (e : Env) (d : DB) (scored_posts : list (Post * R))
    (uid : string) (num_items : Z) :
  env_ok e ->
  let accepted := greedy_pass num_items scored_posts in
  let out := apply_business_rules e d scored_posts uid num_items in
  length out = length accepted /\
  (forall i p, out !! i = Some p -> accepted !! i = Some p \/ In p (posts d)) /\
  (forall i,
     i < length accepted - Z.to_nat (num_exploration_of d uid num_items) ->
     out !! i = accepted !! i).
Proof.
  intros [Horder Hsample] accepted out.
  subst out. unfold apply_business_rules. fold accepted.
  set (n := Z.to_nat (num_exploration_of d uid num_items)).
  destruct (bool_decide (0 < num_exploration_of d uid num_items)%Z
            && bool_decide (num_exploration_of d uid num_items
                            < Z.of_nat (length accepted))%Z); [|auto].
  split; [apply substitute_length|]. split.
  - intros i p H. apply substitute_lookup in H as [H|H]; [now left|right].
    apply in_map_iff in H as ([idx q] & <- & Hin). simpl.
    apply in_combine_r in Hin. apply In_firstn in Hin.
    eapply Permutation_in; [apply Horder | exact Hin].
  - intros i Hi. apply (substitute_untouched _ _ (length accepted - n)); [|exact Hi].
    apply List.Forall_forall. intros idx Hidx.
    apply in_map_iff in Hidx as ([idx' q] & <- & Hin). simpl.
    apply in_combine_l in Hin.
    destruct (Hsample (seq (length accepted - n) n) n) as (l' & Hperm & Heq).
    rewrite Heq in Hin. apply In_firstn in Hin.
    apply (Permutation_in _ Hperm) in Hin. apply in_seq in Hin. lia.
Qed.

Lemma py_int_nat_half (n : Z) : py_int (IZR (2 * n) * 0.5) = n.
Proof.
  assert (E : (IZR (2 * n) * 0.5 = IZR n)%R) by (rewrite mult_IZR; lra).
  rewrite E. unfold py_int.
  destruct (Rle_dec 0 (IZR n)) as [Hle|Hlt].
  - symmetry. apply Int_part_spec. lra.
  - rewrite <- opp_IZR.
    replace (Int_part (IZR (- n))) with (- n)%Z; [lia|].
    apply Int_part_spec. lra.
Qed.

Lemma plain_env_ok : env_ok plain_env.
Proof.
  split; simpl; [reflexivity|]. intros l k. exists l. split; reflexivity.
Qed.
End SubstituteFacts.

(** ** The candidate generator *)

Section CandidateFacts.

Lemma NoDup_firstn {B : Type} (n : nat) (l : list B) :
  List.NoDup l -> List.NoDup (firstn n l).
Proof.
  revert l. induction n as [|n IH]; intros [|x l] H; simpl; try constructor.
  - inversion H as [|? ? Hx Hl]; subst. intros Hin. apply Hx.
    now apply In_firstn in Hin.
  - inversion H; subst. now apply IH.
Qed.

Lemma unique_candidates_In (l : list Post) (seen : gset string) (p : Post) :
  In p (unique_candidates seen l) -> In p l /\ post_id p ∉ seen.
Proof.
  revert seen. induction l as [|q l IH]; intros seen; simpl; [contradiction|].
  case_bool_decide as Hq.
  - intros H. destruct (IH _ H) as [H1 H2]. auto.
  - intros [<-|H]; [auto|].
    destruct (IH _ H) as [H1 H2]. split; [auto|].
    intros Hin. apply H2, elem_of_union. now right.
Qed.

Lemma unique_candidates_NoDup (l : list Post) (seen : gset string) :
  List.NoDup (map post_id (unique_candidates seen l)).
Proof.
  revert seen. induction l as [|q l IH]; intros seen; simpl; [constructor|].
  case_bool_decide as Hq; [apply IH|].
  simpl. constructor; [|apply IH].
  intros Hin. apply in_map_iff in Hin as (p & Hid & Hp).
  apply unique_candidates_In in Hp as [_ Hp]. rewrite Hid in Hp. set_solver.
Qed.

Lemma seen_post_ids_spec (d : DB) (uid pid : string) :
  pid ∈ seen_post_ids d uid <->
  exists i, In i (interactions d) /\ i_user_id i = uid /\ i_post_id i = pid.
Proof.
  unfold seen_post_ids. rewrite elem_of_list_to_set, list_elem_of_In, in_map_iff.
  split.
  - intros (i & Hid & Hi). apply filter_In in Hi as [Hi Hu].
    apply String.eqb_eq in Hu. eauto.
  - intros (i & Hi & Hu & Hid). exists i. split; [exact Hid|].
    apply filter_In. split; [exact Hi | now apply String.eqb_eq].
Qed.

Lemma unseen_spec (seen : gset string) (p : Post) :
  unseen seen p = true <-> post_id p ∉ seen.
Proof.
  unfold unseen. case_bool_decide; simpl; split; intros; congruence || tauto.
Qed.

Lemma similarity_candidates_unseen (d : DB) (seen : gset string)
    (similar : list (string * R)) (p : Post) :
  In p (similarity_candidates d seen similar) -> post_id p ∉ seen.
Proof.
  induction similar as [|[pid sc] rest IH]; simpl; [contradiction|].
  case_bool_decide as Hseen; [exact IH|].
  destruct (get_post d pid) as [post|] eqn:Hpost; [|exact IH].
  intros [<-|H]; [|now apply IH].
  unfold get_post in Hpost. apply find_some in Hpost as [_ Heq].
  apply String.eqb_eq in Heq. now rewrite Heq.
Qed.

Lemma trending_candidates_unseen (e : Env) (d : DB) (seen : gset string)
    (limit : Z) (p : Post) :
  In p (trending_candidates e d seen limit) -> post_id p ∉ seen.
Proof.
  unfold trending_candidates. intros H.
  apply In_firstn in H. apply sort_desc_In in H.
  apply filter_In in H as [_ H]. apply andb_true_iff in H as [_ H].
  now apply unseen_spec.
Qed.

Lemma subreddit_candidates_unseen (d : DB) (seen : gset string)
    (prefs : option (list (string * R))) (p : Post) :
  In p (subreddit_candidates d seen prefs) -> post_id p ∉ seen.
Proof.
  unfold subreddit_candidates.
  destruct prefs as [[|kv items]|]; try contradiction.
  rewrite in_flat_map. intros (sw & _ & H).
  apply In_firstn in H. unfold order_by_score_desc in H. apply sort_desc_In in H.
  apply in_rev in H.
  apply filter_In in H as [_ H]. apply andb_true_iff in H as [_ H].
  now apply unseen_spec.
Qed.

Lemma exploration_candidates_unseen (e : Env) (d : DB) (seen : gset string)
    (limit : Z) (p : Post) :
  env_ok e ->
  In p (exploration_candidates e d seen limit) -> post_id p ∉ seen.
Proof.
  intros [Horder _]. unfold exploration_candidates. intros H.
  apply In_firstn in H. apply (Permutation_in _ (Horder _)) in H.
  apply filter_In in H as [_ H]. now apply unseen_spec.
Qed.

Lemma filter_firstn_prefix {B : Type} (f : B -> bool) (n : nat) (l : list B) :
  exists k, List.filter f (firstn n l) = firstn k (List.filter f l).
Proof.
  revert l. induction n as [|n IH]; intros [|x l]; simpl; try (exists 0; reflexivity).
  destruct (IH l) as [k Hk]. destruct (f x).
  - exists (S k). simpl. now rewrite Hk.
  - exists k. exact Hk.
Qed.

(** Sorting by score is stable: the posts of any one score keep their
    table order. *)
Lemma order_by_score_desc_stable (z : Z) (l : list Post) :
  List.filter (fun p => (score p =? z)%Z) (order_by_score_desc l)
  = List.filter (fun p => (score p =? z)%Z) l.
Proof.
  unfold order_by_score_desc. induction l as [|x l IH]; simpl; [reflexivity|].
  rewrite <- IH. clear IH.
  generalize (sort_desc (fun p q => (score p <? score q)%Z) l) as s.
  intros s. induction s as [|y s IH]; simpl; [reflexivity|].
  destruct (Z.ltb_spec (score x) (score y)) as [Hlt|Hge]; simpl; [|reflexivity].
  rewrite IH.
  destruct (Z.eqb_spec (score x) z) as [Hx|Hx];
    destruct (Z.eqb_spec (score y) z) as [Hy|Hy]; try reflexivity.
  lia.
Qed.

(** The popularity fallback: the first [n] posts by descending score. *)
Lemma popularity_fallback_top (n : nat) (l : list Post) :
  let pool := firstn n (order_by_score_desc l) in
  length pool = Nat.min n (length l) /\
  StronglySorted score_ge pool /\
  exists rest, Permutation (pool ++ rest) l /\
    forall p q, In p pool -> In q rest -> (score q <= score p)%Z.
Proof.
  intros pool. subst pool.
  pose proof (order_by_score_desc_sorted l) as Hs.
  rewrite <- (firstn_skipn n (order_by_score_desc l)) in Hs.
  split; [|split].
  - rewrite length_firstn. unfold order_by_score_desc. now rewrite sort_desc_length.
  - eapply StronglySorted_app_l, Hs.
  - exists (skipn n (order_by_score_desc l)). split.
    + rewrite firstn_skipn. apply sort_desc_perm.
    + intros p q Hp Hq. exact (StronglySorted_app_le _ _ _ Hs p q Hp Hq).
Qed.
End CandidateFacts.

(** * Specification claims *)

Section PreferenceClaims.
Local Open Scope R_scope.

(** C8.  The normalisation step of both preference-update paths never
    divides by zero; on a non-zero vector its result has unit L2 norm,
    and an all-zero vector comes back unchanged. *)
Theorem normalize_unit_or_unchanged (v : vec) :
  exists w, normalize v = Some w /\
            (~ is_zero v -> unit_norm w) /\
            (is_zero v -> w = v).
Proof.
  destruct (is_zero_dec v) as [Hz|Hnz].
  - exists v. split; [now apply normalize_is_zero|]. split; [contradiction | reflexivity].
  - exists (vscale (/ norm v) v). split; [now apply normalize_nonzero|].
    split; [intros _; now apply normalize_unit | contradiction].
Qed.

(** C10.  When the stored preference vector is absent (or empty) or is an
    all-zero vector of the item's dimension, one online dislike on an
    item with unit-norm embedding [e] returns and leaves exactly [-e] in
    the [user_embedding] column of the user's row, which is not the zero
    vector.  Holds for every positive learning rate, the default 0.1
    included. *)
Theorem dislike_from_zero_stores_negated_item
    (dim : nat) (d : DB) (uid pid : string) (user : User) (post : Post)
    (e : vec) (lr : R) :
  get_user d uid = Some user ->
  get_post d pid = Some post ->
  embedding post = Some e ->
  unit_norm e ->
  length e = dim ->
  (truthy (user_embedding user) = None \/
   exists z, user_embedding user = Some z /\ is_zero z /\ length z = length e) ->
  0 < lr ->
  exists d' u',
    update_user_embedding_online dim d uid pid "dislike" lr = Some d' /\
    get_user d' uid = Some u' /\
    user_embedding u' = Some (map Ropp e) /\
    ~ is_zero (map Ropp e).
Proof.
  intros Hu Hp He Hunit Hdim Hcur Hlr.
  assert (Hneg : unit_norm (map Ropp e)).
  { rewrite <- vscale_neg1. unfold unit_norm. rewrite norm_vscale, Hunit.
    replace (Rabs (-1)) with 1; [lra|].
    unfold Rabs. destruct (Rcase_abs (-1)); lra. }
  unfold update_user_embedding_online. rewrite Hu, Hp, He.
  rewrite (unit_norm_truthy e Hunit).
  set (cur := match truthy (user_embedding user) with
              | Some v => v | None => zeros dim end).
  assert (Hz : is_zero cur /\ length cur = length e).
  { subst cur. destruct Hcur as [-> | (z & Hz & Hzero & Hlen)].
    - split; [apply is_zero_zeros | rewrite length_zeros; congruence].
    - rewrite Hz. destruct z as [|x z]; simpl.
      + split; [apply is_zero_zeros | rewrite length_zeros; congruence].
      + split; assumption. }
  destruct Hz as [Hzero Hlen].
  unfold online_step. simpl.
  rewrite np_sub_same by (now rewrite length_vscale).
  rewrite (vsub_zero_l cur e (lr * 0.5) Hzero Hlen). simpl.
  rewrite normalize_vscale_unit by (assumption || lra).
  simpl.
  replace (- (lr * 0.5) / Rabs (- (lr * 0.5))) with (-1)
    by (rewrite Rabs_Ropp, Rabs_pos_eq by lra; field; lra).
  rewrite vscale_neg1.
  exists (put_embedding d uid (map Ropp e)), (with_embedding user (map Ropp e)).
  split; [reflexivity|]. split; [now apply get_user_put|].
  split; [reflexivity | now apply unit_norm_not_zero].
Qed.

Lemma unit_e1 : unit_norm [1; 0].
Proof.
  unfold unit_norm, norm. simpl.
  replace (1 * 1 + (0 * 0 + 0)) with 1 by lra. apply sqrt_1.
Qed.

Lemma dislike_from_zero_witness :
  exists d' u',
    update_user_embedding_online 2 db_fresh_user "u" "p" "dislike" 0.1 = Some d' /\
    get_user d' "u" = Some u' /\
    user_embedding u' = Some (map Ropp [1; 0]) /\
    ~ is_zero (map Ropp [1; 0]).
Proof.
  apply (dislike_from_zero_stores_negated_item 2 db_fresh_user "u" "p"
           (user_row "u" None None 0.5)
           (post_row "p" "r" 0 false true false None (Some [1; 0]))
           [1; 0] 0.1); try reflexivity.
  - exact unit_e1.
  - left. reflexivity.
  - lra.
Defined.

(** A dislike on an item whose unit embedding is the current vector
    rescales the vector by [1 - 0.5 * lr] and normalises it back. *)
Lemma online_dislike_on_own_vector
    (dim : nat) (d : DB) (uid pid : string) (user : User) (post : Post)
    (e : vec) (lr : R) :
  get_user d uid = Some user ->
  get_post d pid = Some post ->
  embedding post = Some e ->
  user_embedding user = Some e ->
  unit_norm e ->
  lr < 2 ->
  update_user_embedding_online dim d uid pid "dislike" lr
    = Some (put_embedding d uid e).
Proof.
  intros Hu Hp He Hcur Hunit Hlr.
  unfold update_user_embedding_online. rewrite Hu, Hp, He, Hcur.
  rewrite (unit_norm_truthy e Hunit).
  unfold online_step. simpl.
  rewrite np_sub_same by (now rewrite length_vscale).
  rewrite vsub_self_scaled. simpl.
  rewrite normalize_vscale_unit by (assumption || lra).
  simpl. rewrite Rabs_pos_eq by lra.
  replace ((1 - lr * 0.5) / (1 - lr * 0.5)) with 1 by (field; lra).
  now rewrite vscale_1.
Qed.

(** C3 (as stated, refuted).  With preference vector and item vector both
    (1, 0), the dislike update stores (1, 0) again: the similarity to the
    item after the update is not below the similarity before it. *)
Lemma dislike_on_own_vector_counterexample :
  exists d' u' v,
    update_user_embedding_online 2 db_same_vector "u" "p" "dislike" 0.1 = Some d' /\
    get_user d' "u" = Some u' /\
    user_embedding u' = Some v /\
    ~ (dot v [1; 0] < dot [1; 0] [1; 0]).
Proof.
  exists (put_embedding db_same_vector "u" [1; 0]).
  exists (with_embedding (user_row "u" (Some [1; 0]) None 0.5) [1; 0]).
  exists [1; 0].
  split.
  { apply (online_dislike_on_own_vector 2 db_same_vector "u" "p"
             (user_row "u" (Some [1; 0]) None 0.5)
             (post_row "p" "r" 0 false true false None (Some [1; 0]))
             [1; 0] 0.1); try reflexivity; [exact unit_e1 | lra]. }
  split; [reflexivity|]. split; [reflexivity|]. lra.
Qed.

(** C3 (amended).  When the current preference vector equals the item's
    unit-norm embedding, the online dislike update (learning rate below
    2, the default 0.1 included) stores that same vector again, so the
    similarity to the item after the update equals the similarity before
    it, namely 1. *)
Theorem dislike_on_own_vector_keeps_similarity
    (dim : nat) (d : DB) (uid pid : string) (user : User) (post : Post)
    (e : vec) (lr : R) :
  get_user d uid = Some user ->
  get_post d pid = Some post ->
  embedding post = Some e ->
  user_embedding user = Some e ->
  unit_norm e ->
  lr < 2 ->
  exists d' v,
    update_user_embedding_online dim d uid pid "dislike" lr = Some d' /\
    get_user d' uid = Some (with_embedding user v) /\
    v = e /\
    dot v e = dot e e /\
    dot e e = 1.
Proof.
  intros Hu Hp He Hcur Hunit Hlr.
  exists (put_embedding d uid e), e.
  split; [now apply (online_dislike_on_own_vector dim d uid pid user post)|].
  split; [now apply get_user_put|].
  split; [reflexivity|]. split; [reflexivity|].
  rewrite <- norm_sqr, Hunit. lra.
Qed.

Lemma dislike_on_own_vector_witness :
  exists d' v,
    update_user_embedding_online 2 db_same_vector "u" "p" "dislike" 0.1 = Some d' /\
    get_user d' "u" = Some (with_embedding (user_row "u" (Some [1; 0]) None 0.5) v) /\
    v = [1; 0] /\
    dot v [1; 0] = dot [1; 0] [1; 0] /\
    dot [1; 0] [1; 0] = 1.
Proof.
  apply (dislike_on_own_vector_keeps_similarity 2 db_same_vector "u" "p"
           (user_row "u" (Some [1; 0]) None 0.5)
           (post_row "p" "r" 0 false true false None (Some [1; 0]))
           [1; 0] 0.1); try reflexivity.
  - exact unit_e1.
  - lra.
Defined.

(** C6 (as stated, refuted).  With no likes on record and two posts whose
    embeddings are (1, 0) and (0, 1), the batch path answers their mean
    (1/2, 1/2), which is neither of unit norm nor the zero vector. *)
Lemma fallback_mean_counterexample :
  exists v,
    generate_user_embedding 2 db_two_posts "u" = Some (v, db_two_posts) /\
    ~ unit_norm v /\ ~ is_zero v.
Proof.
  exists [(1 + 0) / (1 + 1); (0 + 1) / (1 + 1)].
  split; [|split].
  - unfold generate_user_embedding, vmean, vdiv. simpl.
    destruct (Req_dec_T (1 + 1) 0) as [E|_]; [lra | reflexivity].
  - unfold unit_norm. intros H.
    pose proof (norm_sqr [(1 + 0) / (1 + 1); (0 + 1) / (1 + 1)]) as Hs.
    rewrite H in Hs. simpl in Hs. lra.
  - intros H. inversion H as [|? ? Hx _]. lra.
Qed.

(** C6 (amended).  Whenever the online incremental update returns, either
    the user, the post or the post's embedding was missing and nothing
    was written, or the vector it has left in the [user_embedding] column
    is exactly of unit L2 norm or exactly the zero vector; the vector the
    batch recompute over at least one like returns and stores is one of
    the two as well; both return whenever the vectors involved have the
    dimension of the manager.  The
    no-likes fallback of the batch path stores nothing and answers the
    mean of the embeddings among the first 100 posts, or the zero vector
    when there is none; it returns whenever those embeddings have one
    shape. *)
Theorem update_paths_unit_or_zero (dim : nat) (d : DB) (uid : string) :
  (forall pid ty lr,
     (forall d', update_user_embedding_online dim d uid pid ty lr = Some d' ->
        ((get_user d uid = None \/ get_post d pid = None \/
          exists post, get_post d pid = Some post /\
                       truthy (embedding post) = None) /\
         d' = d) \/
        exists u u' v, get_user d uid = Some u /\
          get_user d' uid = Some u' /\
          user_embedding u' = Some v /\
          (unit_norm v \/ is_zero v)) /\
     ((forall user, get_user d uid = Some user ->
                    has_dim dim (user_embedding user)) ->
      (forall post, get_post d pid = Some post ->
                    has_dim dim (embedding post)) ->
      exists d', update_user_embedding_online dim d uid pid ty lr = Some d')) /\
  (interactions_of d uid "like" <> [] ->
     (forall v d', generate_user_embedding dim d uid = Some (v, d') ->
        (unit_norm v \/ is_zero v) /\
        (forall u, get_user d uid = Some u ->
           exists u', get_user d' uid = Some u' /\ user_embedding u' = Some v)) /\
     (catalog_has_dim dim d ->
      exists v d', generate_user_embedding dim d uid = Some (v, d'))) /\
  (interactions_of d uid "like" = [] ->
     (forall v d', generate_user_embedding dim d uid = Some (v, d') ->
        d' = d /\
        (omap (fun p => truthy (embedding p)) (firstn 100 (posts d)) = [] ->
         v = zeros dim) /\
        (omap (fun p => truthy (embedding p)) (firstn 100 (posts d)) <> [] ->
         vmean (omap (fun p => truthy (embedding p)) (firstn 100 (posts d)))
         = Some v)) /\
     (same_shape (omap (fun p => truthy (embedding p)) (firstn 100 (posts d))) = true ->
      exists v, generate_user_embedding dim d uid = Some (v, d))).
Proof.
  split; [|split].
  - intros pid ty lr. split.
    + intros d' H.
      destruct (online_update_normalised dim d d' uid pid ty lr H)
        as [Hskip|(u & post & e & v & Hu & _ & _ & _ & Hu' & Hv)]; [now left|].
      right. exists u, (with_embedding u v), v. auto.
    + apply online_update_total.
  - intros Hl. split.
    + intros v d' H.
      destruct (batch_recompute_normalised dim d d' uid v Hl H) as (H1 & H2 & _).
      split; [exact H1|]. intros u Hu.
      exists (with_embedding u v). split; [now apply H2 | reflexivity].
    + intros Hd. now apply batch_recompute_total.
  - intros Hl. split.
    + intros v d' H. exact (batch_fallback dim d d' uid v Hl H).
    + now apply batch_fallback_total.
Qed.

Lemma update_paths_witness :
  (exists d' u' v,
     update_user_embedding_online 2 db_orthogonal "u" "p" "like" 0.1 = Some d' /\
     get_user d' "u" = Some u' /\
     user_embedding u' = Some v /\
     (unit_norm v \/ is_zero v)) /\
  (exists v d' u',
     generate_user_embedding 2 db_one_like "u" = Some (v, d') /\
     (unit_norm v \/ is_zero v) /\
     get_user d' "u" = Some u' /\
     user_embedding u' = Some v) /\
  (exists v,
     generate_user_embedding 2 db_two_posts "u" = Some (v, db_two_posts) /\
     vmean [[1; 0]; [0; 1]] = Some v).
Proof.
  split; [|split].
  - destruct (update_paths_unit_or_zero 2 db_orthogonal "u") as [Hon _].
    destruct (Hon "p" "like" 0.1) as [Hret Htot].
    destruct Htot as [d' Hd'].
    { intros user [= <-] v [= <-]. reflexivity. }
    { intros post [= <-] v [= <-]. reflexivity. }
    destruct (Hret d' Hd') as [[Hskip _]|(u & u' & v & _ & Hu' & Hv & Hn)].
    + destruct Hskip as [H|[H|(post & H1 & H2)]]; try discriminate H.
      injection H1 as <-. discriminate H2.
    + exists d', u', v. auto.
  - destruct (update_paths_unit_or_zero 2 db_one_like "u") as (_ & Hb & _).
    destruct Hb as [Hret Htot]; [discriminate|].
    destruct Htot as (v & d' & H).
    { repeat constructor. intros v [= <-]. reflexivity. }
    destruct (Hret v d' H) as [Hn Hst].
    destruct (Hst (user_row "u" None None 0.5) eq_refl) as (u' & Hu' & Hv).
    exists v, d', u'. auto.
  - destruct (update_paths_unit_or_zero 2 db_two_posts "u") as (_ & _ & Hf).
    destruct (Hf eq_refl) as [Hret Htot].
    destruct (Htot eq_refl) as [v Hv].
    destruct (Hret v _ Hv) as (_ & _ & Hm).
    exists v. split; [exact Hv | apply Hm; discriminate].
Defined.
End PreferenceClaims.

Section RankingClaims.

Lemma score_candidates_In (d : DB) (uid : string) (candidates : list Post)
    (post : Post) (s : R) :
  In (post, s) (score_candidates d uid candidates) ->
  In post candidates /\ s = post_score (get_user d uid) post.
Proof.
  unfold score_candidates. rewrite sort_desc_In, in_map_iff.
  intros (q & [= -> <-] & Hq). auto.
Qed.

(** C9.  For a candidate whose stored age is missing or exactly 0, the
    Scorer takes the age to be 24 hours: its freshness is
    max(0, 1 - 24/168) = 6/7, below the maximal freshness 1, and that is
    the value weighted by 0.2 in the score the candidate is ranked by. *)
Theorem freshness_of_missing_or_zero_age
    (d : DB) (uid : string) (candidates : list Post) (post : Post) (s : R) :
  post_age_hours post = None \/ post_age_hours post = Some 0%R ->
  In (post, s) (score_candidates d uid candidates) ->
  hours_old post = 24%R /\
  freshness_score post = Rmax 0 (1 - 24 / 168) /\
  freshness_score post = (6 / 7)%R /\
  (freshness_score post < 1)%R /\
  s = (0.0 + similarity_term (get_user d uid) post
       + Rmin (engagement_score post) 1.0 * 0.3
       + Rmax 0 (1 - 24 / 168) * 0.2
       + subreddit_term (get_user d uid) post)%R.
Proof.
  intros Hage Hin.
  assert (Hh : hours_old post = 24%R).
  { unfold hours_old. destruct Hage as [-> | ->]; [reflexivity|].
    destruct (Req_dec_T 0 0) as [_|Hc]; [reflexivity | exfalso; apply Hc; reflexivity]. }
  assert (Hf : freshness_score post = Rmax 0 (1 - 24 / 168)).
  { unfold freshness_score. now rewrite Hh. }
  assert (Hv : Rmax 0 (1 - 24 / 168) = (6 / 7)%R).
  { rewrite Rmax_right by lra. lra. }
  apply score_candidates_In in Hin as [_ ->].
  repeat split; try assumption.
  - now rewrite Hf.
  - rewrite Hf, Hv. lra.
  - unfold post_score. now rewrite Hf.
Qed.

Lemma freshness_of_zero_age_witness :
  let post := post_row "p" "r" 0 false true false (Some 0%R) None in
  hours_old post = 24%R /\
  freshness_score post = Rmax 0 (1 - 24 / 168) /\
  freshness_score post = (6 / 7)%R /\
  (freshness_score post < 1)%R /\
  post_score None post
    = (0.0 + similarity_term (get_user db_two_posts "u") post
       + Rmin (engagement_score post) 1.0 * 0.3
       + Rmax 0 (1 - 24 / 168) * 0.2
       + subreddit_term (get_user db_two_posts "u") post)%R.
Proof.
  intros post.
  apply (freshness_of_missing_or_zero_age db_two_posts "u" [post] post
           (post_score None post)).
  - right. reflexivity.
  - left. reflexivity.
Defined.

(** C5 (as stated, refuted).  With [num_items = 3] and one text post
    accepted, a second text post from another subreddit is skipped by
    the content-type test although its bucket holds 1 item, fewer than
    ceil(3/2) = 2. *)
Lemma content_type_cap_counterexample :
  let a := post_row "a" "r1" 0 false true false None None in
  let b := post_row "b" "r2" 0 false true false None None in
  let st := greedy_loop 3 [(a, 1%R)] selection_start in
  final_posts st = [a] /\
  count_content_type (content_type b) (final_posts st) = 1%nat /\
  (Z.of_nat 1 < (3 + 1) `div` 2)%Z /\
  judge 3 st b = SkipContentType /\
  greedy_pass 3 [(a, 1%R); (b, 0%R)] = [a].
Proof.
  repeat split; vm_compute; reflexivity.
Qed.

(** C5 (amended).  A candidate is skipped by the content-type test
    exactly when its subreddit is not yet full and its bucket already
    holds floor(requested_count / 2) accepted items; for odd
    requested_count that cap is (requested_count - 1) / 2, and no bucket
    of the accepted list ever exceeds it. *)
Theorem content_type_cap_is_floor_half
    (num_items : Z) (earlier : list (Post * R)) (post : Post) :
  let st := greedy_loop num_items earlier selection_start in
  (judge num_items st post = SkipContentType <->
     (count_subreddit (subreddit post) (final_posts st) < 2)%nat /\
     (num_items `div` 2
      <= Z.of_nat (count_content_type (content_type post) (final_posts st)))%Z) /\
  (Z.odd num_items = true -> (2 * (num_items `div` 2) = num_items - 1)%Z) /\
  (forall c, (Z.of_nat (count_content_type c (greedy_pass num_items earlier))
              <= Z.max 0 (num_items `div` 2))%Z).
Proof.
  intros st. split; [|split].
  - pose proof (judge_spec num_items st post
                  (greedy_loop_counts_agree num_items earlier)) as Hspec.
    fold st in Hspec. split.
    + intros Hj. rewrite Hj in Hspec. split; lia.
    + intros [H1 H2]. destruct (judge num_items st post); [lia | reflexivity | lia | lia].
  - intros Hodd. apply Z.odd_spec in Hodd as [k ->].
    Z.div_mod_to_equations. lia.
  - apply greedy_pass_within_caps.
Qed.

Lemma num_exploration_no_user (d : DB) (uid : string) (n : Z) :
  get_user d uid = None -> num_exploration_of d uid (2 * n) = n.
Proof.
  intros H. unfold num_exploration_of. rewrite H. apply py_int_nat_half.
Qed.

(** C1.  The code breaks the claim.  For a user without a row (exploration
    rate 0.5) and [num_items = 2], the greedy loop accepts the two safe
    posts of the catalog; the exploration step then overwrites the last
    of them with the post the random order of the catalog puts first,
    here the one flagged NSFW, without filtering it: the list the
    Diversifier returns contains an item whose NSFW flag is set. *)
Lemma exploration_unsafe_counterexample :
  let a := post_row "a" "r1" 0 false true false None None in
  let b := post_row "b" "r2" 0 false false false None None in
  let x := post_row "x" "r" 0 false true true None None in
  greedy_pass 2 [(a, 2%R); (b, 1%R)] = [a; b] /\
  apply_business_rules plain_env db_unsafe_catalog [(a, 2%R); (b, 1%R)] "nobody" 2
    = [a; x] /\
  nsfw x = true.
Proof.
  intros a b x.
  assert (Hg : greedy_pass 2 [(a, 2%R); (b, 1%R)] = [a; b]) by (vm_compute; reflexivity).
  split; [exact Hg|]. split; [|reflexivity].
  unfold apply_business_rules. rewrite Hg.
  assert (E : num_exploration_of db_unsafe_catalog "nobody" 2 = 1%Z)
    by exact (num_exploration_no_user db_unsafe_catalog "nobody" 1 eq_refl).
  rewrite E. reflexivity.
Qed.

(** C7.  For a user who has a row, the pool of the Candidate Generator
    holds no two entries with one post id and no post the user's
    interaction log mentions (and at most [num_candidates] entries).  The
    one path that does not consult the log is the fallback for a user
    without a row: its pool is the min([num_candidates], catalog size)
    posts of highest raw score, in descending order of raw score, posts of
    equal score in catalog order. *)
Theorem candidate_pool_unique_and_unseen
    (e : Env) (d : DB) (uid : string) (num_candidates : nat) :
  env_ok e ->
  let pool := get_candidates e d uid num_candidates in
  (forall user, get_user d uid = Some user ->
     List.NoDup (map post_id pool) /\
     (forall p i, In p pool -> In i (interactions d) ->
                  i_user_id i = uid -> i_post_id i <> post_id p) /\
     length pool <= num_candidates) /\
  (get_user d uid = None ->
     length pool = Nat.min num_candidates (length (posts d)) /\
     StronglySorted score_ge pool /\
     (exists rest, Permutation (pool ++ rest) (posts d) /\
        forall p q, In p pool -> In q rest -> (score q <= score p)%Z) /\
     (forall z, exists k,
        List.filter (fun p => (score p =? z)%Z) pool
        = firstn k (List.filter (fun p => (score p =? z)%Z) (posts d)))).
Proof.
  intros Hok pool. subst pool. unfold get_candidates. split.
  - intros user Hu. rewrite Hu.
    set (seen := seen_post_ids d uid).
    set (all := _ ++ _ ++ _ ++ _).
    split; [|split].
    + rewrite <- firstn_map. apply NoDup_firstn, unique_candidates_NoDup.
    + intros p i Hp Hi Hiu Hid.
      apply In_firstn in Hp. apply unique_candidates_In in Hp as [Hp _].
      assert (Hunseen : post_id p ∉ seen).
      { subst all. repeat (apply in_app_or in Hp as [Hp|Hp]).
        - destruct (truthy (user_embedding user)); [|contradiction].
          eapply similarity_candidates_unseen, Hp.
        - eapply trending_candidates_unseen, Hp.
        - eapply subreddit_candidates_unseen, Hp.
        - eapply exploration_candidates_unseen; [exact Hok | exact Hp]. }
      apply Hunseen. apply seen_post_ids_spec. eauto.
    + rewrite length_firstn. lia.
  - intros Hu. rewrite Hu.
    destruct (popularity_fallback_top num_candidates (posts d))
      as (Hlen & Hsorted & Hrest).
    split; [exact Hlen|]. split; [exact Hsorted|]. split; [exact Hrest|].
    intros z.
    destruct (filter_firstn_prefix (fun p => (score p =? z)%Z) num_candidates
                (order_by_score_desc (posts d))) as [k Hk].
    exists k. now rewrite Hk, order_by_score_desc_stable.
Qed.

Lemma candidate_pool_witness :
  let known := get_candidates plain_env db_known_user "u" 100 in
  let fallback := get_candidates plain_env db_known_user "nobody" 1 in
  (List.NoDup (map post_id known) /\
   (forall p i, In p known -> In i (interactions db_known_user) ->
                i_user_id i = "u"%string -> i_post_id i <> post_id p) /\
   length known <= 100) /\
  (length fallback = Nat.min 1 (length (posts db_known_user)) /\
   StronglySorted score_ge fallback /\
   (exists rest, Permutation (fallback ++ rest) (posts db_known_user) /\
      forall p q, In p fallback -> In q rest -> (score q <= score p)%Z) /\
   (forall z, exists k,
      List.filter (fun p => (score p =? z)%Z) fallback
      = firstn k (List.filter (fun p => (score p =? z)%Z) (posts db_known_user)))).
Proof.
  split.
  - destruct (candidate_pool_unique_and_unseen plain_env db_known_user "u" 100
                plain_env_ok) as [H _].
    exact (H (user_row "u" None None 0.5) eq_refl).
  - destruct (candidate_pool_unique_and_unseen plain_env db_known_user "nobody" 1
                plain_env_ok) as [_ H].
    exact (H eq_refl).
Defined.

Lemma one_subreddit_feed_short :
  length (get_recommendations plain_env db_one_subreddit "nobody" 10) <= 2.
Proof.
  unfold get_recommendations.
  destruct (get_candidates plain_env db_one_subreddit "nobody" 100) as [|c cs] eqn:Hpool;
    [simpl; lia|].
  set (scored := score_candidates db_one_subreddit "nobody" (c :: cs)).
  assert (Hall : Forall (fun p => subreddit p = "r"%string) (greedy_pass 10 scored)).
  { apply List.Forall_forall. intros p Hp.
    apply greedy_pass_In, in_map_iff in Hp as ([q sc] & <- & Hq). simpl.
    apply score_candidates_In in Hq as [Hq _]. rewrite <- Hpool in Hq.
    unfold get_candidates in Hq. simpl get_user in Hq. cbv iota in Hq.
    apply In_firstn in Hq. unfold order_by_score_desc in Hq.
    apply sort_desc_In in Hq. simpl in Hq.
    repeat (destruct Hq as [<-|Hq]; [reflexivity|]). contradiction. }
  assert (Hlen : length (greedy_pass 10 scored) <= 2).
  { rewrite <- (count_subreddit_all "r" _ Hall).
    apply (greedy_pass_within_caps 10 scored). }
  unfold apply_business_rules.
  assert (E : num_exploration_of db_one_subreddit "nobody" 10 = 5%Z)
    by exact (num_exploration_no_user db_one_subreddit "nobody" 5 eq_refl).
  rewrite E.
  rewrite (bool_decide_eq_false_2 (5 < _)%Z) by lia.
  rewrite andb_false_r. exact Hlen.
Qed.

(** C4 (as stated, refuted).  The catalog has ten posts, all of one
    subreddit, and the user has neither a row nor a history; the feed for
    10 items has at most two entries, so it is not the list of the ten
    highest-scored posts. *)
Lemma new_user_feed_counterexample :
  length (posts db_one_subreddit) = 10 /\
  get_user db_one_subreddit "nobody" = None /\
  interactions db_one_subreddit = [] /\
  length (firstn 10 (order_by_score_desc (posts db_one_subreddit))) = 10 /\
  get_recommendations plain_env db_one_subreddit "nobody" 10
    <> firstn 10 (order_by_score_desc (posts db_one_subreddit)).
Proof.
  assert (Htop : length (firstn 10 (order_by_score_desc (posts db_one_subreddit))) = 10)
    by (vm_compute; reflexivity).
  split; [reflexivity|]. split; [reflexivity|]. split; [reflexivity|].
  split; [exact Htop|].
  intros Heq. pose proof one_subreddit_feed_short as Hshort.
  rewrite Heq, Htop in Hshort. lia.
Qed.

(** C4 (amended).  For a user with no row, the Candidate Generator
    answers the min(100, catalog size) posts of highest raw score, in
    descending raw-score order, posts of equal score in catalog order.
    The feed for 10 items is what the Scorer and the Diversifier make of
    that pool: at most 10 posts, each of the catalog. *)
Theorem new_user_pool_is_top_by_score (e : Env) (d : DB) (uid : string) :
  env_ok e ->
  get_user d uid = None ->
  let pool := get_candidates e d uid 100 in
  let out := get_recommendations e d uid 10 in
  length pool = Nat.min 100 (length (posts d)) /\
  StronglySorted score_ge pool /\
  (exists rest, Permutation (pool ++ rest) (posts d) /\
     forall p q, In p pool -> In q rest -> (score q <= score p)%Z) /\
  (forall z, exists k,
     List.filter (fun p => (score p =? z)%Z) pool
     = firstn k (List.filter (fun p => (score p =? z)%Z) (posts d))) /\
  length out <= 10 /\
  (forall p, In p out -> In p (posts d)).
Proof.
  intros Hok Hu pool out.
  assert (Hpool : pool = firstn 100 (order_by_score_desc (posts d))).
  { subst pool. unfold get_candidates. now rewrite Hu. }
  destruct (popularity_fallback_top 100 (posts d)) as (Hlen & Hsorted & Hrest).
  rewrite <- Hpool in Hlen, Hsorted, Hrest.
  split; [exact Hlen|]. split; [exact Hsorted|]. split; [exact Hrest|].
  split.
  { intros z. rewrite Hpool.
    destruct (filter_firstn_prefix (fun p => (score p =? z)%Z) 100
                (order_by_score_desc (posts d))) as [k Hk].
    exists k. now rewrite Hk, order_by_score_desc_stable. }
  assert (Hsub : forall p, In p pool -> In p (posts d)).
  { intros p Hp. rewrite Hpool in Hp. apply In_firstn in Hp.
    unfold order_by_score_desc in Hp. now apply sort_desc_In in Hp. }
  subst out. unfold get_recommendations. fold pool.
  destruct pool as [|c cs] eqn:Ecs; [simpl; split; [lia | contradiction]|].
  rewrite <- Ecs in *.
  destruct (exploration_shape e d (score_candidates d uid pool) uid 10 Hok)
    as (Hl & Hlook & _).
  pose proof (greedy_pass_length 10 (score_candidates d uid pool)) as Hg.
  split; [lia|].
  intros p Hp. apply list_elem_of_In, list_elem_of_lookup in Hp as [i Hi].
  apply Hlook in Hi as [Hi|Hi]; [|exact Hi].
  apply Hsub.
  assert (Hin : In p (greedy_pass 10 (score_candidates d uid pool))).
  { apply list_elem_of_In, list_elem_of_lookup. eauto. }
  apply greedy_pass_In, in_map_iff in Hin as ([q sc] & <- & Hq). simpl.
  now apply score_candidates_In in Hq as [Hq _].
Qed.

Lemma new_user_pool_witness :
  let pool := get_candidates plain_env db_one_subreddit "nobody" 100 in
  let out := get_recommendations plain_env db_one_subreddit "nobody" 10 in
  length pool = Nat.min 100 (length (posts db_one_subreddit)) /\
  StronglySorted score_ge pool /\
  (exists rest, Permutation (pool ++ rest) (posts db_one_subreddit) /\
     forall p q, In p pool -> In q rest -> (score q <= score p)%Z) /\
  (forall z, exists k,
     List.filter (fun p => (score p =? z)%Z) pool
     = firstn k (List.filter (fun p => (score p =? z)%Z) (posts db_one_subreddit))) /\
  length out <= 10 /\
  (forall p, In p out -> In p (posts db_one_subreddit)).
Proof.
  apply (new_user_pool_is_top_by_score plain_env db_one_subreddit "nobody").
  - exact plain_env_ok.
  - reflexivity.
Defined.
End RankingClaims.

(** ** The vector store *)

Section VectorStoreClaims.
Local Open Scope R_scope.

Lemma normalize_unit_id (v : vec) : unit_norm v -> normalize v = Some v.
Proof.
  intros H. rewrite normalize_nonzero by now apply unit_norm_not_zero.
  rewrite H. replace (/ 1) with 1 by field. now rewrite vscale_1.
Qed.

(** On an index of the query's dimension, a search for a positive number
    of neighbours returns the mapped hits. *)
Lemma search_index_returns (vs : VectorStore) (ix : FlatIndex) (q : vec) (k : nat) :
  post_index vs = Some ix ->
  length q = index_dim ix ->
  (0 < k)%nat ->
  search_index vs q k
  = Returned (map_results (post_id_map vs)
                (flat_ip_search (index_rows ix)
                   (match normalize q with Some w => w | None => q end) k)).
Proof.
  intros H Hq Hk. unfold search_index. rewrite H.
  destruct (normalize_total q) as (w & Hw & _). rewrite Hw.
  rewrite (normalize_length q w Hw), Hq, Nat.eqb_refl.
  destruct k as [|k]; [lia | reflexivity].
Qed.

(** A query for no neighbours, or of another dimension than the index,
    raises. *)
Lemma search_index_asserts (vs : VectorStore) (ix : FlatIndex) (q : vec) (k : nat) :
  post_index vs = Some ix ->
  k = 0%nat \/ length q <> index_dim ix ->
  search_index vs q k = Raised "AssertionError".
Proof.
  intros H Hbad. unfold search_index. rewrite H.
  destruct (normalize_total q) as (w & Hw & _). rewrite Hw.
  rewrite (normalize_length q w Hw).
  destruct Hbad as [-> | Hne].
  - now rewrite andb_false_r.
  - apply Nat.eqb_neq in Hne. now rewrite Hne.
Qed.

(** The build goes through when every row has the dimension of the
    manager. *)
Lemma build_faiss_index_ok (vs : VectorStore) (embeddings : list vec)
    (post_ids : list string) :
  Forall (fun row => length row = embedding_dim vs) embeddings ->
  build_faiss_index vs embeddings post_ids
  = ({| embedding_dim := embedding_dim vs;
        post_index := Some {| index_dim := embedding_dim vs;
                              index_rows := normalize_L2 embeddings |};
        post_id_map := id_map post_ids;
        index_file := Some {| index_dim := embedding_dim vs;
                              index_rows := normalize_L2 embeddings |};
        map_file := Some (id_map post_ids) |}, true).
Proof.
  intros H. unfold build_faiss_index.
  replace (forallb _ embeddings) with true; [reflexivity|].
  symmetry. apply forallb_forall. intros row Hrow.
  apply Nat.eqb_eq. rewrite List.Forall_forall in H. now apply H.
Qed.

(** C2 (as stated, refuted).  The manager has no index and nothing is
    saved; the catalog has one post.  The query runs the whole embedding
    and index build inline and then answers that post: the result is not
    empty and construction was triggered by the query. *)
Lemma query_before_build_counterexample :
  never_built store_unbuilt /\
  exists sc vs' d',
    find_similar_posts unit_encoder store_unbuilt db_fresh_user [1; 0] 1
    = (Returned [("p"%string, sc)], vs', d',
       [LogWarning; EncodedPosts; BuiltIndex; SavedIndex]) /\
    sc = 1 /\
    post_index vs' = Some {| index_dim := 2; index_rows := [[1; 0]] |}.
Proof.
  split; [split; reflexivity|].
  unfold find_similar_posts, generate_post_embeddings. simpl.
  unfold search_index, normalize_L2. simpl.
  rewrite (normalize_unit_id _ unit_e1). simpl.
  unfold flat_ip_search. simpl.
  eexists _, _, _. split; [reflexivity|].
  split; [lra | reflexivity].
Qed.

(** When the inline build fails, the manager still has no index and the
    search that follows raises. *)
Lemma query_after_failed_build_raises
    (encode : list string -> option (list vec)) (vs : VectorStore) (d : DB)
    (q : vec) (k : nat) :
  never_built vs ->
  encode (map post_text (posts d)) = None ->
  find_similar_posts encode vs d q k
  = (Raised "AttributeError", vs, d, [LogWarning; LogError]).
Proof.
  intros [Hix Hfile] Henc.
  unfold find_similar_posts, load_index, generate_post_embeddings.
  rewrite Hix, Hfile, Henc. unfold search_index. rewrite Hix.
  destruct (normalize_total q) as (w & -> & _). reflexivity.
Qed.

(** C2 (amended).  A query that finds no index in memory logs a warning
    and then, before it searches, loads the saved index or, when none is
    saved, embeds the whole catalog and builds and saves the index
    inline (the build goes through when the model answers at least one
    vector and its vectors have the dimension of the manager).  Once the index is loaded or built, a
    query of the index's dimension for a positive number of neighbours
    returns the mapped hits of that index, which need not be empty. *)
Theorem query_without_index_loads_or_builds
    (encode : list string -> option (list vec)) (vs : VectorStore) (d : DB)
    (q : vec) (k : nat) :
  post_index vs = None ->
  (forall ix, index_file vs = Some ix ->
     let vs1 := fst (load_index vs) in
     post_index vs1 = Some ix /\
     find_similar_posts encode vs d q k
     = (search_index vs1 q k, vs1, d, [LogWarning; LoadedIndex]) /\
     (length q = index_dim ix -> (0 < k)%nat ->
      search_index vs1 q k
      = Returned (map_results (post_id_map vs1)
                    (flat_ip_search (index_rows ix)
                       (match normalize q with Some w => w | None => q end) k)))) /\
  (forall embeddings,
     index_file vs = None ->
     encode (map post_text (posts d)) = Some embeddings ->
     embeddings <> [] ->
     Forall (fun row => length row = embedding_dim vs) embeddings ->
     let vs2 := fst (build_faiss_index vs embeddings (map post_id (posts d))) in
     post_index vs2 = Some {| index_dim := embedding_dim vs;
                              index_rows := normalize_L2 embeddings |} /\
     (exists d2, find_similar_posts encode vs d q k
        = (search_index vs2 q k, vs2, d2,
           [LogWarning; EncodedPosts; BuiltIndex; SavedIndex])) /\
     (length q = embedding_dim vs -> (0 < k)%nat ->
      search_index vs2 q k
      = Returned (map_results (id_map (map post_id (posts d)))
                    (flat_ip_search (normalize_L2 embeddings)
                       (match normalize q with Some w => w | None => q end) k)))).
Proof.
  intros Hix. split.
  - intros ix Hfile. unfold find_similar_posts, load_index.
    rewrite Hix, Hfile. simpl. split; [reflexivity|]. split; [reflexivity|].
    intros Hq Hk. now apply search_index_returns.
  - intros embeddings Hfile Henc _ Hrows.
    unfold find_similar_posts, load_index, generate_post_embeddings.
    rewrite Hix, Hfile, Henc.
    rewrite (build_faiss_index_ok vs embeddings _ Hrows). simpl.
    split; [reflexivity|]. split; [eauto|].
    intros Hq Hk.
    rewrite (search_index_returns _ {| index_dim := embedding_dim vs;
                                       index_rows := normalize_L2 embeddings |} q k);
      [reflexivity | reflexivity | exact Hq | exact Hk].
Qed.

Lemma query_without_index_witness :
  (let vs1 := fst (load_index store_saved) in
   post_index vs1 = Some {| index_dim := 2; index_rows := [[1; 0]] |} /\
   find_similar_posts unit_encoder store_saved db_fresh_user [1; 0] 1
   = (search_index vs1 [1; 0] 1, vs1, db_fresh_user, [LogWarning; LoadedIndex]) /\
   search_index vs1 [1; 0] 1
   = Returned (map_results (post_id_map vs1)
                 (flat_ip_search [[1; 0]]
                    (match normalize [1; 0] with Some w => w | None => [1; 0] end) 1))) /\
  (let vs2 := fst (build_faiss_index store_unbuilt [[1; 0]]
                     (map post_id (posts db_fresh_user))) in
   post_index vs2 = Some {| index_dim := 2; index_rows := normalize_L2 [[1; 0]] |} /\
   (exists d2, find_similar_posts unit_encoder store_unbuilt db_fresh_user [1; 0] 1
      = (search_index vs2 [1; 0] 1, vs2, d2,
         [LogWarning; EncodedPosts; BuiltIndex; SavedIndex])) /\
   search_index vs2 [1; 0] 1
   = Returned (map_results (id_map (map post_id (posts db_fresh_user)))
                 (flat_ip_search (normalize_L2 [[1; 0]])
                    (match normalize [1; 0] with Some w => w | None => [1; 0] end) 1))).
Proof.
  split.
  - destruct (query_without_index_loads_or_builds unit_encoder store_saved
                db_fresh_user [1; 0] 1 eq_refl) as [H _].
    destruct (H {| index_dim := 2; index_rows := [[1; 0]] |} eq_refl)
      as (H1 & H2 & H3).
    split; [exact H1|]. split; [exact H2|].
    apply H3; [reflexivity | lia].
  - destruct (query_without_index_loads_or_builds unit_encoder store_unbuilt
                db_fresh_user [1; 0] 1 eq_refl) as [_ H].
    destruct (H [[1; 0]] eq_refl eq_refl) as (H1 & H2 & H3).
    { discriminate. }
    { repeat constructor. }
    split; [exact H1|]. split; [exact H2|].
    apply H3; [reflexivity | lia].
Defined.
End VectorStoreClaims.

(** * Further properties of the code *)

(** ** More vector arithmetic *)

Section InnerProductFacts.
Local Open Scope R_scope.

Lemma dot_vadd_l (u v w : vec) :
  length u = length v -> dot (vadd u v) w = dot u w + dot v w.
Proof.
  revert v w. induction u as [|x u IH]; intros [|y v] [|z w] Hlen;
    simpl in *; try discriminate; try lra.
  rewrite IH by lia. lra.
Qed.

Lemma dot_vsub_l (u v w : vec) :
  length u = length v -> dot (vsub u v) w = dot u w - dot v w.
Proof.
  revert v w. induction u as [|x u IH]; intros [|y v] [|z w] Hlen;
    simpl in *; try discriminate; try lra.
  rewrite IH by lia. lra.
Qed.

Lemma dot_vscale_l (c : R) (u w : vec) : dot (vscale c u) w = c * dot u w.
Proof. apply dot_map_l. Qed.

(** Cauchy-Schwarz, also for operands of different lengths. *)
Lemma cauchy_schwarz (u v : vec) :
  dot u v * dot u v <= dot u u * dot v v.
Proof.
  revert v. induction u as [|x u IH]; intros [|y v]; simpl; try lra.
  specialize (IH v).
  pose proof (dot_self_nonneg u) as Hu. pose proof (dot_self_nonneg v) as Hv.
  set (d := dot u v) in *. set (a := dot u u) in *. set (b := dot v v) in *.
  assert (H2 : 2 * (x * y) * d <= x * x * b + a * (y * y)).
  { apply Rsqr_incr_0_var.
    - unfold Rsqr.
      pose proof (Rle_0_sqr (x * x * b - a * (y * y))) as H0. unfold Rsqr in H0.
      pose proof (Rle_0_sqr (x * y)) as Hxy. unfold Rsqr in Hxy.
      assert (H1 : (x * y) * (x * y) * (d * d) <= (x * y) * (x * y) * (a * b)).
      { apply Rmult_le_compat_l; [exact Hxy | exact IH]. }
      replace (2 * (x * y) * d * (2 * (x * y) * d))
        with (4 * ((x * y) * (x * y) * (d * d))) by ring.
      replace ((x * x * b + a * (y * y)) * (x * x * b + a * (y * y)))
        with ((x * x * b - a * (y * y)) * (x * x * b - a * (y * y))
              + 4 * ((x * y) * (x * y) * (a * b))) by ring.
      lra.
    - pose proof (Rle_0_sqr x) as Hx. pose proof (Rle_0_sqr y) as Hy.
      unfold Rsqr in Hx, Hy.
      assert (0 <= x * x * b) by (apply Rmult_le_pos; assumption).
      assert (0 <= a * (y * y)) by (apply Rmult_le_pos; assumption).
      lra. }
  replace ((x * y + d) * (x * y + d))
    with (x * y * (x * y) + 2 * (x * y) * d + d * d) by ring.
  replace ((x * x + a) * (y * y + b))
    with (x * y * (x * y) + (x * x * b + a * (y * y)) + a * b) by ring.
  lra.
Qed.


Lemma unit_dot_bounds (u e : vec) :
  unit_norm u -> unit_norm e -> -1 <= dot u e <= 1.
Proof.
  intros Hu He. pose proof (cauchy_schwarz u e) as H.
  rewrite <- (norm_sqr u), <- (norm_sqr e), Hu, He in H. nra.
Qed.

Lemma unit_dot_self (e : vec) : unit_norm e -> dot e e = 1.
Proof. intros H. rewrite <- norm_sqr, H. lra. Qed.

Lemma vadd_zero_l (c e : vec) (a b : R) :
  is_zero c -> length c = length e ->
  vadd (vscale a c) (vscale b e) = vscale b e.
Proof.
  unfold is_zero. intros Hz. revert e.
  induction Hz as [|x c Hx _ IH]; intros [|y e] Hlen; simpl in *; try discriminate.
  - reflexivity.
  - subst x. f_equal; [lra | apply IH; lia].
Qed.

Lemma vadd_zeros_l (v : vec) : vadd (zeros (length v)) v = v.
Proof.
  induction v as [|x v IH]; simpl; [reflexivity|]. f_equal; [lra | exact IH].
Qed.

Lemma is_zero_vadd (u v : vec) : is_zero u -> is_zero v -> is_zero (vadd u v).
Proof.
  unfold is_zero. intros Hu. revert v.
  induction Hu as [|x u Hx _ IH]; intros v Hv; simpl; [constructor|].
  destruct Hv as [|y v Hy Hv]; constructor; [subst; lra | now apply IH].
Qed.

Lemma is_zero_map_div (v : vec) (c : R) :
  is_zero v -> is_zero (map (fun x => x / c) v).
Proof.
  unfold is_zero. induction 1 as [|x v Hx _ IH]; simpl; constructor; [|exact IH].
  subst x. unfold Rdiv. lra.
Qed.

Lemma sqr_le_1 (c : R) : -1 <= c <= 1 -> 0 <= 1 - c * c.
Proof.
  intros Hc. replace (1 - c * c) with ((1 - c) * (1 + c)) by ring.
  apply Rmult_le_pos; lra.
Qed.

Lemma le_of_sqr_le (x y : R) : 0 <= y -> x * x <= y * y -> x <= y.
Proof. intros Hy H. apply Rsqr_incr_0_var; [exact H | exact Hy]. Qed.

(** The scalar heart of "move towards liked content". *)
Lemma like_step_real (a b c n : R) :
  0 < a -> 0 < b -> -1 <= c <= 1 -> 0 < n ->
  n * n = a * a + 2 * a * b * c + b * b ->
  c * n <= a * c + b.
Proof.
  intros Ha Hb Hc Hn Hnn. pose proof (sqr_le_1 c Hc) as Hcc.
  assert (Hbb : 0 <= b * b * (1 - c * c)).
  { apply Rmult_le_pos; [apply Rmult_le_pos; lra | exact Hcc]. }
  assert (Hge : a + b * c <= n).
  { apply le_of_sqr_le; [lra|]. rewrite Hnn.
    replace (a * a + 2 * a * b * c + b * b)
      with ((a + b * c) * (a + b * c) + b * b * (1 - c * c)) by ring. lra. }
  assert (Hbc : b * (c * c) <= b).
  { assert (0 <= b * (1 - c * c)) by (apply Rmult_le_pos; lra).
    replace (b * (c * c)) with (b - b * (1 - c * c)) by ring. lra. }
  destruct (Rle_dec c 0) as [Hneg|Hpos].
  - assert (H1 : c * n <= c * (a + b * c)).
    { apply Rmult_le_compat_neg_l; assumption. }
    replace (c * (a + b * c)) with (a * c + b * (c * c)) in H1 by ring. lra.
  - assert (Hc0 : 0 < c) by lra.
    assert (Hac : 0 < a * c) by (apply Rmult_lt_0_compat; assumption).
    apply le_of_sqr_le; [lra|].
    replace (c * n * (c * n)) with (c * c * (n * n)) by ring. rewrite Hnn.
    assert (Hp : 0 <= (1 - c * c) * (b * (2 * (a * c) + b))).
    { apply Rmult_le_pos; [exact Hcc|]. apply Rmult_le_pos; lra. }
    replace ((a * c + b) * (a * c + b))
      with (c * c * (a * a + 2 * a * b * c + b * b)
            + (1 - c * c) * (b * (2 * (a * c) + b))) by ring.
    lra.
Qed.

(** The scalar heart of "move away from disliked content". *)
Lemma dislike_step_real (k c n : R) :
  0 < k < 1 -> -1 <= c <= 1 -> 0 < n ->
  n * n = 1 - 2 * k * c + k * k ->
  c - k <= c * n /\ (c * c < 1 -> c - k < c * n).
Proof.
  intros Hk Hc Hn Hnn. pose proof (sqr_le_1 c Hc) as Hcc.
  assert (Hkk : 0 <= k * k * (1 - c * c)).
  { apply Rmult_le_pos; [apply Rmult_le_pos; lra | exact Hcc]. }
  assert (Hkc : k * c <= k).
  { replace k with (k * 1) at 2 by ring. apply Rmult_le_compat_l; lra. }
  assert (Hge : 1 - k * c <= n).
  { apply le_of_sqr_le; [lra|]. rewrite Hnn.
    replace (1 - 2 * k * c + k * k)
      with ((1 - k * c) * (1 - k * c) + k * k * (1 - c * c)) by ring. lra. }
  destruct (Rle_dec 0 c) as [Hpos|Hneg].
  - assert (H1 : c * (1 - k * c) <= c * n).
    { apply Rmult_le_compat_l; assumption. }
    replace (c * (1 - k * c)) with (c - k * (c * c)) in H1 by ring.
    assert (H2 : 0 <= k * (1 - c * c)) by (apply Rmult_le_pos; lra).
    replace (k * (1 - c * c)) with (k - k * (c * c)) in H2 by ring.
    split; [lra|]. intros Hs.
    assert (H3 : 0 < k * (1 - c * c)) by (apply Rmult_lt_0_compat; lra).
    replace (k * (1 - c * c)) with (k - k * (c * c)) in H3 by ring. lra.
  - assert (Hc0 : c < 0) by lra.
    assert (Hid : (k - c) * (k - c)
                  = c * n * (c * n) + (1 - c * c) * (k * (k - 2 * c))).
    { replace (c * n * (c * n)) with (c * c * (n * n)) by ring. rewrite Hnn. ring. }
    assert (Hp : 0 <= (1 - c * c) * (k * (k - 2 * c))).
    { apply Rmult_le_pos; [exact Hcc|]. apply Rmult_le_pos; lra. }
    assert (Hle : - (c * n) <= k - c).
    { apply le_of_sqr_le; [lra|].
      replace (- (c * n) * - (c * n)) with (c * n * (c * n)) by ring. lra. }
    split; [lra|]. intros Hs.
    assert (Hp' : 0 < (1 - c * c) * (k * (k - 2 * c))).
    { apply Rmult_lt_0_compat; [lra|]. apply Rmult_lt_0_compat; lra. }
    destruct (Req_dec (- (c * n)) (k - c)) as [E|E]; [|lra].
    exfalso. rewrite <- E in Hid.
    replace (- (c * n) * - (c * n)) with (c * n * (c * n)) in Hid by ring. lra.
Qed.
End InnerProductFacts.

(** ** The preference tracker, continued *)

Section PreferenceExtras.
Local Open Scope R_scope.

Lemma with_embedding_same (u : User) (v : vec) :
  user_embedding u = Some v -> with_embedding u v = u.
Proof. destruct u as [i emb prefs rate]. simpl. intros ->. reflexivity. Qed.

Lemma store_embedding_same (us : list User) (uid : string) (u : User) (v : vec) :
  find (fun x => String.eqb (user_id x) uid) us = Some u ->
  user_embedding u = Some v ->
  store_embedding us uid v = us.
Proof.
  induction us as [|x us IH]; simpl; [reflexivity|].
  destruct (String.eqb (user_id x) uid).
  - intros [= ->] Hv. now rewrite with_embedding_same.
  - intros Hf Hv. now rewrite IH.
Qed.

Lemma put_embedding_same (d : DB) (uid : string) (u : User) (v : vec) :
  get_user d uid = Some u -> user_embedding u = Some v ->
  put_embedding d uid v = d.
Proof.
  intros Hu Hv. unfold put_embedding.
  rewrite (store_embedding_same _ _ _ _ Hu Hv). now destruct d.
Qed.

Lemma get_user_put_other (d : DB) (uid uid' : string) (v : vec) :
  uid' <> uid ->
  get_user (put_embedding d uid v) uid' = get_user d uid'.
Proof.
  intros Hne. unfold get_user, put_embedding. simpl.
  induction (users d) as [|x us IH]; simpl; [reflexivity|].
  destruct (String.eqb_spec (user_id x) uid) as [Hx|Hx]; simpl.
  - destruct (String.eqb_spec (user_id x) uid') as [Hx'|_]; [congruence | reflexivity].
  - now rewrite IH.
Qed.

Lemma store_embedding_length (us : list User) (uid : string) (v : vec) :
  length (store_embedding us uid v) = length us.
Proof.
  induction us as [|x us IH]; simpl; [reflexivity|].
  destruct (String.eqb (user_id x) uid); simpl; [reflexivity | now rewrite IH].
Qed.

(** What the like step does to the similarity with the liked item. *)
Lemma like_step_similarity (u e : vec) (lr : R) :
  unit_norm u -> unit_norm e -> length u = length e -> 0 < lr < 1 ->
  exists w v, online_step "like" lr u e = Some w /\
              normalize w = Some v /\
              (unit_norm v \/ is_zero v) /\ dot u e <= dot v e.
Proof.
  intros Hu He Hlen Hlr. unfold online_step. simpl.
  rewrite np_add_same by (now rewrite !length_vscale).
  set (a := 1 - lr). set (w := vadd (vscale a u) (vscale lr e)).
  exists w. cut (exists v, normalize w = Some v /\
                          (unit_norm v \/ is_zero v) /\ dot u e <= dot v e).
  { intros (v & Hv). exists v. split; [reflexivity | exact Hv]. }
  pose proof (unit_dot_bounds u e Hu He) as Hc.
  pose proof (unit_dot_self u Hu) as Huu. pose proof (unit_dot_self e He) as Hee.
  assert (Hl : length (vscale a u) = length (vscale lr e))
    by (now rewrite !length_vscale).
  assert (HN : dot w e = a * dot u e + lr).
  { unfold w. rewrite dot_vadd_l, !dot_vscale_l, Hee by exact Hl. lra. }
  assert (HW : dot w w = a * a + 2 * a * lr * dot u e + lr * lr).
  { unfold w at 1. rewrite dot_vadd_l, !dot_vscale_l by exact Hl.
    rewrite (dot_comm u w), (dot_comm e w). unfold w.
    rewrite !dot_vadd_l, !dot_vscale_l by exact Hl.
    rewrite Huu, Hee, (dot_comm e u). ring. }
  assert (Ha : 0 < a) by (unfold a; lra).
  destruct (is_zero_dec w) as [Hz|Hnz].
  - exists w. split; [now apply normalize_is_zero|]. split; [now right|].
    rewrite HN. apply dot_self_zero in Hz. rewrite HW in Hz.
    pose proof (cauchy_schwarz w e) as Hcs. rewrite HN, HW, Hz, Hee in Hcs.
    assert (HN0 : a * dot u e + lr = 0).
    { pose proof (Rle_0_sqr (a * dot u e + lr)) as H0. unfold Rsqr in H0.
      apply Rsqr_0_uniq. unfold Rsqr. lra. }
    rewrite HN0.
    destruct (Rle_dec (dot u e) 0) as [H|H]; [exact H|]. exfalso.
    assert (0 < a * dot u e) by (apply Rmult_lt_0_compat; lra). lra.
  - exists (vscale (/ norm w) w). split; [now apply normalize_nonzero|].
    split; [left; now apply normalize_unit|].
    pose proof (norm_pos w Hnz) as Hn.
    rewrite dot_vscale_l, HN.
    assert (Hstep : dot u e * norm w <= a * dot u e + lr).
    { apply like_step_real; try lra. rewrite norm_sqr. exact HW. }
    apply (Rmult_le_reg_r (norm w)); [exact Hn|].
    replace (/ norm w * (a * dot u e + lr) * norm w) with (a * dot u e + lr)
      by (field; lra).
    exact Hstep.
Qed.

(** What the dislike step does to the similarity with the disliked item. *)
Lemma dislike_step_similarity (u e : vec) (lr : R) :
  unit_norm u -> unit_norm e -> length u = length e -> 0 < lr < 2 ->
  exists w v, online_step "dislike" lr u e = Some w /\
              normalize w = Some v /\
              unit_norm v /\ dot v e <= dot u e /\
              (dot u e * dot u e < 1 -> dot v e < dot u e).
Proof.
  intros Hu He Hlen Hlr. unfold online_step. simpl.
  rewrite np_sub_same by (now rewrite length_vscale).
  set (k := lr * 0.5). set (w := vsub u (vscale k e)).
  exists w. cut (exists v, normalize w = Some v /\
                          unit_norm v /\ dot v e <= dot u e /\
                          (dot u e * dot u e < 1 -> dot v e < dot u e)).
  { intros (v & Hv). exists v. split; [reflexivity | exact Hv]. }
  pose proof (unit_dot_bounds u e Hu He) as Hc.
  pose proof (unit_dot_self u Hu) as Huu. pose proof (unit_dot_self e He) as Hee.
  assert (Hl : length u = length (vscale k e)) by (now rewrite length_vscale).
  assert (HN : dot w e = dot u e - k).
  { unfold w. rewrite dot_vsub_l, dot_vscale_l, Hee by exact Hl. lra. }
  assert (HW : dot w w = 1 - 2 * k * dot u e + k * k).
  { unfold w at 1. rewrite dot_vsub_l, dot_vscale_l by exact Hl.
    rewrite (dot_comm u w), (dot_comm e w). unfold w.
    rewrite !dot_vsub_l, !dot_vscale_l by exact Hl.
    rewrite Huu, Hee, (dot_comm e u). ring. }
  assert (Hk : 0 < k < 1) by (unfold k; lra).
  assert (HWpos : 0 < dot w w).
  { rewrite HW.
    replace (1 - 2 * k * dot u e + k * k)
      with ((1 - k) * (1 - k) + 2 * k * (1 - dot u e)) by ring.
    assert (0 < (1 - k) * (1 - k)) by (apply Rmult_lt_0_compat; lra).
    assert (0 <= 2 * k * (1 - dot u e)) by (apply Rmult_le_pos; lra).
    lra. }
  assert (Hnz : ~ is_zero w).
  { intros Hz. apply dot_self_zero in Hz. lra. }
  pose proof (norm_pos w Hnz) as Hn.
  exists (vscale (/ norm w) w). split; [now apply normalize_nonzero|].
  split; [now apply normalize_unit|].
  rewrite dot_vscale_l, HN.
  destruct (dislike_step_real k (dot u e) (norm w) Hk Hc Hn) as [Hle Hlt].
  { rewrite norm_sqr. exact HW. }
  split.
  - apply (Rmult_le_reg_r (norm w)); [exact Hn|].
    replace (/ norm w * (dot u e - k) * norm w) with (dot u e - k) by (field; lra).
    exact Hle.
  - intros Hs. apply (Rmult_lt_reg_r (norm w)); [exact Hn|].
    replace (/ norm w * (dot u e - k) * norm w) with (dot u e - k) by (field; lra).
    now apply Hlt.
Qed.
End PreferenceExtras.

Section PreferenceProperties.
Local Open Scope R_scope.

Lemma unit_e2 : unit_norm [0; 1].
Proof.
  unfold unit_norm, norm. simpl.
  replace (0 * 0 + (1 * 1 + 0)) with 1 by lra. apply sqrt_1.
Qed.

Lemma online_update_on_unit_vectors
    (dim : nat) (d : DB) (uid pid ty : string) (user : User) (post : Post)
    (u e : vec) (lr : R) :
  get_user d uid = Some user -> get_post d pid = Some post ->
  embedding post = Some e -> unit_norm e ->
  user_embedding user = Some u -> unit_norm u ->
  update_user_embedding_online dim d uid pid ty lr
  = (w ← online_step ty lr u e; v ← normalize w; Some (put_embedding d uid v)).
Proof.
  intros Hu Hp He Hue Hv Huu. unfold update_user_embedding_online.
  rewrite Hu, Hp, He, Hv, (unit_norm_truthy e Hue), (unit_norm_truthy u Huu).
  reflexivity.
Qed.

(** X1.  When the stored preference vector is absent, empty or all-zero,
    one online like of an item with unit-norm embedding [e] returns and
    leaves exactly [e] in the [user_embedding] column of the user's row,
    whatever the positive learning rate. *)
Theorem like_from_zero_stores_item
    (dim : nat) (d : DB) (uid pid : string) (user : User) (post : Post)
    (e : vec) (lr : R) :
  get_user d uid = Some user ->
  get_post d pid = Some post ->
  embedding post = Some e ->
  unit_norm e ->
  length e = dim ->
  (truthy (user_embedding user) = None \/
   exists z, user_embedding user = Some z /\ is_zero z /\ length z = length e) ->
  0 < lr ->
  exists d' u',
    update_user_embedding_online dim d uid pid "like" lr = Some d' /\
    get_user d' uid = Some u' /\
    user_embedding u' = Some e.
Proof.
  intros Hu Hp He Hunit Hdim Hcur Hlr.
  unfold update_user_embedding_online. rewrite Hu, Hp, He.
  rewrite (unit_norm_truthy e Hunit).
  set (cur := match truthy (user_embedding user) with
              | Some v => v | None => zeros dim end).
  assert (Hz : is_zero cur /\ length cur = length e).
  { subst cur. destruct Hcur as [-> | (z & Hz & Hzero & Hlen)].
    - split; [apply is_zero_zeros | rewrite length_zeros; congruence].
    - rewrite Hz. destruct z as [|x z]; simpl.
      + split; [apply is_zero_zeros | rewrite length_zeros; congruence].
      + split; assumption. }
  destruct Hz as [Hzero Hlen].
  unfold online_step. simpl.
  rewrite np_add_same by (now rewrite !length_vscale).
  rewrite (vadd_zero_l cur e (1 - lr) lr Hzero Hlen). simpl.
  rewrite normalize_vscale_unit by (assumption || lra).
  simpl. rewrite Rabs_pos_eq by lra.
  replace (lr / lr) with 1 by (field; lra).
  rewrite vscale_1.
  exists (put_embedding d uid e), (with_embedding user e).
  split; [reflexivity|]. split; [now apply get_user_put | reflexivity].
Qed.

Lemma like_from_zero_witness :
  exists d' u',
    update_user_embedding_online 2 db_fresh_user "u" "p" "like" 0.1 = Some d' /\
    get_user d' "u" = Some u' /\
    user_embedding u' = Some [1; 0].
Proof.
  apply (like_from_zero_stores_item 2 db_fresh_user "u" "p"
           (user_row "u" None None 0.5)
           (post_row "p" "r" 0 false true false None (Some [1; 0]))
           [1; 0] 0.1); try reflexivity.
  - exact unit_e1.
  - left. reflexivity.
  - lra.
Defined.

(** X2.  Feedback of any type other than like and dislike (skip, click,
    or an unrecognised string) is a no-op on a user whose stored vector
    has unit norm: the database after the call is the database before. *)
Theorem neutral_feedback_is_noop
    (dim : nat) (d : DB) (uid pid ty : string) (user : User) (post : Post)
    (u e : vec) (lr : R) :
  get_user d uid = Some user ->
  get_post d pid = Some post ->
  embedding post = Some e ->
  e <> [] ->
  user_embedding user = Some u ->
  unit_norm u ->
  ty <> "like"%string ->
  ty <> "dislike"%string ->
  update_user_embedding_online dim d uid pid ty lr = Some d.
Proof.
  intros Hu Hp He Hne Hv Huu Hl Hd. unfold update_user_embedding_online.
  rewrite Hu, Hp, He, Hv, (unit_norm_truthy u Huu).
  destruct e as [|x e]; [congruence|]. simpl.
  unfold online_step.
  apply String.eqb_neq in Hl. apply String.eqb_neq in Hd. rewrite Hl, Hd.
  simpl. rewrite (normalize_unit_id u Huu). simpl.
  now rewrite (put_embedding_same d uid user u Hu Hv).
Qed.

Lemma neutral_feedback_witness :
  update_user_embedding_online 2 db_same_vector "u" "p" "skip" 0.1
  = Some db_same_vector.
Proof.
  apply (neutral_feedback_is_noop 2 db_same_vector "u" "p" "skip"
           (user_row "u" (Some [1; 0]) None 0.5)
           (post_row "p" "r" 0 false true false None (Some [1; 0]))
           [1; 0] [1; 0] 0.1); try reflexivity; try discriminate.
  exact unit_e1.
Defined.

(** X3.  Whenever the online update returns, it has touched nothing but
    the embedding column of the one user: posts, interactions, the number
    of user rows, every other user's row and this user's id, affinities
    and exploration rate are as before. *)
Theorem online_update_frame
    (dim : nat) (d d' : DB) (uid pid ty : string) (lr : R) :
  update_user_embedding_online dim d uid pid ty lr = Some d' ->
  posts d' = posts d /\
  interactions d' = interactions d /\
  length (users d') = length (users d) /\
  (forall uid', uid' <> uid -> get_user d' uid' = get_user d uid') /\
  (forall u', get_user d' uid = Some u' ->
     exists u0, get_user d uid = Some u0 /\
       user_id u' = user_id u0 /\
       preferred_subreddits u' = preferred_subreddits u0 /\
       exploration_rate u' = exploration_rate u0).
Proof.
  intros H.
  destruct (online_update_normalised dim d d' uid pid ty lr H)
    as [[_ ->]|(user & post & e & w & Hu & _ & _ & -> & Hu' & _)].
  - repeat split; eauto.
  - split; [reflexivity|]. split; [reflexivity|].
    split; [apply store_embedding_length|]. split.
    + intros uid' Hne. now apply get_user_put_other.
    + intros u' Hget. rewrite Hu' in Hget.
      injection Hget as <-. exists user. repeat split; reflexivity || exact Hu.
Qed.

Lemma online_update_frame_witness :
  exists d',
    update_user_embedding_online 2 db_orthogonal "u" "p" "like" 0.1 = Some d' /\
    posts d' = posts db_orthogonal /\
    interactions d' = interactions db_orthogonal /\
    length (users d') = length (users db_orthogonal) /\
    (forall uid', uid' <> "u"%string ->
                  get_user d' uid' = get_user db_orthogonal uid') /\
    (forall u', get_user d' "u" = Some u' ->
       exists u0, get_user db_orthogonal "u" = Some u0 /\
         user_id u' = user_id u0 /\
         preferred_subreddits u' = preferred_subreddits u0 /\
         exploration_rate u' = exploration_rate u0).
Proof.
  destruct (online_update_total 2 db_orthogonal "u" "p" "like" 0.1) as [d' Hd'].
  - intros user [= <-] v [= <-]. reflexivity.
  - intros post [= <-] v [= <-]. reflexivity.
  - exists d'. split; [exact Hd'|].
    exact (online_update_frame 2 db_orthogonal d' "u" "p" "like" 0.1 Hd').
Defined.

(** X4.  A like moves the profile towards the item: for a unit-norm
    profile and a unit-norm item embedding of the same dimension and a
    learning rate strictly between 0 and 1, the stored vector is of unit
    norm or zero and its similarity to the item is not below the
    similarity before the update. *)
Theorem like_never_lowers_similarity
    (dim : nat) (d : DB) (uid pid : string) (user : User) (post : Post)
    (u e : vec) (lr : R) :
  get_user d uid = Some user ->
  get_post d pid = Some post ->
  embedding post = Some e ->
  unit_norm e ->
  user_embedding user = Some u ->
  unit_norm u ->
  length u = length e ->
  0 < lr < 1 ->
  exists d' v,
    update_user_embedding_online dim d uid pid "like" lr = Some d' /\
    get_user d' uid = Some (with_embedding user v) /\
    (unit_norm v \/ is_zero v) /\
    dot u e <= dot v e.
Proof.
  intros Hu Hp He Hue Hv Huu Hlen Hlr.
  rewrite (online_update_on_unit_vectors dim d uid pid "like" user post u e lr)
    by assumption.
  destruct (like_step_similarity u e lr Huu Hue Hlen Hlr)
    as (w & v & -> & Hn & Hv1 & Hv2).
  simpl. rewrite Hn. simpl. exists (put_embedding d uid v), v.
  split; [reflexivity|]. split; [now apply get_user_put|]. now split.
Qed.

Lemma like_never_lowers_similarity_witness :
  exists d' v,
    update_user_embedding_online 2 db_orthogonal "u" "p" "like" 0.1 = Some d' /\
    get_user d' "u" = Some (with_embedding (user_row "u" (Some [0; 1]) None 0.5) v) /\
    (unit_norm v \/ is_zero v) /\
    dot [0; 1] [1; 0] <= dot v [1; 0].
Proof.
  apply (like_never_lowers_similarity 2 db_orthogonal "u" "p"
           (user_row "u" (Some [0; 1]) None 0.5)
           (post_row "p" "r" 0 false true false None (Some [1; 0]))
           [0; 1] [1; 0] 0.1); try reflexivity.
  - exact unit_e1.
  - exact unit_e2.
  - lra.
Defined.

(** X5.  A dislike moves the profile away from the item: for a unit-norm
    profile and a unit-norm item embedding of the same dimension and a
    learning rate strictly between 0 and 2, the update returns, the vector
    it leaves in the [user_embedding] column of the user's row has unit
    norm, its similarity to the item is not above the similarity before
    the update, and it is strictly below unless the profile is the item's
    vector or its negation. *)
Theorem dislike_never_raises_similarity
    (dim : nat) (d : DB) (uid pid : string) (user : User) (post : Post)
    (u e : vec) (lr : R) :
  get_user d uid = Some user ->
  get_post d pid = Some post ->
  embedding post = Some e ->
  unit_norm e ->
  user_embedding user = Some u ->
  unit_norm u ->
  length u = length e ->
  0 < lr < 2 ->
  exists d' u' v,
    update_user_embedding_online dim d uid pid "dislike" lr = Some d' /\
    get_user d' uid = Some u' /\
    user_embedding u' = Some v /\
    unit_norm v /\
    dot v e <= dot u e /\
    (dot u e * dot u e < 1 -> dot v e < dot u e).
Proof.
  intros Hu Hp He Hue Hv Huu Hlen Hlr.
  rewrite (online_update_on_unit_vectors dim d uid pid "dislike" user post u e lr)
    by assumption.
  destruct (dislike_step_similarity u e lr Huu Hue Hlen Hlr)
    as (w & v & -> & Hn & Hv1 & Hv2 & Hv3).
  simpl. rewrite Hn. simpl.
  exists (put_embedding d uid v), (with_embedding user v), v.
  split; [reflexivity|]. split; [now apply get_user_put|].
  split; [reflexivity|]. now repeat split.
Qed.

Lemma dislike_never_raises_similarity_witness :
  exists d' u' v,
    update_user_embedding_online 2 db_orthogonal "u" "p" "dislike" 0.1 = Some d' /\
    get_user d' "u" = Some u' /\
    user_embedding u' = Some v /\
    unit_norm v /\
    dot v [1; 0] <= dot [0; 1] [1; 0] /\
    (dot [0; 1] [1; 0] * dot [0; 1] [1; 0] < 1 -> dot v [1; 0] < dot [0; 1] [1; 0]).
Proof.
  apply (dislike_never_raises_similarity 2 db_orthogonal "u" "p"
           (user_row "u" (Some [0; 1]) None 0.5)
           (post_row "p" "r" 0 false true false None (Some [1; 0]))
           [0; 1] [1; 0] 0.1); try reflexivity.
  - exact unit_e1.
  - exact unit_e2.
  - lra.
Defined.
Lemma is_zero_fold_vadd (vs : list vec) (v : vec) :
  is_zero v -> Forall is_zero vs -> is_zero (fold_left vadd vs v).
Proof.
  intros Hv Hvs. revert v Hv.
  induction Hvs as [|x vs Hx _ IH]; intros v Hv; simpl; [exact Hv|].
  apply IH. now apply is_zero_vadd.
Qed.

Lemma vmean_zero (v : vec) (vs : list vec) :
  same_shape (v :: vs) = true ->
  Forall is_zero (v :: vs) -> exists m, vmean (v :: vs) = Some m /\ is_zero m.
Proof.
  intros Hs H. inversion H as [|? ? Hv Hvs]; subst.
  unfold vmean, vdiv. rewrite Hs.
  destruct (Req_dec_T (INR (length (v :: vs))) 0) as [E|_].
  - exfalso. revert E. apply not_0_INR. simpl. lia.
  - eexists. split; [reflexivity|].
    apply is_zero_map_div. simpl. now apply is_zero_fold_vadd.
Qed.

Lemma untimed_like_embeddings (d : DB) (l : list Interaction) :
  Forall (fun i => time_spent i = 0) l ->
  Forall is_zero
    (interaction_embeddings d (fun i e => vscale (like_weight i) e) l).
Proof.
  induction 1 as [|i l Hi _ IH]; simpl; [constructor|].
  destruct (get_post d (i_post_id i)) as [p|]; [|exact IH].
  destruct (truthy (embedding p)) as [e|]; [|exact IH].
  constructor; [|exact IH].
  unfold like_weight. rewrite Hi.
  replace (Rmin (0 / 30) 2) with 0.
  - unfold is_zero, vscale. apply Forall_map, List.Forall_forall. intros x _. lra.
  - unfold Rmin. destruct (Rle_dec (0 / 30) 2); lra.
Qed.

(** X6.  Batch recompute for a user whose log holds exactly one like, of
    positive duration, and no dislike: the call returns the liked item's
    unit-norm embedding itself, whatever the duration, and leaves it in
    the [user_embedding] column of the user's row, if there is one. *)
Theorem batch_single_like_is_item
    (dim : nat) (d : DB) (uid : string) (i : Interaction) (post : Post) (e : vec) :
  interactions_of d uid "like" = [i] ->
  interactions_of d uid "dislike" = [] ->
  get_post d (i_post_id i) = Some post ->
  embedding post = Some e ->
  unit_norm e ->
  length e = dim ->
  0 < time_spent i ->
  exists d',
    generate_user_embedding dim d uid = Some (e, d') /\
    (forall u, get_user d uid = Some u ->
       exists u', get_user d' uid = Some u' /\ user_embedding u' = Some e) /\
    (get_user d uid = None -> d' = d).
Proof.
  intros Hl Hd Hp He Hunit Hdim Ht.
  unfold generate_user_embedding. rewrite Hl, Hd. simpl.
  rewrite Hp, He, (unit_norm_truthy e Hunit).
  unfold raw_user_embedding, vmean. simpl same_shape. cbv iota.
  simpl vsum. simpl length.
  rewrite vdiv_vscale by (simpl; lra). simpl.
  assert (Hw : 0 < like_weight i).
  { unfold like_weight, Rmin. destruct (Rle_dec (time_spent i / 30) 2); lra. }
  rewrite vscale_vscale.
  rewrite np_iadd_same
    by (unfold zeros; now rewrite repeat_length, length_vscale).
  simpl.
  replace (vadd (zeros dim) (vscale (/ 1 * like_weight i) e))
    with (vscale (/ 1 * like_weight i) e).
  2:{ rewrite <- Hdim, <- (length_vscale (/ 1 * like_weight i) e).
      symmetry. apply vadd_zeros_l. }
  assert (Hc : 0 < / 1 * like_weight i) by (replace (/ 1) with 1 by field; lra).
  rewrite normalize_vscale_unit by (assumption || lra). simpl.
  rewrite Rabs_pos_eq by lra.
  replace (/ 1 * like_weight i / (/ 1 * like_weight i)) with 1 by (field; lra).
  rewrite vscale_1.
  destruct (get_user d uid) as [u|] eqn:Hu.
  - exists (put_embedding d uid e). split; [reflexivity|]. split.
    + intros u0 [= <-]. exists (with_embedding u e).
      split; [now apply get_user_put | reflexivity].
    + discriminate.
  - exists d. split; [reflexivity|]. split; [discriminate | reflexivity].
Qed.

Lemma batch_single_like_witness :
  exists d',
    generate_user_embedding 2 db_one_like "u" = Some ([1; 0], d') /\
    (forall u, get_user db_one_like "u" = Some u ->
       exists u', get_user d' "u" = Some u' /\ user_embedding u' = Some [1; 0]) /\
    (get_user db_one_like "u" = None -> d' = db_one_like).
Proof.
  apply (batch_single_like_is_item 2 db_one_like "u" (like_of "u" "p" 45)
           (post_row "p" "r" 0 false true false None (Some [1; 0]))
           [1; 0]); try reflexivity.
  - exact unit_e1.
  - simpl. lra.
Defined.

(** X7.  Batch recompute, over a catalog whose embeddings have the
    dimension of the manager, for a user all of whose likes were recorded
    with reading time 0 (the default of the feedback request) and who has
    no dislike: every like gets weight 0, the call returns the zero
    vector, not a profile, and leaves it in the [user_embedding] column
    of the user's row, if there is one. *)
Theorem batch_untimed_likes_give_zero (dim : nat) (d : DB) (uid : string) :
  catalog_has_dim dim d ->
  interactions_of d uid "like" <> [] ->
  Forall (fun i => time_spent i = 0) (interactions_of d uid "like") ->
  interactions_of d uid "dislike" = [] ->
  exists v d',
    generate_user_embedding dim d uid = Some (v, d') /\ is_zero v /\
    (forall u, get_user d uid = Some u ->
       exists u', get_user d' uid = Some u' /\ user_embedding u' = Some v).
Proof.
  intros Hdim Hne Hall Hd. unfold generate_user_embedding. rewrite Hd.
  destruct (interactions_of d uid "like") as [|i l] eqn:El; [congruence|].
  pose proof (untimed_like_embeddings d (i :: l) Hall) as Hz.
  assert (Hshape : Forall (fun w => length w = dim)
            (interaction_embeddings d (fun i e => vscale (like_weight i) e) (i :: l))).
  { apply interaction_embeddings_dim; [exact Hdim|]. intros. apply length_vscale. }
  set (liked := interaction_embeddings d _ (i :: l)) in *.
  assert (Hraw : exists raw, raw_user_embedding dim liked [] = Some raw /\ is_zero raw).
  { unfold raw_user_embedding. destruct liked as [|x xs].
    - simpl. eexists. split; [reflexivity | apply is_zero_zeros].
    - pose proof (same_shape_of_dim dim _ Hshape) as Hs.
      destruct (vmean_cons x xs Hs) as (m' & Hm' & Hlen).
      destruct (vmean_zero x xs Hs Hz) as (m & Hm & Hzero).
      rewrite Hm in Hm'. injection Hm' as <-.
      rewrite Hm. simpl.
      inversion Hshape as [|? ? Hx _]; subst.
      rewrite np_iadd_same
        by (unfold zeros; rewrite repeat_length; congruence).
      simpl. eexists. split; [reflexivity|].
      apply is_zero_vadd; [apply is_zero_zeros | exact Hzero]. }
  destruct Hraw as (raw & Hraw & Hzero). simpl interaction_embeddings.
  rewrite Hraw. simpl. rewrite (normalize_is_zero raw Hzero). simpl.
  destruct (get_user d uid) as [u|] eqn:Hu.
  - exists raw, (put_embedding d uid raw).
    split; [reflexivity|]. split; [exact Hzero|].
    intros u0 [= <-]. exists (with_embedding u raw).
    split; [now apply get_user_put | reflexivity].
  - exists raw, d. split; [reflexivity|]. split; [exact Hzero | discriminate].
Qed.

Lemma batch_untimed_likes_witness :
  exists v d',
    generate_user_embedding 2 db_untimed_like "u" = Some (v, d') /\ is_zero v /\
    (forall u, get_user db_untimed_like "u" = Some u ->
       exists u', get_user d' "u" = Some u' /\ user_embedding u' = Some v).
Proof.
  apply (batch_untimed_likes_give_zero 2 db_untimed_like "u").
  - repeat constructor. intros v [= <-]. reflexivity.
  - discriminate.
  - repeat constructor.
  - reflexivity.
Defined.
End PreferenceProperties.

(** ** The vector store, continued *)

Section VectorStoreFacts.
Local Open Scope R_scope.

(** Sorting on a real key yields descending keys. *)
Lemma insert_desc_R_sorted {A : Type} (key : A -> R) (x : A) (l : list A) :
  StronglySorted (fun a b => key b <= key a) l ->
  StronglySorted (fun a b => key b <= key a)
    (insert_desc (fun a b => Rltb (key a) (key b)) x l).
Proof.
  induction 1 as [|y l Hs IH Hall]; simpl.
  - repeat constructor.
  - unfold Rltb at 1. destruct (Rlt_dec (key x) (key y)) as [Hlt|Hge].
    + constructor; [exact IH|].
      rewrite List.Forall_forall in *. intros z Hz.
      apply (Permutation_in _ (insert_desc_perm _ x l)) in Hz.
      destruct Hz as [<-|Hz]; [lra | now apply Hall].
    + constructor; [now constructor|].
      constructor; [lra|].
      rewrite List.Forall_forall in *. intros z Hz.
      specialize (Hall z Hz). simpl in Hall. lra.
Qed.

Lemma sort_desc_R_sorted {A : Type} (key : A -> R) (l : list A) :
  StronglySorted (fun a b => key b <= key a)
    (sort_desc (fun a b => Rltb (key a) (key b)) l).
Proof.
  induction l as [|x l IH]; simpl; [constructor|].
  now apply insert_desc_R_sorted.
Qed.

Lemma StronglySorted_firstn {A : Type} (Rel : A -> A -> Prop) (n : nat) (l : list A) :
  StronglySorted Rel l -> StronglySorted Rel (firstn n l).
Proof.
  intros H. rewrite <- (firstn_skipn n l) in H.
  now apply StronglySorted_app_l in H.
Qed.

Lemma enumerate_from_In {B : Type} (l : list B) (start i : Z) (x : B) :
  In (i, x) (enumerate_from start l) ->
  (start <= i < start + Z.of_nat (length l))%Z /\ In x l.
Proof.
  revert start. induction l as [|y l IH]; intros start; simpl; [contradiction|].
  intros [[= <- <-]|H].
  - split; [lia | now left].
  - apply IH in H as [H1 H2]. split; [lia | now right].
Qed.

Lemma enumerate_from_length {B : Type} (l : list B) (start : Z) :
  length (enumerate_from start l) = length l.
Proof.
  revert start. induction l as [|y l IH]; intros start; simpl; [reflexivity|].
  now rewrite IH.
Qed.

(** [{i: post_id for i, post_id in enumerate(post_ids)}] read back. *)
Lemma enumerate_lookup (l : list string) (start z : Z) :
  (list_to_map (enumerate_from start l) : gmap Z string) !! z
  = if bool_decide (start <= z < start + Z.of_nat (length l))%Z
    then l !! Z.to_nat (z - start) else None.
Proof.
  revert start. induction l as [|x l IH]; intros start; simpl.
  - rewrite lookup_empty. case_bool_decide; [lia | reflexivity].
  - destruct (decide (start = z)) as [->|Hne].
    + rewrite lookup_insert_eq. rewrite bool_decide_eq_true_2 by lia.
      now replace (Z.to_nat (z - z)) with 0%nat by lia.
    + rewrite lookup_insert_ne by exact Hne. rewrite IH.
      repeat case_bool_decide; try lia; try reflexivity.
      replace (Z.to_nat (z - start)) with (S (Z.to_nat (z - (start + 1)))) by lia.
      reflexivity.
Qed.

Lemma id_map_lookup (ids : list string) (z : Z) (pid : string) :
  id_map ids !! z = Some pid ->
  (0 <= z < Z.of_nat (length ids))%Z /\ In pid ids.
Proof.
  unfold id_map. rewrite enumerate_lookup.
  case_bool_decide as Hz; [|discriminate].
  intros H. split; [lia|].
  apply list_elem_of_In, list_elem_of_lookup. eauto.
Qed.

Lemma id_map_lookup_in_range (ids : list string) (z : Z) :
  (0 <= z < Z.of_nat (length ids))%Z -> exists pid, id_map ids !! z = Some pid.
Proof.
  intros Hz. unfold id_map. rewrite enumerate_lookup.
  rewrite bool_decide_eq_true_2 by lia.
  apply lookup_lt_is_Some. lia.
Qed.

Lemma id_map_lookup_out_of_range (ids : list string) (z : Z) :
  ~ (0 <= z < Z.of_nat (length ids))%Z -> id_map ids !! z = None.
Proof.
  intros Hz. unfold id_map. rewrite enumerate_lookup.
  now rewrite bool_decide_eq_false_2 by lia.
Qed.

(** Mapping hits to post ids keeps the order and the scores, and drops
    exactly the labels the map does not know. *)
Lemma map_results_In (m : gmap Z string) (hits : list (Z * R)) (pid : string) (sc : R) :
  In (pid, sc) (map_results m hits) ->
  exists idx, In (idx, sc) hits /\ m !! idx = Some pid.
Proof.
  induction hits as [|[idx s0] rest IH]; simpl; [contradiction|].
  destruct (m !! idx) as [p|] eqn:E.
  - intros [[= <- <-]|H]; [eauto|].
    destruct (IH H) as (i & Hi & Hm). eauto.
  - intros H. destruct (IH H) as (i & Hi & Hm). eauto.
Qed.

Lemma map_results_sorted (m : gmap Z string) (hits : list (Z * R)) :
  StronglySorted (fun a b => snd b <= snd a) hits ->
  StronglySorted (fun a b => snd b <= snd a) (map_results m hits).
Proof.
  induction 1 as [|[idx s0] rest Hs IH Hall]; simpl; [constructor|].
  destruct (m !! idx) as [p|]; [|exact IH].
  constructor; [exact IH|].
  rewrite List.Forall_forall in *. intros [pid sc] Hin. simpl.
  apply map_results_In in Hin as (i & Hi & _).
  exact (Hall (i, sc) Hi).
Qed.

Lemma map_results_app (m : gmap Z string) (a b : list (Z * R)) :
  map_results m (a ++ b) = map_results m a ++ map_results m b.
Proof.
  induction a as [|[idx s0] a IH]; simpl; [reflexivity|].
  destruct (m !! idx); simpl; now rewrite IH.
Qed.

Lemma map_results_all_known (m : gmap Z string) (hits : list (Z * R)) :
  Forall (fun h => is_Some (m !! fst h)) hits ->
  length (map_results m hits) = length hits.
Proof.
  induction 1 as [|[idx s0] rest [p Hp] _ IH]; simpl; [reflexivity|].
  simpl in Hp. rewrite Hp. simpl. now rewrite IH.
Qed.

Lemma map_results_none_known (m : gmap Z string) (hits : list (Z * R)) :
  Forall (fun h => m !! fst h = None) hits -> map_results m hits = [].
Proof.
  induction 1 as [|[idx s0] rest Hp _ IH]; simpl; [reflexivity|].
  simpl in Hp. now rewrite Hp.
Qed.

Lemma normalize_L2_length (rows : list vec) :
  length (normalize_L2 rows) = length rows.
Proof. unfold normalize_L2. apply length_map. Qed.

Lemma normalize_L2_rows (rows : list vec) (row : vec) :
  In row (normalize_L2 rows) -> unit_norm row \/ is_zero row.
Proof.
  unfold normalize_L2. rewrite in_map_iff. intros (v & <- & _).
  destruct (normalize_total v) as (w & -> & Hw). exact Hw.
Qed.

Lemma dot_self_le_1 (v : vec) : unit_norm v \/ is_zero v -> dot v v <= 1.
Proof.
  intros [H|H].
  - rewrite (unit_dot_self v H). lra.
  - apply dot_self_zero in H. lra.
Qed.

Lemma cosine_bounds (u v : vec) :
  unit_norm u \/ is_zero u -> unit_norm v \/ is_zero v -> -1 <= dot u v <= 1.
Proof.
  intros Hu Hv. pose proof (cauchy_schwarz u v) as H.
  pose proof (dot_self_le_1 u Hu) as H1. pose proof (dot_self_le_1 v Hv) as H2.
  pose proof (dot_self_nonneg u) as H3. pose proof (dot_self_nonneg v) as H4.
  assert (Hsq : dot u v * dot u v <= 1).
  { assert (dot u u * dot v v <= 1 * 1) by (apply Rmult_le_compat; lra). lra. }
  split.
  - assert (Hn : - dot u v <= 1).
    { apply le_of_sqr_le; [lra|].
      replace (- dot u v * - dot u v) with (dot u v * dot u v) by ring. lra. }
    lra.
  - apply le_of_sqr_le; lra.
Qed.
End VectorStoreFacts.

Section VectorStoreProperties.
Local Open Scope R_scope.

(** On an index whose rows line up with the id map, the padding is
    dropped and every real hit is kept. *)
Lemma search_on_aligned_index (ix : list vec) (ids : list string) (q : vec) (k : nat) :
  length ix = length ids ->
  let hits := firstn k (sort_desc (fun x y => Rltb (snd x) (snd y))
                          (enumerate_from 0 (map (fun row => dot row q) ix))) in
  map_results (id_map ids) (flat_ip_search ix q k) = map_results (id_map ids) hits /\
  length (map_results (id_map ids) hits) = Nat.min k (length ids) /\
  (forall idx sc, In (idx, sc) hits -> exists row, In row ix /\ sc = dot row q).
Proof.
  intros Hlen hits.
  assert (Hin : forall idx sc, In (idx, sc) hits ->
            (0 <= idx < Z.of_nat (length ids))%Z /\
            exists row, In row ix /\ sc = dot row q).
  { intros idx sc H. subst hits. apply In_firstn in H. apply sort_desc_In in H.
    apply enumerate_from_In in H as [Hr Hs]. rewrite length_map, Hlen in Hr.
    split; [lia|]. apply in_map_iff in Hs as (row & <- & Hrow). eauto. }
  split; [|split].
  - unfold flat_ip_search. fold hits. rewrite map_results_app.
    rewrite (map_results_none_known _ (repeat _ _)); [apply app_nil_r|].
    apply List.Forall_forall. intros h Hh. apply repeat_spec in Hh. subst h. simpl.
    apply id_map_lookup_out_of_range. lia.
  - rewrite map_results_all_known.
    + subst hits. rewrite length_firstn, sort_desc_length, enumerate_from_length,
        length_map, Hlen. reflexivity.
    + apply List.Forall_forall. intros [idx sc] H. simpl.
      apply Hin in H as [Hr _]. destruct (id_map_lookup_in_range ids idx Hr) as [p Hp].
      rewrite Hp. eauto.
  - intros idx sc H. now apply Hin in H as [_ H].
Qed.

(** The store a successful inline build leaves, and what it answers. *)
Lemma search_index_built
    (encode : list string -> option (list vec)) (vs : VectorStore) (d : DB)
    (embeddings : list vec) (q : vec) (k : nat) :
  encode (map post_text (posts d)) = Some embeddings ->
  Forall (fun row => length row = embedding_dim vs) embeddings ->
  length q = embedding_dim vs ->
  (0 < k)%nat ->
  search_index (generate_post_embeddings encode vs d).1.1 q k
  = Returned (map_results (id_map (map post_id (posts d)))
                (flat_ip_search (normalize_L2 embeddings)
                   (match normalize q with Some w => w | None => q end) k)).
Proof.
  intros H Hrows Hq Hk. unfold generate_post_embeddings. rewrite H.
  rewrite (build_faiss_index_ok vs embeddings _ Hrows). simpl.
  rewrite (search_index_returns _ {| index_dim := embedding_dim vs;
                                     index_rows := normalize_L2 embeddings |} q k);
    [reflexivity | reflexivity | exact Hq | exact Hk].
Qed.

(** Whatever a search on a successfully built index returns is the list
    of its mapped hits. *)
Lemma search_index_built_inv
    (encode : list string -> option (list vec)) (vs : VectorStore) (d : DB)
    (embeddings : list vec) (q : vec) (k : nat) (l : list (string * R)) :
  encode (map post_text (posts d)) = Some embeddings ->
  Forall (fun row => length row = embedding_dim vs) embeddings ->
  search_index (generate_post_embeddings encode vs d).1.1 q k = Returned l ->
  l = map_results (id_map (map post_id (posts d)))
        (flat_ip_search (normalize_L2 embeddings)
           (match normalize q with Some w => w | None => q end) k).
Proof.
  intros H Hrows. unfold generate_post_embeddings. rewrite H.
  rewrite (build_faiss_index_ok vs embeddings _ Hrows). simpl.
  unfold search_index. simpl.
  destruct (normalize_total q) as (w & -> & _).
  destruct (_ && _); [|discriminate]. now intros [= <-].
Qed.

(** X9.  After a build over a non-empty catalog in which the model
    returned one vector of the manager's dimension per post, a query of
    that dimension for a positive number [k] of neighbours returns
    exactly min(k, number of posts) pairs, each naming a post of the
    catalog, best score first; the padding labels of a short index never
    reach the caller. *)
Theorem query_after_build_answers_catalog
    (encode : list string -> option (list vec)) (vs : VectorStore) (d : DB)
    (embeddings : list vec) (q : vec) (k : nat) :
  encode (map post_text (posts d)) = Some embeddings ->
  embeddings <> [] ->
  length embeddings = length (posts d) ->
  Forall (fun row => length row = embedding_dim vs) embeddings ->
  length q = embedding_dim vs ->
  (0 < k)%nat ->
  exists l,
    search_index (generate_post_embeddings encode vs d).1.1 q k = Returned l /\
    length l = Nat.min k (length (posts d)) /\
    (forall pid sc, In (pid, sc) l ->
       exists post, In post (posts d) /\ post_id post = pid) /\
    StronglySorted (fun a b => snd b <= snd a) l.
Proof.
  intros Henc _ Hlen Hrows Hq Hk.
  rewrite (search_index_built encode vs d embeddings q k Henc Hrows Hq Hk).
  set (query := match normalize q with Some w => w | None => q end).
  assert (Hal : length (normalize_L2 embeddings) = length (map post_id (posts d))).
  { now rewrite normalize_L2_length, length_map. }
  destruct (search_on_aligned_index _ _ query k Hal) as (Heq & Hl & _).
  eexists. split; [reflexivity|]. rewrite Heq.
  split; [now rewrite Hl, length_map|]. split.
  - intros pid sc H. apply map_results_In in H as (idx & _ & Hm).
    apply id_map_lookup in Hm as [_ Hm]. apply in_map_iff in Hm as (post & <- & Hp).
    eauto.
  - apply map_results_sorted, StronglySorted_firstn.
    apply (sort_desc_R_sorted (fun x : Z * R => snd x)).
Qed.

Lemma query_after_build_witness :
  exists l,
    search_index (generate_post_embeddings unit_encoder store_unbuilt db_two_posts).1.1
                 [1; 0] 5 = Returned l /\
    length l = Nat.min 5 (length (posts db_two_posts)) /\
    (forall pid sc, In (pid, sc) l ->
       exists post, In post (posts db_two_posts) /\ post_id post = pid) /\
    StronglySorted (fun a b => snd b <= snd a) l.
Proof.
  apply (query_after_build_answers_catalog unit_encoder store_unbuilt db_two_posts
           [[1; 0]; [1; 0]] [1; 0] 5); try reflexivity.
  - discriminate.
  - repeat constructor.
  - lia.
Defined.

(** X10.  Every score a query returns from an index built over a
    non-empty catalog from vectors of the manager's dimension, one per
    post, is a cosine similarity: it lies between -1 and 1, whatever the
    raw embeddings and the query vector were. *)
Theorem query_scores_are_cosines
    (encode : list string -> option (list vec)) (vs : VectorStore) (d : DB)
    (embeddings : list vec) (q : vec) (k : nat) (l : list (string * R)) :
  encode (map post_text (posts d)) = Some embeddings ->
  embeddings <> [] ->
  length embeddings = length (posts d) ->
  Forall (fun row => length row = embedding_dim vs) embeddings ->
  search_index (generate_post_embeddings encode vs d).1.1 q k = Returned l ->
  forall pid sc, In (pid, sc) l -> -1 <= sc <= 1.
Proof.
  intros Henc _ Hlen Hrows Hret.
  rewrite (search_index_built_inv encode vs d embeddings q k l Henc Hrows Hret).
  set (query := match normalize q with Some w => w | None => q end).
  assert (Hq : unit_norm query \/ is_zero query).
  { subst query. destruct (normalize_total q) as (w & -> & Hw). exact Hw. }
  assert (Hal : length (normalize_L2 embeddings) = length (map post_id (posts d))).
  { now rewrite normalize_L2_length, length_map. }
  destruct (search_on_aligned_index _ _ query k Hal) as (Heq & _ & Hrows').
  rewrite Heq.
  intros pid sc H. apply map_results_In in H as (idx & Hi & _).
  apply Hrows' in Hi as (row & Hrow & ->).
  apply cosine_bounds; [now apply normalize_L2_rows in Hrow | exact Hq].
Qed.

Lemma query_scores_witness :
  exists l,
    search_index (generate_post_embeddings unit_encoder store_unbuilt db_two_posts).1.1
                 [3; 4] 5 = Returned l /\
    forall pid sc, In (pid, sc) l -> -1 <= sc <= 1.
Proof.
  eexists. split.
  - apply (search_index_built unit_encoder store_unbuilt db_two_posts
             [[1; 0]; [1; 0]] [3; 4] 5); try reflexivity.
    + repeat constructor.
    + lia.
  - apply (query_scores_are_cosines unit_encoder store_unbuilt db_two_posts
             [[1; 0]; [1; 0]] [3; 4] 5); try reflexivity.
    + discriminate.
    + repeat constructor.
    + apply (search_index_built unit_encoder store_unbuilt db_two_posts
               [[1; 0]; [1; 0]] [3; 4] 5); try reflexivity.
      * repeat constructor.
      * lia.
Defined.
End VectorStoreProperties.

(** ** The scorer, continued *)

Section ScorerProperties.
Local Open Scope R_scope.

Lemma sort_desc_R_stable {A : Type} (key : A -> R) (s : R) (l : list A) :
  List.filter (fun x => Reqb (key x) s)
              (sort_desc (fun a b => Rltb (key a) (key b)) l)
  = List.filter (fun x => Reqb (key x) s) l.
Proof.
  induction l as [|x l IH]; simpl; [reflexivity|].
  rewrite <- IH. clear IH.
  generalize (sort_desc (fun a b => Rltb (key a) (key b)) l) as t.
  intros t. induction t as [|y t IH]; simpl; [reflexivity|].
  unfold Rltb at 1. destruct (Rlt_dec (key x) (key y)) as [Hlt|Hge]; simpl;
    [|reflexivity].
  rewrite IH. unfold Reqb.
  destruct (Req_dec_T (key x) s) as [Hx|Hx];
    destruct (Req_dec_T (key y) s) as [Hy|Hy]; try reflexivity.
  lra.
Qed.

(** X11.  The Scorer returns every candidate exactly once, paired with
    its score, in descending score order; candidates of equal score keep
    the order they came in. *)
Theorem score_candidates_sorted_permutation
    (d : DB) (uid : string) (candidates : list Post) :
  let out := score_candidates d uid candidates in
  Permutation out
    (map (fun post => (post, post_score (get_user d uid) post)) candidates) /\
  Permutation (map fst out) candidates /\
  StronglySorted (fun a b => snd b <= snd a) out /\
  (forall s,
     List.filter (fun x => Reqb (snd x) s) out
     = map (fun post => (post, post_score (get_user d uid) post))
           (List.filter (fun post => Reqb (post_score (get_user d uid) post) s)
                        candidates)).
Proof.
  intros out. subst out. unfold score_candidates.
  set (f := fun post => (post, post_score (get_user d uid) post)).
  assert (Hp : Permutation (sort_desc (fun x y => Rltb (snd x) (snd y)) (map f candidates))
                           (map f candidates)) by apply sort_desc_perm.
  split; [exact Hp|]. split.
  - rewrite Hp, map_map. simpl. now rewrite map_id.
  - split; [apply (sort_desc_R_sorted (fun x : Post * R => snd x))|].
    intros s.
    rewrite (sort_desc_R_stable (fun x : Post * R => snd x) s).
    clear Hp. subst f.
    induction candidates as [|p l IH]; simpl; [reflexivity|].
    destruct (Reqb (post_score (get_user d uid) p) s); simpl; now rewrite IH.
Qed.

Lemma dict_get_le_1 (m : list (string * R)) (k : string) :
  Forall (fun kv => snd kv <= 1) m -> dict_get m k <= 1.
Proof.
  induction 1 as [|[k' w] m Hw _ IH]; simpl; [lra|].
  destruct (String.eqb k' k); [exact Hw | exact IH].
Qed.

Lemma hours_old_nonneg (post : Post) :
  (forall h, post_age_hours post = Some h -> 0 <= h) -> 0 <= hours_old post.
Proof.
  intros H. unfold hours_old. destruct (post_age_hours post) as [h|]; [|lra].
  destruct (Req_dec_T h 0); [lra | now apply H].
Qed.

(** X12.  Freshness is never negative; a post whose age is a week (168
    hours) or more has freshness 0; a post with a positive age below a
    week has freshness 1 - age/168, strictly between 0 and 1. *)
Theorem freshness_decays_over_a_week (post : Post) :
  0 <= freshness_score post /\
  (forall h, post_age_hours post = Some h -> 168 <= h -> freshness_score post = 0) /\
  (forall h, post_age_hours post = Some h -> 0 < h < 168 ->
     freshness_score post = 1 - h / 168 /\ 0 < freshness_score post < 1).
Proof.
  unfold freshness_score, hours_old. split; [apply Rmax_l|]. split.
  - intros h -> Hh. destruct (Req_dec_T h 0); [lra|].
    apply Rmax_left. lra.
  - intros h -> Hh. destruct (Req_dec_T h 0); [lra|].
    rewrite Rmax_right by lra. lra.
Qed.

(** X13.  With a profile vector and an item embedding that are of unit
    norm (or zero, or absent), a non-negative or missing age and
    affinity weights of at most 1, no candidate scores above
    0.4 + 0.3 + 0.2 + 0.1 = 1. *)
Theorem post_score_at_most_one (user : option User) (post : Post) :
  (forall u ue, user = Some u -> user_embedding u = Some ue ->
                unit_norm ue \/ is_zero ue) ->
  (forall pe, embedding post = Some pe -> unit_norm pe \/ is_zero pe) ->
  (forall h, post_age_hours post = Some h -> 0 <= h) ->
  (forall u prefs, user = Some u -> preferred_subreddits u = Some prefs ->
                   Forall (fun kv => snd kv <= 1) prefs) ->
  post_score user post <= 1.
Proof.
  intros Hue Hpe Hage Hprefs. unfold post_score.
  assert (H1 : similarity_term user post <= 0.4).
  { unfold similarity_term. destruct user as [u|]; [|lra].
    destruct (user_embedding u) as [[|x ue]|] eqn:Eu; simpl; try lra.
    destruct (embedding post) as [[|y pe]|] eqn:Ep; simpl; try lra.
    pose proof (cosine_bounds (x :: ue) (y :: pe)
                  (Hue u _ eq_refl Eu) (Hpe _ eq_refl)) as Hc.
    simpl in Hc. lra. }
  assert (H2 : Rmin (engagement_score post) 1.0 <= 1).
  { pose proof (Rmin_r (engagement_score post) 1.0). lra. }
  assert (H3 : freshness_score post <= 1).
  { unfold freshness_score. pose proof (hours_old_nonneg post Hage).
    apply Rmax_lub; lra. }
  assert (H4 : subreddit_term user post <= 0.1).
  { unfold subreddit_term. destruct user as [u|]; [|lra].
    destruct (preferred_subreddits u) as [[|kv prefs]|] eqn:Ep; try lra.
    pose proof (dict_get_le_1 (kv :: prefs) (subreddit post)
                  (Hprefs u _ eq_refl Ep)). lra. }
  lra.
Qed.

Lemma post_score_witness :
  post_score (Some (user_row "u" (Some [1; 0]) None 0.5))
             (post_row "p" "r" 0 false true false None (Some [1; 0])) <= 1.
Proof.
  apply post_score_at_most_one.
  - intros u ue [= <-] [= <-]. left. exact unit_e1.
  - intros pe [= <-]. left. exact unit_e1.
  - intros h H. discriminate H.
  - intros u prefs [= <-] H. discriminate H.
Defined.

(** X14.  When the profile vector is exactly the item's unit-norm
    embedding, the similarity term of the score is exactly 0.4. *)
Theorem similarity_term_of_own_vector (u : User) (post : Post) (e : vec) :
  user_embedding u = Some e ->
  embedding post = Some e ->
  unit_norm e ->
  similarity_term (Some u) post = 0.4.
Proof.
  intros Hu Hp He. unfold similarity_term.
  rewrite Hu, Hp, (unit_norm_truthy e He), (unit_dot_self e He). lra.
Qed.

Lemma similarity_term_witness :
  similarity_term (Some (user_row "u" (Some [1; 0]) None 0.5))
                  (post_row "p" "r" 0 false true false None (Some [1; 0])) = 0.4.
Proof.
  apply (similarity_term_of_own_vector _ _ [1; 0]); try reflexivity.
  exact unit_e1.
Defined.
End ScorerProperties.

(** ** The diversifier, continued *)

Section DiversifierProperties.
Local Open Scope Z_scope.

Lemma greedy_loop_extends (num_items : Z) (scored : list (Post * R)) (st : Selection) :
  exists s, final_posts (greedy_loop num_items scored st) = final_posts st ++ s /\
            sublist s (map fst scored).
Proof.
  revert st. induction scored as [|[post sc] rest IH]; intros st; simpl.
  - exists []. split; [now rewrite app_nil_r | constructor].
  - assert (Hskip : exists s,
              final_posts (greedy_loop num_items rest st) = final_posts st ++ s /\
              sublist s (post :: map fst rest)).
    { destruct (IH st) as (s & Hs & Hsub). exists s. split; [exact Hs|].
      now apply sublist_cons. }
    destruct (judge num_items st post); try exact Hskip.
    case_bool_decide as Hfull.
    + exists [post]. split; [reflexivity|].
      apply sublist_skip, sublist_nil_l.
    + destruct (IH (accept st post)) as (s & Hs & Hsub).
      exists (post :: s). split.
      * rewrite Hs. simpl. now rewrite <- app_assoc.
      * now apply sublist_skip.
Qed.

Lemma count_subreddit_app (s : string) (a b : list Post) :
  count_subreddit s (a ++ b) = (count_subreddit s a + count_subreddit s b)%nat.
Proof. unfold count_subreddit. now rewrite List.filter_app, length_app. Qed.

Lemma count_content_type_app (c : string) (a b : list Post) :
  count_content_type c (a ++ b)
  = (count_content_type c a + count_content_type c b)%nat.
Proof. unfold count_content_type. now rewrite List.filter_app, length_app. Qed.

Lemma judge_small_never_accepts (num_items : Z) (st : Selection) (post : Post) :
  counts_agree st -> num_items < 2 -> judge num_items st post <> Accept.
Proof.
  intros Ha Hn Hj. pose proof (judge_spec num_items st post Ha) as Hspec.
  rewrite Hj in Hspec. destruct Hspec as (_ & Hc & _).
  Z.div_mod_to_equations. lia.
Qed.

Lemma greedy_loop_small (num_items : Z) (scored : list (Post * R)) (st : Selection) :
  counts_agree st -> num_items < 2 -> greedy_loop num_items scored st = st.
Proof.
  intros Ha Hn. induction scored as [|[post sc] rest IH]; simpl; [reflexivity|].
  pose proof (judge_small_never_accepts num_items st post Ha Hn) as Hj.
  destruct (judge num_items st post); congruence.
Qed.

(** Whoever the loop passes over while the list is still short is held
    back by one of the three rules, and the rule still holds at the end. *)
Lemma greedy_loop_maximal (num_items : Z) (scored : list (Post * R)) (st : Selection) :
  counts_agree st ->
  Z.of_nat (length (final_posts (greedy_loop num_items scored st))) < num_items ->
  forall p, In p (map fst scored) -> nsfw p = false ->
    In p (final_posts (greedy_loop num_items scored st)) \/
    (2 <= count_subreddit (subreddit p)
            (final_posts (greedy_loop num_items scored st)))%nat \/
    num_items `div` 2
      <= Z.of_nat (count_content_type (content_type p)
                     (final_posts (greedy_loop num_items scored st))).
Proof.
  revert st. induction scored as [|[post sc] rest IH]; intros st Ha Hlen p Hp Hsafe;
    simpl in *; [contradiction|].
  pose proof (judge_spec num_items st post Ha) as Hspec.
  assert (Hrest : forall st', counts_agree st' ->
            Z.of_nat (length (final_posts (greedy_loop num_items rest st'))) < num_items ->
            In p (map fst rest) ->
            In p (final_posts (greedy_loop num_items rest st')) \/
            (2 <= count_subreddit (subreddit p)
                    (final_posts (greedy_loop num_items rest st')))%nat \/
            num_items `div` 2
              <= Z.of_nat (count_content_type (content_type p)
                             (final_posts (greedy_loop num_items rest st')))).
  { intros st' Ha' Hl' Hin. now apply IH. }
  destruct (judge num_items st post) eqn:Hj.
  - destruct Hp as [<-|Hp]; [|now apply Hrest].
    destruct (greedy_loop_extends num_items rest st) as (s & Hs & _).
    right. left. rewrite Hs, count_subreddit_app. lia.
  - destruct Hp as [<-|Hp]; [|now apply Hrest].
    destruct (greedy_loop_extends num_items rest st) as (s & Hs & _).
    right. right. rewrite Hs, count_content_type_app. lia.
  - destruct Hp as [<-|Hp]; [|now apply Hrest].
    destruct Hspec as (_ & _ & Hn). congruence.
  - case_bool_decide as Hfull; [simpl in Hlen; lia|].
    destruct Hp as [<-|Hp].
    + destruct (greedy_loop_extends num_items rest (accept st post)) as (s & Hs & _).
      left. rewrite Hs. simpl. apply in_or_app. left. apply in_or_app. right. now left.
    + apply Hrest; auto. now apply counts_agree_accept.
Qed.

Lemma py_int_small (x : R) : (0 <= x < 1)%R -> py_int x = 0.
Proof.
  intros Hx. unfold py_int. destruct (Rle_dec 0 x) as [_|H]; [|lra].
  symmetry. apply Int_part_spec. simpl. lra.
Qed.

(** X15.  The list the greedy pass accepts is a subsequence of the
    score-sorted candidates: it keeps their order and invents no post. *)
Theorem greedy_pass_is_subsequence (num_items : Z) (scored : list (Post * R)) :
  sublist (greedy_pass num_items scored) (map fst scored).
Proof.
  unfold greedy_pass.
  destruct (greedy_loop_extends num_items scored selection_start) as (s & -> & Hs).
  exact Hs.
Qed.

(** X16.  The Diversifier never returns more than [num_items] posts, and
    for [num_items] below 2 (a feed of one item included) it returns
    nothing at all, because the content-type cap [num_items // 2] is then
    at most 0. *)
Theorem diversifier_length_and_small_requests
    (e : Env) (d : DB) (scored : list (Post * R)) (uid : string) (num_items : Z) :
  Z.of_nat (length (apply_business_rules e d scored uid num_items))
    <= Z.max 0 num_items /\
  (num_items < 2 -> apply_business_rules e d scored uid num_items = []).
Proof.
  split.
  - unfold apply_business_rules.
    destruct (_ && _); [rewrite substitute_length|]; apply greedy_pass_length.
  - intros Hn. unfold apply_business_rules, greedy_pass.
    rewrite (greedy_loop_small num_items scored selection_start
               counts_agree_start Hn). simpl.
    repeat case_bool_decide; simpl; try reflexivity. lia.
Qed.

(** X17.  When the product of [num_items] and the user's exploration
    rate is below 1 (an exploration rate of 0 included), no substitution
    takes place: the returned list is the accepted list, so it holds at
    most 2 posts of a subreddit, at most [num_items // 2] posts of a
    content type and no NSFW post. *)
Theorem no_exploration_keeps_caps
    (e : Env) (d : DB) (scored : list (Post * R)) (uid : string)
    (user : User) (num_items : Z) :
  get_user d uid = Some user ->
  (0 <= IZR num_items * exploration_rate user < 1)%R ->
  apply_business_rules e d scored uid num_items = greedy_pass num_items scored /\
  within_caps num_items (apply_business_rules e d scored uid num_items).
Proof.
  intros Hu Hr.
  assert (E : apply_business_rules e d scored uid num_items
              = greedy_pass num_items scored).
  { unfold apply_business_rules, num_exploration_of. rewrite Hu.
    rewrite (py_int_small _ Hr).
    now rewrite (bool_decide_eq_false_2 (0 < 0)) by lia. }
  split; [exact E|]. rewrite E. apply greedy_pass_within_caps.
Qed.

Lemma no_exploration_witness :
  let a := post_row "a" "r1" 0 false true false None None in
  let cautious := {| posts := [a]; users := [user_row "u" None None 0];
                     interactions := [] |} in
  apply_business_rules plain_env cautious [(a, 1%R)] "u" 4
    = greedy_pass 4 [(a, 1%R)] /\
  within_caps 4 (apply_business_rules plain_env cautious [(a, 1%R)] "u" 4).
Proof.
  intros a cautious.
  apply (no_exploration_keeps_caps plain_env cautious [(a, 1%R)] "u"
           (user_row "u" None None 0) 4).
  - reflexivity.
  - simpl. lra.
Defined.

(** X18.  The greedy pass is maximal: when it ends with fewer than
    [num_items] posts, every candidate that is not flagged NSFW is
    either in the accepted list or blocked by it, its subreddit already
    holding 2 accepted posts or its content type [num_items // 2]. *)
Theorem greedy_pass_maximal (num_items : Z) (scored : list (Post * R)) (p : Post) :
  Z.of_nat (length (greedy_pass num_items scored)) < num_items ->
  In p (map fst scored) ->
  nsfw p = false ->
  In p (greedy_pass num_items scored) \/
  (2 <= count_subreddit (subreddit p) (greedy_pass num_items scored))%nat \/
  num_items `div` 2
    <= Z.of_nat (count_content_type (content_type p) (greedy_pass num_items scored)).
Proof.
  unfold greedy_pass. intros Hlen Hp Hsafe.
  now apply greedy_loop_maximal; [apply counts_agree_start | | |].
Qed.

Lemma greedy_pass_maximal_witness :
  let a := post_row "a" "r1" 0 false true false None None in
  let b := post_row "b" "r2" 0 false true false None None in
  In b (greedy_pass 3 [(a, 1%R); (b, 0%R)]) \/
  (2 <= count_subreddit (subreddit b) (greedy_pass 3 [(a, 1%R); (b, 0%R)]))%nat \/
  3 `div` 2
    <= Z.of_nat (count_content_type (content_type b)
                   (greedy_pass 3 [(a, 1%R); (b, 0%R)])).
Proof.
  intros a b.
  apply (greedy_pass_maximal 3 [(a, 1%R); (b, 0%R)] b).
  - vm_compute. reflexivity.
  - right. left. reflexivity.
  - reflexivity.
Defined.
End DiversifierProperties.

(** ** Exploration and the pipeline as a whole *)

Section PipelineProperties.

(** X8.  What the Diversifier does keep: the list its greedy loop accepts
    holds at most 2 items of any one category and no item flagged NSFW;
    the exploration step keeps the length of that list and leaves every
    position before the tail segment as accepted; a position it overwrites
    holds a post of the catalog. *)
Theorem greedy_pass_caps_and_safety
    (e : Env) (d : DB) (scored_posts : list (Post * R)) (uid : string)
    (num_items : Z) :
  env_ok e ->
  let accepted := greedy_pass num_items scored_posts in
  let out := apply_business_rules e d scored_posts uid num_items in
  (forall s, count_subreddit s accepted <= 2) /\
  Forall (fun p => nsfw p = false) accepted /\
  length out = length accepted /\
  (forall i p, out !! i = Some p -> accepted !! i = Some p \/ In p (posts d)) /\
  (forall i,
     i < length accepted - Z.to_nat (num_exploration_of d uid num_items) ->
     out !! i = accepted !! i).
Proof.
  intros Hok accepted out.
  destruct (greedy_pass_within_caps num_items scored_posts) as (Hs & _ & Hn).
  split; [exact Hs|]. split; [exact Hn|].
  exact (exploration_shape e d scored_posts uid num_items Hok).
Qed.

Lemma greedy_pass_caps_and_safety_witness :
  let a := post_row "a" "r1" 0 false true false None None in
  let b := post_row "b" "r2" 0 false false false None None in
  let accepted := greedy_pass 2 [(a, 2%R); (b, 1%R)] in
  let out := apply_business_rules plain_env db_unsafe_catalog
               [(a, 2%R); (b, 1%R)] "nobody" 2 in
  (forall s, count_subreddit s accepted <= 2) /\
  Forall (fun p => nsfw p = false) accepted /\
  length out = length accepted /\
  (forall i p, out !! i = Some p ->
               accepted !! i = Some p \/ In p (posts db_unsafe_catalog)) /\
  (forall i,
     i < length accepted - Z.to_nat (num_exploration_of db_unsafe_catalog "nobody" 2) ->
     out !! i = accepted !! i).
Proof.
  intros a b.
  apply (greedy_pass_caps_and_safety plain_env db_unsafe_catalog
           [(a, 2%R); (b, 1%R)] "nobody" 2).
  exact plain_env_ok.
Defined.

Lemma substitute_not_hit (pairs : list (nat * Post)) (final : list Post) (i : nat) :
  ~ In i (map fst pairs) -> substitute final pairs !! i = final !! i.
Proof.
  revert final. induction pairs as [|[idx x] rest IH]; intros final Hni; simpl;
    [reflexivity|].
  simpl in Hni.
  case_bool_decide; rewrite IH by tauto; [|reflexivity].
  apply list_lookup_insert_ne. tauto.
Qed.

Lemma substitute_hit (pairs : list (nat * Post)) (final : list Post) (i : nat) :
  In i (map fst pairs) -> i < length final ->
  exists p, substitute final pairs !! i = Some p /\ In p (map snd pairs).
Proof.
  revert final. induction pairs as [|[idx x] rest IH]; intros final Hin Hi; simpl in *;
    [contradiction|].
  destruct (in_dec Nat.eq_dec i (map fst rest)) as [Hrest|Hrest].
  - case_bool_decide.
    + destruct (IH (<[idx:=x]> final) Hrest) as (p & Hp & Hq);
        [now rewrite length_insert | eauto].
    + destruct (IH final Hrest Hi) as (p & Hp & Hq). eauto.
  - destruct Hin as [->|Hin]; [|contradiction].
    rewrite bool_decide_eq_true_2 by exact Hi.
    rewrite substitute_not_hit by exact Hrest.
    rewrite list_lookup_insert_eq by exact Hi. eauto.
Qed.

Lemma map_fst_combine {B C : Type} (a : list B) (b : list C) :
  length a = length b -> map fst (combine a b) = a.
Proof.
  revert b. induction a as [|x a IH]; intros [|y b] H; simpl in *;
    try discriminate; [reflexivity|].
  f_equal. apply IH. lia.
Qed.

Lemma similarity_candidates_In (d : DB) (seen : gset string)
    (similar : list (string * R)) (p : Post) :
  In p (similarity_candidates d seen similar) -> In p (posts d).
Proof.
  induction similar as [|[pid sc] rest IH]; simpl; [contradiction|].
  case_bool_decide as Hseen; [exact IH|].
  destruct (get_post d pid) as [post|] eqn:E; [|exact IH].
  intros [<-|Hin]; [now apply get_post_In in E | now apply IH].
Qed.

Lemma get_candidates_In (e : Env) (d : DB) (uid : string) (n : nat) (p : Post) :
  env_ok e -> In p (get_candidates e d uid n) -> In p (posts d).
Proof.
  intros [Horder _]. unfold get_candidates.
  destruct (get_user d uid) as [user|].
  - intros H. apply In_firstn in H. apply unique_candidates_In in H as [H _].
    repeat (apply in_app_or in H as [H|H]).
    + destruct (truthy (user_embedding user)); [|contradiction].
      now apply similarity_candidates_In in H.
    + unfold trending_candidates in H. apply In_firstn in H.
      apply sort_desc_In in H. now apply filter_In in H as [H _].
    + unfold subreddit_candidates in H.
      destruct (preferred_subreddits user) as [[|kv items]|]; try contradiction.
      apply in_flat_map in H as (sw & _ & H). apply In_firstn in H.
      unfold order_by_score_desc in H. apply sort_desc_In in H.
      apply in_rev in H.
      now apply filter_In in H as [H _].
    + unfold exploration_candidates in H. apply In_firstn in H.
      apply (Permutation_in _ (Horder _)) in H. now apply filter_In in H as [H _].
  - intros H. apply In_firstn in H. unfold order_by_score_desc in H.
    now apply sort_desc_In in H.
Qed.

(** X19.  When the exploration step fires and the catalog holds at least
    [num_exploration] posts, every position of the tail segment is
    overwritten: each of the last [num_exploration] entries of the
    returned list is one of the posts of the random draw. *)
Theorem exploration_overwrites_whole_tail
    (e : Env) (d : DB) (scored : list (Post * R)) (uid : string) (num_items : Z) :
  env_ok e ->
  let accepted := greedy_pass num_items scored in
  let n := Z.to_nat (num_exploration_of d uid num_items) in
  (0 < num_exploration_of d uid num_items < Z.of_nat (length accepted))%Z ->
  n <= length (posts d) ->
  forall i, length accepted - n <= i < length accepted ->
    exists p, apply_business_rules e d scored uid num_items !! i = Some p /\
              In p (firstn n (random_order e (posts d))).
Proof.
  intros [Horder Hsample] accepted n Hfire Hcat i Hi.
  unfold apply_business_rules. fold accepted. fold n.
  rewrite !bool_decide_eq_true_2 by lia. simpl.
  destruct (Hsample (seq (length accepted - n) n) n) as (l' & Hperm & Heq).
  assert (Hl' : length l' = n).
  { rewrite (Permutation_length Hperm). apply length_seq. }
  assert (Hidx : random_sample e (seq (length accepted - n) n) n = l').
  { rewrite Heq, <- Hl'. apply firstn_all. }
  rewrite Hidx.
  set (drawn := firstn n (random_order e (posts d))).
  assert (Hdrawn : length drawn = n).
  { subst drawn. rewrite length_firstn, (Permutation_length (Horder _)). lia. }
  destruct (substitute_hit (combine l' drawn) accepted i) as (p & Hp & Hq).
  - rewrite map_fst_combine by congruence.
    apply (Permutation_in _ (Permutation_sym Hperm)), in_seq. lia.
  - lia.
  - exists p. split; [exact Hp|].
    apply in_map_iff in Hq as ([idx q] & <- & Hin). simpl.
    now apply in_combine_r in Hin.
Qed.

Lemma exploration_overwrites_tail_witness :
  let a := post_row "a" "r1" 0 false true false None None in
  let b := post_row "b" "r2" 0 false false false None None in
  let scored := [(a, 2%R); (b, 1%R)] in
  exists p, apply_business_rules plain_env db_unsafe_catalog scored "nobody" 2 !! 1
            = Some p /\
            In p (firstn (Z.to_nat (num_exploration_of db_unsafe_catalog "nobody" 2))
                         (random_order plain_env (posts db_unsafe_catalog))).
Proof.
  intros a b scored.
  assert (E : num_exploration_of db_unsafe_catalog "nobody" 2 = 1%Z)
    by exact (num_exploration_no_user db_unsafe_catalog "nobody" 1 eq_refl).
  assert (Hg : length (greedy_pass 2 scored) = 2) by (vm_compute; reflexivity).
  apply (exploration_overwrites_whole_tail plain_env db_unsafe_catalog scored
           "nobody" 2 plain_env_ok).
  - rewrite E, Hg. lia.
  - rewrite E. simpl. lia.
  - rewrite E, Hg. simpl. lia.
Defined.

(** X20.  For every user, known or not, the feed holds only posts of the
    catalog and never more than [num_items] of them. *)
Theorem recommendations_come_from_catalog
    (e : Env) (d : DB) (uid : string) (num_items : Z) :
  env_ok e ->
  (forall p, In p (get_recommendations e d uid num_items) -> In p (posts d)) /\
  (Z.of_nat (length (get_recommendations e d uid num_items)) <= Z.max 0 num_items)%Z.
Proof.
  intros Hok. unfold get_recommendations.
  destruct (get_candidates e d uid 100) as [|c cs] eqn:Epool.
  - split; [contradiction | simpl; lia].
  - set (scored := score_candidates d uid (c :: cs)).
    destruct (exploration_shape e d scored uid num_items Hok) as (Hl & Hlook & _).
    split.
    + intros p Hp. apply list_elem_of_In, list_elem_of_lookup in Hp as [i Hi].
      apply Hlook in Hi as [Hi|Hi]; [|exact Hi].
      assert (Hin : In p (greedy_pass num_items scored)).
      { apply list_elem_of_In, list_elem_of_lookup. eauto. }
      apply greedy_pass_In, in_map_iff in Hin as ([q sc] & <- & Hq). simpl.
      apply score_candidates_In in Hq as [Hq _]. rewrite <- Epool in Hq.
      now apply (get_candidates_In e d uid 100).
    + rewrite Hl. apply greedy_pass_length.
Qed.

Lemma recommendations_witness :
  (forall p, In p (get_recommendations plain_env db_known_user "u" 10) ->
             In p (posts db_known_user)) /\
  (Z.of_nat (length (get_recommendations plain_env db_known_user "u" 10))
   <= Z.max 0 10)%Z.
Proof.
  apply (recommendations_come_from_catalog plain_env db_known_user "u" 10).
  exact plain_env_ok.
Defined.

Lemma unique_candidates_first (l : list Post) (seen : gset string) (p : Post) :
  In p l -> post_id p ∉ seen ->
  exists q, find (fun x => String.eqb (post_id x) (post_id p)) l = Some q /\
            In q (unique_candidates seen l).
Proof.
  revert seen. induction l as [|x l IH]; intros seen Hp Hns; simpl in *; [contradiction|].
  destruct (String.eqb_spec (post_id x) (post_id p)) as [Hx|Hx].
  - exists x. split; [reflexivity|].
    rewrite bool_decide_eq_false_2 by (rewrite Hx; exact Hns). now left.
  - destruct Hp as [->|Hp]; [congruence|].
    case_bool_decide.
    + now apply IH.
    + destruct (IH ({[post_id x]} ∪ seen) Hp) as (q & Hq & Hin).
      * intros Hc. apply elem_of_union in Hc as [Hc|Hc]; [|contradiction].
        apply elem_of_singleton in Hc. congruence.
      * exists q. split; [exact Hq | now right].
Qed.

Lemma unique_candidates_sublist (l : list Post) (seen : gset string) :
  sublist (unique_candidates seen l) l.
Proof.
  revert seen. induction l as [|x l IH]; intros seen; simpl; [constructor|].
  case_bool_decide; [apply sublist_cons | apply sublist_skip]; apply IH.
Qed.

(** X21.  Deduplication of the combined strategies loses no post id and
    keeps the first occurrence: the result is a subsequence of the
    combined list, and for every post of that list the first post
    carrying its id is in the result. *)
Theorem deduplication_keeps_first_occurrence (l : list Post) :
  sublist (unique_candidates ∅ l) l /\
  forall p, In p l ->
    exists q, find (fun x => String.eqb (post_id x) (post_id p)) l = Some q /\
              In q (unique_candidates ∅ l).
Proof.
  split; [apply unique_candidates_sublist|].
  intros p Hp. apply unique_candidates_first; [exact Hp | apply not_elem_of_empty].
Qed.
End PipelineProperties.

(** ** The API *)

Section ApiProperties.
Local Open Scope R_scope.

Lemma known_user_pool_unseen (e : Env) (d : DB) (uid : string) (user : User)
    (n : nat) (p : Post) :
  env_ok e -> get_user d uid = Some user ->
  In p (get_candidates e d uid n) -> post_id p ∉ seen_post_ids d uid.
Proof.
  intros Hok Hu. unfold get_candidates. rewrite Hu. intros Hp.
  apply In_firstn in Hp. apply unique_candidates_In in Hp as [Hp _].
  repeat (apply in_app_or in Hp as [Hp|Hp]).
  - destruct (truthy (user_embedding user)); [|contradiction].
    eapply similarity_candidates_unseen, Hp.
  - eapply trending_candidates_unseen, Hp.
  - eapply subreddit_candidates_unseen, Hp.
  - eapply exploration_candidates_unseen; [exact Hok | exact Hp].
Qed.

Lemma bump_stats_total (s : UserStats) (ty : string) (seconds : R) :
  (0 <= total_interactions s)%Z -> exists s', bump_stats s ty seconds = Some s'.
Proof.
  intros H. unfold bump_stats. destruct (Rgt_dec seconds 0); [|eauto].
  destruct (Z.eqb_spec (total_interactions s + 1) 0); [lia | eauto].
Qed.

Lemma running_mean_between (a t m : R) :
  1 <= m ->
  Rmin a t <= (a * (m - 1) + t) / m <= Rmax a t.
Proof.
  intros Hm.
  assert (Hinv : 0 < / m) by (apply Rinv_0_lt_compat; lra).
  assert (E : (a * (m - 1) + t) / m = a + (t - a) * / m) by (field; lra).
  rewrite E.
  assert (Hle : / m <= 1).
  { rewrite <- Rinv_1. apply Rinv_le_contravar; lra. }
  unfold Rmin, Rmax. destruct (Rle_dec a t) as [Hat|Hat].
  - assert (0 <= (t - a) * / m) by (apply Rmult_le_pos; lra).
    assert ((t - a) * / m <= (t - a) * 1) by (apply Rmult_le_compat_l; lra).
    lra.
  - assert (0 <= (a - t) * / m) by (apply Rmult_le_pos; lra).
    assert ((a - t) * / m <= (a - t) * 1) by (apply Rmult_le_compat_l; lra).
    replace ((t - a) * / m) with (- ((a - t) * / m)) by ring.
    lra.
Qed.

Lemma bump_stats_fields (s s' : UserStats) (ty : string) (seconds : R) :
  bump_stats s ty seconds = Some s' ->
  total_interactions s' = (total_interactions s + 1)%Z /\
  total_likes s'
  = (if String.eqb ty "like" then total_likes s + 1 else total_likes s)%Z /\
  total_dislikes s'
  = (if String.eqb ty "like" then total_dislikes s
     else if String.eqb ty "dislike" then total_dislikes s + 1
          else total_dislikes s)%Z.
Proof.
  unfold bump_stats. destruct (Rgt_dec seconds 0).
  - destruct (total_interactions s + 1 =? 0)%Z; [discriminate|].
    intros [= <-]. simpl. auto.
  - intros [= <-]. simpl. auto.
Qed.

Lemma counters_fit_in_range (s s' : UserStats) (ty : string) (seconds : R) :
  counters_in_range s ->
  bump_stats s ty seconds = Some s' ->
  counters_fit s' ty = true.
Proof.
  intros (Hn & Hl & Hd) Hb.
  destruct (bump_stats_fields s s' ty seconds Hb) as (En & El & Ed).
  unfold counters_fit, fits_int64. rewrite En, El, Ed.
  change (2 ^ 63)%Z with 9223372036854775808%Z in *.
  apply andb_true_intro. split.
  - apply andb_true_intro. split; apply Z.leb_le; lia.
  - destruct (String.eqb ty "like").
    + apply andb_true_intro. split; apply Z.leb_le; lia.
    + destruct (String.eqb ty "dislike"); [|reflexivity].
      apply andb_true_intro. split; apply Z.leb_le; lia.
Qed.

(** The handler returns for a registered user and an existing post when
    the user's counters are in range and the two vectors the online
    update combines have the dimension of the manager. *)
Lemma submit_feedback_returns
    (dim : nat) (app : App) (feedback : FeedbackRequest) (u : User) (p : Post) :
  get_user (db app) (f_user_id feedback) = Some u ->
  get_post (db app) (f_post_id feedback) = Some p ->
  counters_in_range (stats_of app (f_user_id feedback)) ->
  has_dim dim (user_embedding u) ->
  has_dim dim (embedding p) ->
  exists s' d2,
    bump_stats (stats_of app (f_user_id feedback))
               (f_interaction_type feedback) (f_time_spent feedback) = Some s' /\
    update_user_embedding_online dim
      {| posts := posts (db app); users := users (db app);
         interactions :=
           interactions (db app)
           ++ [{| i_user_id := f_user_id feedback; i_post_id := f_post_id feedback;
                  interaction_type := f_interaction_type feedback;
                  time_spent := f_time_spent feedback |}] |}
      (f_user_id feedback) (f_post_id feedback) (f_interaction_type feedback) 0.1
    = Some d2 /\
    submit_feedback dim app feedback
    = (Returned tt,
       {| db := d2;
          user_stats := <[f_user_id feedback := s']> (user_stats app);
          usernames := usernames app |}).
Proof.
  intros Hu Hp Hr Hdu Hdp.
  destruct (bump_stats_total (stats_of app (f_user_id feedback))
              (f_interaction_type feedback) (f_time_spent feedback))
    as [s' Hs']; [apply Hr|].
  pose proof (counters_fit_in_range _ _ _ _ Hr Hs') as Hfit.
  set (d1 := {| posts := posts (db app); users := users (db app);
                interactions := interactions (db app) ++ [_] |}).
  destruct (online_update_total dim d1 (f_user_id feedback) (f_post_id feedback)
              (f_interaction_type feedback) 0.1) as [d2 Hd2].
  { intros user Hget. change (get_user d1 (f_user_id feedback))
      with (get_user (db app) (f_user_id feedback)) in Hget.
    rewrite Hu in Hget. injection Hget as <-. exact Hdu. }
  { intros post Hget. change (get_post d1 (f_post_id feedback))
      with (get_post (db app) (f_post_id feedback)) in Hget.
    rewrite Hp in Hget. injection Hget as <-. exact Hdp. }
  exists s', d2. split; [exact Hs'|]. split; [exact Hd2|].
  unfold submit_feedback. rewrite Hu, Hp, Hs', Hfit. fold d1. now rewrite Hd2.
Qed.

(** X22.  Feedback from a registered user on an existing post, with the
    user's counters in range and the stored vectors of the manager's
    dimension, is accepted: it is appended to the interaction log, leaves
    the posts as they are, and from then on keeps that post out of the
    user's candidate pool. *)
Theorem feedback_hides_post
    (dim : nat) (app : App) (feedback : FeedbackRequest) (u : User) (p : Post) :
  get_user (db app) (f_user_id feedback) = Some u ->
  get_post (db app) (f_post_id feedback) = Some p ->
  counters_in_range (stats_of app (f_user_id feedback)) ->
  has_dim dim (user_embedding u) ->
  has_dim dim (embedding p) ->
  exists app',
    submit_feedback dim app feedback = (Returned tt, app') /\
    posts (db app') = posts (db app) /\
    interactions (db app')
    = interactions (db app)
      ++ [{| i_user_id := f_user_id feedback; i_post_id := f_post_id feedback;
             interaction_type := f_interaction_type feedback;
             time_spent := f_time_spent feedback |}] /\
    forall e n q, env_ok e ->
      In q (get_candidates e (db app') (f_user_id feedback) n) ->
      post_id q <> f_post_id feedback.
Proof.
  intros Hu Hp Hr Hdu Hdp.
  destruct (submit_feedback_returns dim app feedback u p Hu Hp Hr Hdu Hdp)
    as (s' & d2 & _ & Hd2 & ->).
  set (i := {| i_user_id := f_user_id feedback; i_post_id := f_post_id feedback;
               interaction_type := f_interaction_type feedback;
               time_spent := f_time_spent feedback |}) in *.
  set (d1 := {| posts := posts (db app); users := users (db app);
                interactions := interactions (db app) ++ [i] |}) in *.
  apply online_update_normalised in Hd2.
  assert (Hshape : d2 = d1 \/ exists v, d2 = put_embedding d1 (f_user_id feedback) v).
  { destruct Hd2 as [[_ ->]|(u0 & p0 & e0 & v & _ & _ & _ & -> & _)]; eauto. }
  clear Hd2.
  eexists. split; [reflexivity|]. simpl.
  assert (Hposts : posts d2 = posts (db app))
    by (destruct Hshape as [->|[v ->]]; reflexivity).
  assert (Hints : interactions d2 = interactions (db app) ++ [i])
    by (destruct Hshape as [->|[v ->]]; reflexivity).
  assert (Huser : exists u', get_user d2 (f_user_id feedback) = Some u').
  { destruct Hshape as [->|[v ->]]; [exists u; exact Hu|].
    eexists. apply get_user_put. exact Hu. }
  split; [exact Hposts|]. split; [exact Hints|].
  intros e n q Hok Hq Hid. destruct Huser as [u' Hu'].
  apply (known_user_pool_unseen e d2 _ u' n q Hok Hu') in Hq.
  apply Hq. rewrite Hid. apply seen_post_ids_spec.
  exists i. rewrite Hints. split; [apply in_or_app; right; now left|].
  split; reflexivity.
Qed.

Lemma counters_in_range_default : counters_in_range default_stats.
Proof.
  unfold counters_in_range, default_stats. simpl.
  change (2 ^ 63)%Z with 9223372036854775808%Z. lia.
Qed.

Lemma feedback_hides_post_witness :
  let feedback := {| f_user_id := "u"; f_post_id := "b";
                     f_interaction_type := "skip"; f_time_spent := 0 |} in
  exists app',
    submit_feedback 2 app_known_user feedback = (Returned tt, app') /\
    posts (db app') = posts (db app_known_user) /\
    interactions (db app')
    = interactions (db app_known_user)
      ++ [{| i_user_id := "u"; i_post_id := "b";
             interaction_type := "skip"; time_spent := 0 |}] /\
    forall e n q, env_ok e ->
      In q (get_candidates e (db app') "u" n) -> post_id q <> "b"%string.
Proof.
  intros feedback.
  apply (feedback_hides_post 2 app_known_user feedback
           (user_row "u" None None 0.5)
           (post_row "b" "r2" 3 false true false None None)).
  - reflexivity.
  - reflexivity.
  - exact counters_in_range_default.
  - intros v Hv. discriminate Hv.
  - intros v Hv. discriminate Hv.
Defined.

(** X23.  Accepted feedback (registered user, existing post, a total
    count below the end of the 64-bit range, stored vectors of the
    manager's dimension) raises the user's interaction count by one and
    leaves likes plus dislikes within it; a positive reading time moves
    the running average to a value between the old average and the new
    reading time, a zero one leaves it alone; nobody else's counters
    change. *)
Theorem feedback_keeps_counters
    (dim : nat) (app : App) (feedback : FeedbackRequest) (u : User) (p : Post) :
  get_user (db app) (f_user_id feedback) = Some u ->
  get_post (db app) (f_post_id feedback) = Some p ->
  stats_ok (stats_of app (f_user_id feedback)) ->
  (total_interactions (stats_of app (f_user_id feedback)) < 2 ^ 63 - 1)%Z ->
  has_dim dim (user_embedding u) ->
  has_dim dim (embedding p) ->
  exists app',
    submit_feedback dim app feedback = (Returned tt, app') /\
    let s := stats_of app (f_user_id feedback) in
    let s' := stats_of app' (f_user_id feedback) in
    total_interactions s' = (total_interactions s + 1)%Z /\
    stats_ok s' /\
    (f_time_spent feedback > 0 ->
       Rmin (avg_read_time s) (f_time_spent feedback) <= avg_read_time s'
       <= Rmax (avg_read_time s) (f_time_spent feedback)) /\
    (~ f_time_spent feedback > 0 -> avg_read_time s' = avg_read_time s) /\
    (forall uid', uid' <> f_user_id feedback ->
       stats_of app' uid' = stats_of app uid').
Proof.
  intros Hu Hp (Hl & Hd & Hsum) Hmax Hdu Hdp.
  assert (Hr : counters_in_range (stats_of app (f_user_id feedback))).
  { unfold counters_in_range.
    change (2 ^ 63)%Z with 9223372036854775808%Z in *. lia. }
  destruct (submit_feedback_returns dim app feedback u p Hu Hp Hr Hdu Hdp)
    as (s' & d2 & Hb & _ & ->).
  set (s := stats_of app (f_user_id feedback)) in *.
  eexists. split; [reflexivity|].
  assert (Hs' : stats_of {| db := d2;
                            user_stats := <[f_user_id feedback := s']> (user_stats app);
                            usernames := usernames app |}
                         (f_user_id feedback) = s').
  { unfold stats_of. simpl. now rewrite lookup_insert_eq. }
  rewrite Hs'.
  assert (Hother : forall uid', uid' <> f_user_id feedback ->
            stats_of {| db := d2;
                        user_stats := <[f_user_id feedback := s']> (user_stats app);
                        usernames := usernames app |}
                     uid' = stats_of app uid').
  { intros uid' Hne. unfold stats_of. simpl.
    now rewrite lookup_insert_ne by congruence. }
  assert (Hok : forall likes dislikes avg,
            likes = (if String.eqb (f_interaction_type feedback) "like"
                     then total_likes s + 1 else total_likes s)%Z ->
            dislikes = (if String.eqb (f_interaction_type feedback) "like"
                        then total_dislikes s
                        else if String.eqb (f_interaction_type feedback) "dislike"
                             then total_dislikes s + 1 else total_dislikes s)%Z ->
            stats_ok {| total_interactions := total_interactions s + 1;
                        total_likes := likes; total_dislikes := dislikes;
                        avg_read_time := avg |}).
  { intros likes dislikes avg -> ->. unfold stats_ok. simpl.
    destruct (String.eqb (f_interaction_type feedback) "like");
      [|destruct (String.eqb (f_interaction_type feedback) "dislike")]; lia. }
  unfold bump_stats in Hb.
  destruct (Rgt_dec (f_time_spent feedback) 0) as [Ht|Ht].
  - destruct (Z.eqb_spec (total_interactions s + 1) 0) as [E|E]; [discriminate|].
    injection Hb as <-. simpl.
    split; [reflexivity|]. split; [now apply Hok|].
    split; [|split; [contradiction | exact Hother]].
    intros _. rewrite minus_IZR. apply running_mean_between.
    apply IZR_le. lia.
  - injection Hb as <-. simpl.
    split; [reflexivity|]. split; [now apply Hok|].
    split; [contradiction|]. split; [reflexivity | exact Hother].
Qed.

Lemma feedback_keeps_counters_witness :
  let feedback := {| f_user_id := "u"; f_post_id := "b";
                     f_interaction_type := "like"; f_time_spent := 12 |} in
  exists app',
    submit_feedback 2 app_known_user feedback = (Returned tt, app') /\
    let s := stats_of app_known_user "u" in
    let s' := stats_of app' "u" in
    total_interactions s' = (total_interactions s + 1)%Z /\
    stats_ok s' /\
    (12 > 0 -> Rmin (avg_read_time s) 12 <= avg_read_time s'
               <= Rmax (avg_read_time s) 12) /\
    (~ 12 > 0 -> avg_read_time s' = avg_read_time s) /\
    (forall uid', uid' <> "u"%string ->
       stats_of app' uid' = stats_of app_known_user uid').
Proof.
  intros feedback.
  apply (feedback_keeps_counters 2 app_known_user feedback
           (user_row "u" None None 0.5)
           (post_row "b" "r2" 3 false true false None None)).
  - reflexivity.
  - reflexivity.
  - vm_compute. repeat split; discriminate.
  - vm_compute. reflexivity.
  - intros v Hv. discriminate Hv.
  - intros v Hv. discriminate Hv.
Defined.


Lemma sql_limit_nonempty {B : Type} (n : Z) (l : list B) :
  l <> [] -> n <> 0%Z -> sql_limit n l <> [].
Proof.
  intros Hl Hn. unfold sql_limit. destruct (Z.ltb_spec n 0); [exact Hl|].
  destruct l as [|x l]; [congruence|].
  destruct (Z.to_nat n) as [|k] eqn:E; [lia | discriminate].
Qed.

Lemma sql_limit_In {B : Type} (n : Z) (l : list B) (x : B) :
  In x (sql_limit n l) -> In x l.
Proof.
  unfold sql_limit. destruct (n <? 0)%Z; [auto | apply In_firstn].
Qed.

Lemma feed_posts_from_catalog (e : Env) (d : DB) (uid : string) (num_items : Z) :
  env_ok e ->
  (forall p, In p (feed_posts e d uid num_items) -> In p (posts d)) /\
  (posts d <> [] -> num_items <> 0%Z -> feed_posts e d uid num_items <> []).
Proof.
  intros Hok. unfold feed_posts.
  assert (Hin : forall q, In q (get_recommendations e d uid num_items) ->
                          In q (posts d)).
  { unfold get_recommendations.
    destruct (get_candidates e d uid 100) as [|c cs] eqn:Epool; [contradiction|].
    set (scored := score_candidates d uid (c :: cs)).
    destruct (exploration_shape e d scored uid num_items Hok) as (_ & Hlook & _).
    intros q Hq. apply list_elem_of_In, list_elem_of_lookup in Hq as [i Hi].
    apply Hlook in Hi as [Hi|Hi]; [|exact Hi].
    assert (Hg : In q (greedy_pass num_items scored)).
    { apply list_elem_of_In, list_elem_of_lookup. eauto. }
    apply greedy_pass_In, in_map_iff in Hg as ([q' sc] & <- & Hq'). simpl.
    apply score_candidates_In in Hq' as [Hq' _]. rewrite <- Epool in Hq'.
    now apply (get_candidates_In e d uid 100). }
  destruct (get_recommendations e d uid num_items) as [|r rs].
  - split.
    + intros p Hp. apply sql_limit_In in Hp. unfold order_by_score_desc in Hp.
      now apply sort_desc_In in Hp.
    + intros Hne Hn. apply sql_limit_nonempty; [|exact Hn].
      intros Hs. apply Hne.
      apply length_zero_iff_nil.
      pose proof (sort_desc_length (fun p q => (score p <? score q)%Z) (posts d)) as Hl.
      unfold order_by_score_desc in Hs. rewrite Hs in Hl. simpl in Hl. lia.
  - split; [|discriminate].
    intros p Hp. now apply Hin.
Qed.

(** What [get_feed] answers and leaves behind, case by case. *)
Lemma get_feed_cases (e : Env) (app : App) (uid : string) (num_items : Z) :
  (exists u, get_user (db app) uid = Some u /\
     get_feed e app uid num_items
     = (Returned (feed_posts e (db app) uid num_items), app)) \/
  (get_user (db app) uid = None /\
   In (default_username uid) (map snd (usernames app)) /\
   get_feed e app uid num_items = (Raised "IntegrityError", app)) \/
  (get_user (db app) uid = None /\
   ~ In (default_username uid) (map snd (usernames app)) /\
   let d1 := {| posts := posts (db app);
                users := users (db app)
                         ++ [{| user_id := uid; user_embedding := None;
                                preferred_subreddits := None;
                                exploration_rate := 0.5 |}];
                interactions := interactions (db app) |} in
   get_feed e app uid num_items
   = (Returned (feed_posts e d1 uid num_items),
      {| db := d1; user_stats := user_stats app;
         usernames := usernames app ++ [(uid, default_username uid)] |})).
Proof.
  unfold get_feed. destruct (get_user (db app) uid) as [u|] eqn:Hu.
  - left. eauto.
  - right.
    destruct (existsb _ (usernames app)) eqn:Ex.
    + left. split; [reflexivity|]. split; [|reflexivity].
      apply existsb_exists in Ex as ([k name] & Hin & Heq).
      apply String.eqb_eq in Heq. simpl in Heq. subst name.
      apply in_map_iff. exists (k, default_username uid). auto.
    + right. split; [reflexivity|]. split; [|reflexivity].
      intros Hin. apply in_map_iff in Hin as ([k name] & Heq & Hin).
      simpl in Heq. subst name.
      assert (Ht : existsb (fun row : string * string =>
                              String.eqb (snd row) (default_username uid))
                           (usernames app) = true).
      { apply existsb_exists. exists (k, default_username uid).
        split; [exact Hin | apply String.eqb_refl]. }
      congruence.
Qed.

(** X24.  Whenever the feed endpoint returns, it returns only posts of
    the catalog, and at least one whenever the catalog is not empty and
    the requested count is not 0: where the pipeline comes back empty,
    the most popular posts are served instead.  It does return for a user
    without a row whose default name [user_<first 8 characters of the
    id>] is not taken. *)
Theorem feed_is_from_catalog_and_nonempty
    (e : Env) (app : App) (uid : string) (num_items : Z) :
  env_ok e ->
  (forall feed app',
     get_feed e app uid num_items = (Returned feed, app') ->
     (forall p, In p feed -> In p (posts (db app))) /\
     (posts (db app) <> [] -> num_items <> 0%Z -> feed <> [])) /\
  (get_user (db app) uid = None ->
   ~ In (default_username uid) (map snd (usernames app)) ->
   exists feed app', get_feed e app uid num_items = (Returned feed, app')).
Proof.
  intros Hok. split.
  - intros feed app' H.
    destruct (get_feed_cases e app uid num_items)
      as [(u & _ & E)|[(_ & _ & E)|(_ & _ & E)]];
      rewrite E in H; [| discriminate |]; injection H as <- <-.
    + now apply feed_posts_from_catalog.
    + exact (feed_posts_from_catalog e _ uid num_items Hok).
  - intros Hu Hfree.
    destruct (get_feed_cases e app uid num_items)
      as [(u & Hu' & _)|[(_ & Hin & _)|(_ & _ & E)]];
      [congruence | contradiction | eauto].
Qed.

Lemma feed_witness :
  (forall feed app',
     get_feed plain_env app_known_user "nobody" 1 = (Returned feed, app') ->
     (forall p, In p feed -> In p (posts (db app_known_user))) /\
     (posts (db app_known_user) <> [] -> 1%Z <> 0%Z -> feed <> [])) /\
  exists feed app',
    get_feed plain_env app_known_user "nobody" 1 = (Returned feed, app').
Proof.
  destruct (feed_is_from_catalog_and_nonempty plain_env app_known_user "nobody" 1
              plain_env_ok) as [H1 H2].
  split; [exact H1|].
  apply H2; [reflexivity|].
  simpl. intros [H|[]]. discriminate H.
Defined.


End ApiProperties.

(** ** Dictionaries *)

Section DictFacts.
Context {V : Type}.

Lemma dict_lookup_set (m : list (string * V)) (k k' : string) (v : V) :
  dict_lookup (dict_set m k v) k'
  = if String.eqb k k' then Some v else dict_lookup m k'.
Proof.
  induction m as [|[k0 v0] m IH]; simpl.
  - reflexivity.
  - destruct (String.eqb_spec k0 k) as [->|Hne]; simpl.
    + destruct (String.eqb k k'); reflexivity.
    + rewrite IH. destruct (String.eqb_spec k0 k') as [->|Hne'].
      * destruct (String.eqb_spec k k'); [congruence | reflexivity].
      * reflexivity.
Qed.

Lemma dict_set_keys_In (m : list (string * V)) (k k' : string) (v : V) :
  In k' (map fst (dict_set m k v)) <-> k' = k \/ In k' (map fst m).
Proof.
  induction m as [|[k0 v0] m IH]; simpl.
  - intuition.
  - destruct (String.eqb_spec k0 k) as [->|Hne]; simpl.
    + intuition.
    + rewrite IH. intuition.
Qed.

Lemma dict_set_NoDup (m : list (string * V)) (k : string) (v : V) :
  List.NoDup (map fst m) -> List.NoDup (map fst (dict_set m k v)).
Proof.
  induction m as [|[k0 v0] m IH]; simpl; intros H.
  - constructor; [intros [] | constructor].
  - inversion H as [|? ? Hk0 Hm]; subst.
    destruct (String.eqb_spec k0 k) as [->|Hne]; simpl.
    + now constructor.
    + constructor; [|now apply IH].
      rewrite dict_set_keys_In. intros [->|Hin]; [congruence | contradiction].
Qed.

Lemma dict_lookup_Some_In (m : list (string * V)) (k : string) (v : V) :
  dict_lookup m k = Some v -> In (k, v) m.
Proof.
  induction m as [|[k0 v0] m IH]; simpl; [discriminate|].
  destruct (String.eqb_spec k0 k) as [->|Hne].
  - intros [= ->]. now left.
  - intros H. right. now apply IH.
Qed.

Lemma dict_In_lookup (m : list (string * V)) (k : string) (v : V) :
  List.NoDup (map fst m) -> In (k, v) m -> dict_lookup m k = Some v.
Proof.
  induction m as [|[k0 v0] m IH]; simpl; [contradiction|].
  intros H Hin. inversion H as [|? ? Hk0 Hm]; subst.
  destruct (String.eqb_spec k0 k) as [->|Hne].
  - destruct Hin as [[= ->]|Hin]; [reflexivity|].
    exfalso. apply Hk0. apply in_map_iff. now exists (k, v).
  - destruct Hin as [[= -> ->]|Hin]; [congruence | now apply IH].
Qed.
End DictFacts.

(** ** The scraper and the database setup *)

Section ScraperProperties.
Local Open Scope R_scope.

Lemma dict_set_In {V : Type} (m : list (string * V)) (k k' : string) (v v' : V) :
  In (k', v') (dict_set m k v) -> (k' = k /\ v' = v) \/ In (k', v') m.
Proof.
  induction m as [|[k0 v0] m IH]; simpl.
  - intros [[= <- <-]|[]]. now left.
  - destruct (String.eqb_spec k0 k) as [->|Hne]; simpl.
    + intros [[= <- <-]|H]; [now left | right; now right].
    + intros [H|H]; [right; now left|].
      destruct (IH H) as [H'|H']; [now left | right; now right].
Qed.

Lemma find_over_app {B : Type} (f : B -> bool) (a b : list B) :
  find f (a ++ b) = match find f a with Some x => Some x | None => find f b end.
Proof.
  induction a as [|x a IH]; simpl; [reflexivity|].
  destruct (f x); [reflexivity | exact IH].
Qed.

Lemma find_of_member {B : Type} (f : B -> bool) (l : list B) (x : B) :
  In x l -> f x = true -> exists y, find f l = Some y.
Proof.
  induction l as [|z l IH]; simpl; [contradiction|].
  intros [->|H] Hf.
  - rewrite Hf. eauto.
  - destruct (f z); [eauto | now apply IH].
Qed.

Lemma unique_posts_fold (l : list ScrapedPost) (m : list (string * ScrapedPost)) :
  let m' := fold_left (fun m post => dict_set m (sp_post_id post) post) l m in
  (keyed_by_id m -> keyed_by_id m') /\
  (List.NoDup (map fst m) -> List.NoDup (map fst m')) /\
  (forall k, dict_lookup m' k
             = match find (fun p => String.eqb (sp_post_id p) k) (rev l) with
               | Some p => Some p
               | None => dict_lookup m k
               end).
Proof.
  revert m. induction l as [|x l IH]; intros m; simpl.
  - repeat split; auto.
  - destruct (IH (dict_set m (sp_post_id x) x)) as (Hk & Hn & Hl).
    split; [|split].
    + intros Hm. apply Hk. intros k p Hin.
      apply dict_set_In in Hin as [[-> ->]|Hin]; [reflexivity | now apply Hm].
    + intros Hm. apply Hn. now apply dict_set_NoDup.
    + intros k. rewrite Hl, find_over_app.
      destruct (find _ (rev l)); [reflexivity|].
      rewrite dict_lookup_set. simpl. now destruct (String.eqb (sp_post_id x) k).
Qed.

Lemma keyed_map_snd (m : list (string * ScrapedPost)) :
  keyed_by_id m -> map sp_post_id (map snd m) = map fst m.
Proof.
  intros H. rewrite map_map. apply map_ext_in. intros [k p] Hin. simpl.
  symmetry. now apply H.
Qed.

(** X26.  The scraper's deduplication returns one record per post id:
    no id occurs twice, every returned record was fetched, and for every
    fetched post the record kept under its id is the one fetched last. *)
Theorem fetch_diverse_posts_deduplicates
    (fetch_posts : string -> Z -> list ScrapedPost)
    (num_posts_per_subreddit : Z) (subreddits : option (list string)) :
  let all_posts := fetch_all fetch_posts num_posts_per_subreddit
                             (subreddits_or_default subreddits) in
  let out := fetch_diverse_posts fetch_posts num_posts_per_subreddit subreddits in
  List.NoDup (map sp_post_id out) /\
  (forall q, In q out -> In q all_posts) /\
  (forall p, In p all_posts ->
     exists q, find (fun x => String.eqb (sp_post_id x) (sp_post_id p)) (rev all_posts)
               = Some q /\ In q out).
Proof.
  intros all_posts out. subst out. unfold fetch_diverse_posts. fold all_posts.
  unfold unique_posts.
  destruct (unique_posts_fold all_posts []) as (Hk & Hn & Hl).
  set (m := fold_left _ all_posts []) in *.
  assert (Hkeyed : keyed_by_id m) by (apply Hk; intros k p []).
  assert (Hnodup : List.NoDup (map fst m)) by (apply Hn; constructor).
  split; [|split].
  - now rewrite keyed_map_snd.
  - intros q Hq. apply in_map_iff in Hq as ([k q'] & <- & Hin). simpl.
    apply (dict_In_lookup m k q' Hnodup) in Hin. rewrite Hl in Hin.
    destruct (find _ (rev all_posts)) as [y|] eqn:E; [|discriminate].
    injection Hin as ->. apply find_some in E as [E _]. now apply in_rev.
  - intros p Hp.
    destruct (find_of_member (fun x => String.eqb (sp_post_id x) (sp_post_id p))
                (rev all_posts) p) as [q Hq].
    + now apply in_rev in Hp.
    + apply String.eqb_refl.
    + exists q. split; [exact Hq|].
      specialize (Hl (sp_post_id p)). rewrite Hq in Hl.
      apply dict_lookup_Some_In in Hl.
      apply in_map_iff. now exists (sp_post_id p, q).
Qed.

(** X27.  Every synthetic interaction stems from one of the given posts.
    A like is on a post scoring above 100, lasts at most 300 seconds and
    comes from a profile interested in the post's subreddit, or from the
    profile without interests when the post scores above 1000.  A dislike
    is casual_browser's, lasts 2 seconds and is on a post scoring below
    50 with an upvote ratio below 0.7.  No post record gets both. *)
Theorem synthetic_interactions_follow_rules
    (clock : string -> string -> R) (posts : list ScrapedPost)
    (i : SyntheticInteraction) :
  In i (create_synthetic_interactions clock posts) ->
  exists post, In post posts /\ si_post_id i = sp_post_id post /\
    ((si_interaction_type i = "like"%string /\
      (100 < sp_score post)%Z /\
      si_time_spent i <= 300 /\
      exists interests, In (si_user_id i, interests) user_profiles /\
        (In (sp_subreddit post) interests \/
         (interests = [] /\ (1000 < sp_score post)%Z)))
     \/
     (si_interaction_type i = "dislike"%string /\
      si_user_id i = "casual_browser"%string /\
      si_time_spent i = 2 /\
      sp_upvote_ratio post < 0.7 /\
      (sp_score post < 50)%Z)).
Proof.
  unfold create_synthetic_interactions. rewrite in_flat_map.
  intros (post & Hpost & Hi). exists post. split; [exact Hpost|].
  unfold synthetic_for_post in Hi. apply in_app_or in Hi as [Hi|Hi].
  - destruct (Z.ltb_spec 100 (sp_score post)) as [Hs|Hs]; [|contradiction].
    apply in_flat_map in Hi as ([uid interests] & Hu & Hi). simpl in Hi.
    destruct (existsb _ interests || _) eqn:Hc; [|contradiction].
    destruct Hi as [<-|[]]. simpl.
    split; [reflexivity|]. left. split; [reflexivity|]. split; [exact Hs|].
    split; [apply Rmin_r|].
    exists interests. split; [exact Hu|].
    apply orb_true_iff in Hc as [Hc|Hc].
    + left. apply existsb_exists in Hc as (x & Hx & Heq).
      apply String.eqb_eq in Heq. now subst x.
    + right. apply andb_true_iff in Hc as [He Hk].
      destruct interests; [|discriminate].
      split; [reflexivity | now apply Z.ltb_lt].
  - destruct (Rltb (sp_upvote_ratio post) 0.7 && (sp_score post <? 50)%Z) eqn:Hc;
      [|contradiction].
    destruct Hi as [<-|[]]. simpl.
    split; [reflexivity|]. right.
    apply andb_true_iff in Hc as [Hr Hs].
    unfold Rltb in Hr. destruct (Rlt_dec (sp_upvote_ratio post) 0.7); [|discriminate].
    repeat split; try reflexivity; [assumption | now apply Z.ltb_lt].
Qed.

Lemma synthetic_interactions_witness :
  let post := {| sp_post_id := "p"; sp_subreddit := "python"; sp_score := 10;
                 sp_upvote_ratio := 0.5; sp_estimated_read_time := 1;
                 sp_post_age_hours := 3 |} in
  let i := {| si_user_id := "casual_browser"; si_post_id := "p";
              si_interaction_type := "dislike"; si_time_spent := 2;
              si_timestamp := 0 - 3 * 3600 * 0.3 |} in
  exists post', In post' [post] /\ si_post_id i = sp_post_id post' /\
    ((si_interaction_type i = "like"%string /\
      (100 < sp_score post')%Z /\
      si_time_spent i <= 300 /\
      exists interests, In (si_user_id i, interests) user_profiles /\
        (In (sp_subreddit post') interests \/
         (interests = [] /\ (1000 < sp_score post')%Z)))
     \/
     (si_interaction_type i = "dislike"%string /\
      si_user_id i = "casual_browser"%string /\
      si_time_spent i = 2 /\
      sp_upvote_ratio post' < 0.7 /\
      (sp_score post' < 50)%Z)).
Proof.
  intros post i.
  apply (synthetic_interactions_follow_rules (fun _ _ => 0) [post] i).
  unfold create_synthetic_interactions, synthetic_for_post. simpl.
  unfold Rltb. destruct (Rlt_dec 0.5 0.7) as [_|H]; [|exfalso; apply H; lra].
  simpl. left. reflexivity.
Defined.

(** X28.  Loading synthetic interactions adds at most 500 rows, each for
    a user and a post that have a row, appends them after the rows
    already there, logs the number added and leaves posts and users
    alone; a missing file changes nothing. *)
Theorem load_synthetic_interactions_keeps_references
    (file : option (list InteractionData)) (d : DB) :
  let d' := (load_synthetic_interactions file d).1 in
  let count := (load_synthetic_interactions file d).2 in
  posts d' = posts d /\
  users d' = users d /\
  (exists loaded,
     interactions d' = interactions d ++ loaded /\
     length loaded = count /\
     (count <= 500)%nat /\
     forall i, In i loaded ->
       get_user d (i_user_id i) <> None /\ get_post d (i_post_id i) <> None) /\
  (file = None -> d' = d /\ count = 0%nat).
Proof.
  destruct file as [data|]; simpl.
  - split; [reflexivity|]. split; [reflexivity|]. split; [|discriminate].
    eexists. split; [reflexivity|]. split; [reflexivity|]. split.
    + assert (Hlen : (length (firstn 500 data) <= 500)%nat)
        by (rewrite length_firstn; lia).
      revert Hlen. generalize (firstn 500 data) as l. intros l Hlen.
      match goal with |- (length (flat_map ?f l) <= 500)%nat =>
        assert (Hle : (length (flat_map f l) <= length l)%nat) end.
      { clear Hlen. induction l as [|x l IH]; simpl; [lia|].
        rewrite length_app.
        destruct (get_user d (id_user_id x)); [destruct (get_post d (id_post_id x))|];
          simpl; lia. }
      lia.
    + intros i Hi. apply in_flat_map in Hi as (x & _ & Hi).
      destruct (get_user d (id_user_id x)) eqn:Hu; [|contradiction].
      destruct (get_post d (id_post_id x)) eqn:Hp; [|contradiction].
      destruct Hi as [<-|[]]. simpl. rewrite Hu, Hp. split; discriminate.
  - split; [reflexivity|]. split; [reflexivity|]. split.
    + exists []. rewrite app_nil_r.
      split; [reflexivity|]. split; [reflexivity|]. split; [lia|].
      intros i [].
    + intros _. split; reflexivity.
Qed.
End ScraperProperties.

(** ** User statistics *)

Section StatsProperties.
Local Open Scope Z_scope.

Lemma dict_count_incr (m : list (string * Z)) (k k' : string) :
  dict_count (dict_incr m k) k'
  = dict_count m k' + (if String.eqb k k' then 1 else 0).
Proof.
  unfold dict_count, dict_incr. rewrite dict_lookup_set.
  destruct (String.eqb_spec k k') as [->|Hne]; [|lia].
  fold (dict_count m k'). unfold dict_count. lia.
Qed.

Lemma count_fold (key : Interaction -> option string) (l : list Interaction)
    (m : list (string * Z)) (k : string) :
  dict_count (fold_left (count_step key) l m) k
  = dict_count m k
    + Z.of_nat (length (List.filter
        (fun i => match key i with Some k' => String.eqb k' k | None => false end) l)).
Proof.
  revert m. induction l as [|i l IH]; intros m; simpl; [lia|].
  rewrite IH. unfold count_step.
  destruct (key i) as [k'|]; [|lia].
  rewrite dict_count_incr. destruct (String.eqb k' k); simpl; lia.
Qed.

Lemma count_fold_NoDup (key : Interaction -> option string) (l : list Interaction)
    (m : list (string * Z)) :
  List.NoDup (map fst m) -> List.NoDup (map fst (fold_left (count_step key) l m)).
Proof.
  revert m. induction l as [|i l IH]; intros m Hm; simpl; [exact Hm|].
  apply IH. unfold count_step. destruct (key i); [|exact Hm].
  now apply dict_set_NoDup.
Qed.

Lemma fold_left_pointwise {A B : Type} (f g : A -> B -> A) (l : list B) (a : A) :
  (forall x y, f x y = g x y) -> fold_left f l a = fold_left g l a.
Proof.
  intros H. revert a. induction l as [|y l IH]; intros a; simpl; [reflexivity|].
  now rewrite H, IH.
Qed.

Lemma insert_desc_Z_sorted {A : Type} (key : A -> Z) (x : A) (l : list A) :
  StronglySorted (fun a b => key b <= key a) l ->
  StronglySorted (fun a b => key b <= key a)
    (insert_desc (fun a b => key a <? key b) x l).
Proof.
  induction 1 as [|y l Hs IH Hall]; simpl.
  - repeat constructor.
  - destruct (Z.ltb_spec (key x) (key y)) as [Hlt|Hge].
    + constructor; [exact IH|].
      rewrite List.Forall_forall in *. intros z Hz.
      apply (Permutation_in _ (insert_desc_perm _ x l)) in Hz.
      destruct Hz as [<-|Hz]; [lia | now apply Hall].
    + constructor; [now constructor|].
      constructor; [exact Hge|].
      rewrite List.Forall_forall in *. intros z Hz.
      specialize (Hall z Hz). simpl in Hall. lia.
Qed.

Lemma sort_desc_Z_sorted {A : Type} (key : A -> Z) (l : list A) :
  StronglySorted (fun a b => key b <= key a)
    (sort_desc (fun a b => key a <? key b) l).
Proof.
  induction l as [|x l IH]; simpl; [constructor|].
  now apply insert_desc_Z_sorted.
Qed.

(** X29.  The statistics endpoint answers 404 for a user without a row.
    For a user with one, the breakdown holds under each interaction type
    the number of the user's interactions of that type, and the
    favourites are at most five subreddits in descending order of count,
    each with the number of the user's likes on existing posts of that
    subreddit. *)
Theorem user_stats_count_interactions (app : App) (uid : string) :
  match get_user (db app) uid with
  | None => get_user_stats app uid = Raised "404 User not found"
  | Some user =>
      exists r,
        get_user_stats app uid = Returned r /\
        r_exploration_rate r = exploration_rate user /\
        (forall ty,
           dict_count (interaction_breakdown r) ty
           = Z.of_nat (length (List.filter
               (fun i => String.eqb (i_user_id i) uid
                         && String.eqb (interaction_type i) ty)
               (interactions (db app))))) /\
        (length (favorite_subreddits r) <= 5)%nat /\
        StronglySorted (fun a b => snd b <= snd a) (favorite_subreddits r) /\
        (forall sub c, In (sub, c) (favorite_subreddits r) ->
           c = Z.of_nat (length (List.filter
                 (fun i => String.eqb (i_user_id i) uid
                           && match liked_subreddit (db app) i with
                              | Some s => String.eqb s sub
                              | None => false
                              end)
                 (interactions (db app)))))
  end.
Proof.
  unfold get_user_stats. destruct (get_user (db app) uid) as [user|]; [|reflexivity].
  eexists. split; [reflexivity|]. simpl. split; [reflexivity|].
  set (mine := List.filter (fun i => String.eqb (i_user_id i) uid)
                           (interactions (db app))).
  assert (Hfilter : forall g : Interaction -> bool,
            List.filter g mine
            = List.filter (fun i => String.eqb (i_user_id i) uid && g i)
                          (interactions (db app))).
  { intros g. subst mine. induction (interactions (db app)) as [|i l IH]; simpl;
      [reflexivity|].
    destruct (String.eqb (i_user_id i) uid); simpl; [|exact IH].
    destruct (g i); now rewrite IH. }
  split; [|split; [|split]].
  - intros ty.
    rewrite (fold_left_pointwise _ (count_step (fun i => Some (interaction_type i))))
      by reflexivity.
    rewrite count_fold. unfold dict_count at 1. simpl.
    now rewrite Hfilter.
  - rewrite length_firstn. lia.
  - apply StronglySorted_firstn.
    apply (sort_desc_Z_sorted (fun x : string * Z => snd x)).
  - intros sub c Hin. apply In_firstn in Hin. apply sort_desc_In in Hin.
    rewrite (fold_left_pointwise _ (count_step (liked_subreddit (db app)))) in Hin.
    2:{ intros m i. unfold count_step, liked_subreddit.
        destruct (String.eqb (interaction_type i) "like"); [|reflexivity].
        now destruct (get_post (db app) (i_post_id i)). }
    apply dict_In_lookup in Hin;
      [|apply count_fold_NoDup; constructor].
    pose proof (count_fold (liked_subreddit (db app)) mine [] sub) as Hc.
    unfold dict_count at 1 in Hc. rewrite Hin in Hc.
    unfold dict_count in Hc. simpl in Hc. rewrite Hc, Hfilter. lia.
Qed.
End StatsProperties.

(** ** Extraction of a submission *)

Section ExtractionProperties.
Local Open Scope R_scope.

Lemma substring_prefix_length (n : nat) (t : string) :
  (String.length (substring 0 n t) <= n)%nat.
Proof.
  revert t. induction n as [|n IH]; intros [|c t]; simpl; try lia.
  specialize (IH t). lia.
Qed.

Lemma substring_prefix_twice (a b : nat) (t : string) :
  (a <= b)%nat -> substring 0 a (substring 0 b t) = substring 0 a t.
Proof.
  revert b t. induction a as [|a IH]; intros [|b] [|c t] H; simpl;
    try reflexivity; try lia.
  f_equal. apply IH. lia.
Qed.

(** X30.  Extraction raises exactly when the submission's score is -1.
    Otherwise the extracted content is at most 1000 characters long, the
    estimated read time is not negative, the total engagement is score
    plus comments, and the embedding text recorded with the post is the
    very text the embedding manager later builds from a row holding the
    extracted title and content. *)
Theorem extract_post_data_consistent
    (now : R) (submission : Submission) (fetch_method : string) :
  match extract_post_data now submission fetch_method with
  | Raised _ => sub_score submission = (-1)%Z
  | Returned data =>
      sub_score submission <> (-1)%Z /\
      (String.length (pd_content data) <= 1000)%nat /\
      0 <= pd_estimated_read_time data /\
      pd_total_engagement data = (pd_score data + pd_num_comments data)%Z /\
      forall post, title post = pd_title data ->
                   content post = Some (pd_content data) ->
                   post_text post = pd_embedding_text data
  end.
Proof.
  unfold extract_post_data.
  destruct (Z.eqb_spec (sub_score submission + 1) 0) as [E|E]; [lia|].
  simpl. split; [lia|]. split; [apply substring_prefix_length|]. split.
  - unfold Rdiv. apply Rmult_le_pos; [apply pos_INR | lra].
  - split; [reflexivity|].
    intros post Ht Hc. unfold post_text. rewrite Ht, Hc.
    now rewrite substring_prefix_twice by lia.
Qed.
End ExtractionProperties.
